(** * twt_media_scraper: a shallow embedding of [main.py]

    The program resolves a username to a user id through a proxy API,
    lists the media of that user from a second endpoint, downloads every
    photo and video and writes a manifest [data.json].

    The embedding follows the source function by function:
    - JSON values as Python sees them after [response.json()], with the
      exceptions raised by subscripting, [.get], iteration and ordering;
    - [make_request], [get_user_id], [get_user_media], [download_media]
      and [main] over an explicit process state (log, standard output,
      file system, the calls made so far) and an environment that answers
      the HTTP and operating-system calls. *)

From Stdlib Require Import ZArith QArith List String Ascii Bool Lia.
From Stdlib Require Import DecimalString DecimalZ DecimalPos Finite.
From stdpp Require Import gmap strings.
Import ListNotations.
Local Open Scope string_scope.
Local Open Scope Z_scope.

(** ** Python values that come out of a JSON document *)

(** A Python [float]: a finite double is the rational it denotes (Python
    compares [int] and [float] exactly), plus the two infinities and NaN,
    which [json.loads] accepts. *)
Inductive pyfloat : Type :=
| FNan
| FInf (negative : bool)
| FFin (q : Q).

(** [None], [bool], [int], [float], [str], [list] and [dict].  A [dict]
    keeps its keys in insertion order; looking a key up takes its first
    binding.  A [str] is held as the UTF-8 bytes of its code points; the
    order of the bytes is the order of the code points. *)
#[warnings="-register-all"]
Inductive json : Type :=
| JNull
| JBool (b : bool)
| JInt (z : Z)
| JFloat (f : pyfloat)
| JStr (s : string)
| JList (items : list json)
| JDict (fields : list (string * json)).

(** What a subscript is written with: a string key or a list index. *)
Inductive pykey : Type :=
| Key (k : string)
| Idx (i : nat).

(** The exceptions that occur in the program.  [RequestException] stands
    for the whole [requests.exceptions] hierarchy (HTTPError,
    ConnectionError, MissingSchema, JSONDecodeError, ...): the program
    only ever catches the base class. *)
Inductive exn : Type :=
| KeyError (k : pykey)
| IndexError (msg : string)
| TypeError
| AttributeError
| ValueError
| UnboundLocalError (name : string)
| RecursionError
| RequestException (msg : string)
| OSError (path : string)
| OtherError (msg : string)
| SystemExit (code : Z).

(** The result of evaluating a Python expression or statement. *)
Inductive outcome (A : Type) : Type :=
| Ok (a : A)
| Raise (e : exn).
Arguments Ok {A} a.
Arguments Raise {A} e.

Definition obind {A B} (m : outcome A) (f : A -> outcome B) : outcome B :=
  match m with
  | Ok a => f a
  | Raise e => Raise e
  end.

Declare Scope py_scope.
Delimit Scope py_scope with py.
Notation "x <- m ;; k" := (obind m (fun x => k))
  (at level 100, m at next level, right associativity) : py_scope.
Local Open Scope py_scope.

(** [except Exception] catches everything but [SystemExit]. *)
Definition is_Exception (e : exn) : bool :=
  match e with
  | SystemExit _ => false
  | _ => true
  end.

Definition is_RequestException (e : exn) : bool :=
  match e with
  | RequestException _ => true
  | _ => false
  end.

(** [str(n)] for an [int]. *)
Definition str_of_Z (z : Z) : string :=
  NilZero.string_of_int (Z.to_int z).

(** [str(e)]: a [KeyError] prints the [repr] of the missing key. *)
Definition str_of_exn (e : exn) : string :=
  match e with
  | KeyError (Key k) => "'" +:+ k +:+ "'"
  | KeyError (Idx i) => str_of_Z (Z.of_nat i)
  | IndexError msg => msg
  | TypeError => "TypeError"
  | AttributeError => "AttributeError"
  | ValueError => "ValueError"
  | UnboundLocalError name =>
      "cannot access local variable '" +:+ name
        +:+ "' where it is not associated with a value"
  | RecursionError => "maximum recursion depth exceeded"
  | RequestException msg => msg
  | OSError path => path
  | OtherError msg => msg
  | SystemExit code => str_of_Z code
  end.

(** *** Dictionaries and subscripts *)

Fixpoint dict_lookup (k : string) (kv : list (string * json)) : option json :=
  match kv with
  | [] => None
  | (k', v) :: rest => if String.eqb k k' then Some v else dict_lookup k rest
  end.

(** The characters of a string: a byte [10xxxxxx] continues the code
    point that the bytes before it began, any other byte begins one. *)
Definition is_continuation (c : ascii) : bool :=
  let n := nat_of_ascii c in ((128 <=? n) && (n <? 192))%nat.

Definition continues (s : string) : bool :=
  match s with
  | String c _ => is_continuation c
  | EmptyString => false
  end.

Fixpoint code_points (s : string) : list string :=
  match s with
  | EmptyString => []
  | String c rest =>
      match code_points rest with
      | p :: ps =>
          if continues rest then String c p :: ps
          else String c EmptyString :: p :: ps
      | [] => [String c EmptyString]
      end
  end.

(** [s[i]] on a string is the one-character string at [i]. *)
Definition str_index (s : string) (i : nat) : option string :=
  nth_error (code_points s) i.

(** [obj[k]]. *)
Definition py_subscript (obj : json) (k : pykey) : outcome json :=
  match obj, k with
  | JDict kv, Key s =>
      match dict_lookup s kv with
      | Some v => Ok v
      | None => Raise (KeyError k)
      end
  | JDict _, Idx _ => Raise (KeyError k)
  | JList l, Idx i =>
      match nth_error l i with
      | Some v => Ok v
      | None => Raise (IndexError "list index out of range")
      end
  | JList _, Key _ => Raise TypeError
  | JStr s, Idx i =>
      match str_index s i with
      | Some c => Ok (JStr c)
      | None => Raise (IndexError "string index out of range")
      end
  | JStr _, Key _ => Raise TypeError
  | _, _ => Raise TypeError
  end.

(** [obj.get(k, default)]: only a [dict] has the method. *)
Definition py_get (obj : json) (k : string) (default : json) : outcome json :=
  match obj with
  | JDict kv =>
      match dict_lookup k kv with
      | Some v => Ok v
      | None => Ok default
      end
  | _ => Raise AttributeError
  end.

(** [for x in obj]: a list yields its items, a string its characters, a
    dict its keys; nothing else is iterable. *)
Definition chars_of (s : string) : list json := map JStr (code_points s).

Definition py_iter (obj : json) : outcome (list json) :=
  match obj with
  | JList l => Ok l
  | JStr s => Ok (chars_of s)
  | JDict kv => Ok (map (fun p => JStr (fst p)) kv)
  | _ => Raise TypeError
  end.

(** *** Truth, equality and order *)

Definition float_is_zero (f : pyfloat) : bool :=
  match f with
  | FFin q => Qeq_bool q 0
  | _ => false
  end.

(** [bool(obj)], as in [if not media_entities]. *)
Definition truthy (obj : json) : bool :=
  match obj with
  | JNull => false
  | JBool b => b
  | JInt z => negb (z =? 0)
  | JFloat f => negb (float_is_zero f)
  | JStr s => negb (String.eqb s "")
  | JList l => match l with [] => false | _ => true end
  | JDict kv => match kv with [] => false | _ => true end
  end.

(** The number a value stands for in a comparison ([bool] is an [int]). *)
Definition num_of (obj : json) : option pyfloat :=
  match obj with
  | JBool b => Some (FFin (if b then 1 else 0)%Q)
  | JInt z => Some (FFin (inject_Z z))
  | JFloat f => Some f
  | _ => None
  end.

Definition num_gt (a b : pyfloat) : bool :=
  match a, b with
  | FNan, _ | _, FNan => false
  | FInf na, FInf nb => negb na && nb
  | FInf na, FFin _ => negb na
  | FFin _, FInf nb => nb
  | FFin x, FFin y => match (x ?= y)%Q with Gt => true | _ => false end
  end.

(** Equality of two items inside a container: the same object, or equal
    by value.  Every NaN of a parsed document is the decoder's one NaN
    object, so two of them are the same item. *)
Definition num_eq (a b : pyfloat) : bool :=
  match a, b with
  | FNan, FNan => true
  | FInf na, FInf nb => Bool.eqb na nb
  | FFin x, FFin y => Qeq_bool x y
  | _, _ => false
  end.

Fixpoint py_eq (a b : json) {struct a} : bool :=
  match a, b with
  | JNull, JNull => true
  | JStr s, JStr t => String.eqb s t
  | JList xs, JList ys =>
      (fix all2 (xs ys : list json) {struct xs} : bool :=
         match xs, ys with
         | [], [] => true
         | x :: xs', y :: ys' => py_eq x y && all2 xs' ys'
         | _, _ => false
         end) xs ys
  | JDict kv, JDict kw =>
      Nat.eqb (length kv) (length kw) &&
      (fix sub (kv : list (string * json)) {struct kv} : bool :=
         match kv with
         | [] => true
         | (k, v) :: rest =>
             match dict_lookup k kw with
             | Some w => py_eq v w && sub rest
             | None => false
             end
         end) kv
  | _, _ =>
      match num_of a, num_of b with
      | Some x, Some y => num_eq x y
      | _, _ => false
      end
  end.

(** [a > b].  Numbers compare by value, strings and lists
    lexicographically; any other pair is a [TypeError]. *)
Fixpoint py_gt (a b : json) {struct a} : outcome bool :=
  match a, b with
  | JStr s, JStr t => Ok (String.ltb t s)
  | JList xs, JList ys =>
      (fix lex (xs ys : list json) {struct xs} : outcome bool :=
         match xs, ys with
         | [], _ => Ok false
         | _ :: _, [] => Ok true
         | x :: xs', y :: ys' => if py_eq x y then lex xs' ys' else py_gt x y
         end) xs ys
  | _, _ =>
      match num_of a, num_of b with
      | Some x, Some y => Ok (num_gt x y)
      | _, _ => Raise TypeError
      end
  end.

(** [max(items, key=key)]: the first item whose key no later key exceeds;
    [ValueError] on an empty sequence. *)
Fixpoint max_from (key : json -> outcome json) (best bestk : json)
    (rest : list json) : outcome json :=
  match rest with
  | [] => Ok best
  | y :: rest' =>
      ky <- key y ;;
      c <- py_gt ky bestk ;;
      if (c : bool) then max_from key y ky rest' else max_from key best bestk rest'
  end.

Definition py_max (key : json -> outcome json) (items : list json) : outcome json :=
  match items with
  | [] => Raise ValueError
  | x :: rest => kx <- key x ;; max_from key x kx rest
  end.

(** ** The media lister: lines 93-134 of [get_user_media] *)

(** One element of [final_data]: the dictionary with the keys [id],
    [created_at], [text], [media_type] and [media_url]. *)
Record MediaRecord : Type := {
  id : Z;
  created_at : json;
  text : json;
  media_type : json;
  media_url : json
}.

Definition empty_dict : json := JDict [].
Definition empty_list : json := JList [].

(** [[v for v in variants if v['content_type'] == 'video/mp4']] *)
Fixpoint filter_mp4 (vs : list json) : outcome (list json) :=
  match vs with
  | [] => Ok []
  | v :: rest =>
      ct <- py_subscript v (Key "content_type") ;;
      tl <- filter_mp4 rest ;;
      Ok (if py_eq ct (JStr "video/mp4") then v :: tl else tl)
  end.

Definition mp4_variants (variants : json) : outcome (list json) :=
  vs <- py_iter variants ;; filter_mp4 vs.

(** [lambda x: x.get('bitrate', 0)] *)
Definition bitrate_key (x : json) : outcome json := py_get x "bitrate" (JInt 0).

(** Lines 117-120: the value of [media_url] for a video, given the first
    media entity. *)
Definition select_media_url (media0 : json) : outcome json :=
  video_info <- py_get media0 "video_info" empty_dict ;;
  variants <- py_get video_info "variants" empty_list ;;
  mp4 <- mp4_variants variants ;;
  if truthy (JList mp4)
  then best <- py_max bitrate_key mp4 ;; py_subscript best (Key "url")
  else Ok JNull.

(** The body of the loop for one entry: [None] stands for [continue],
    [Some r] for the record appended with id [full_counter]. *)
Definition process_entry (full_counter : Z) (entry : json)
    : outcome (option MediaRecord) :=
  content <- py_get entry "content" empty_dict ;;
  entry_type <- py_get content "entryType" JNull ;;
  if negb (py_eq entry_type (JStr "TimelineTimelineItem")) then Ok None else
  item_content <- py_get content "itemContent" empty_dict ;;
  tweet_results <- py_get item_content "tweet_results" empty_dict ;;
  result <- py_get tweet_results "result" empty_dict ;;
  legacy <- py_get result "legacy" empty_dict ;;
  extended <- py_get legacy "extended_entities" empty_dict ;;
  media_entities <- py_get extended "media" empty_list ;;
  if negb (truthy media_entities) then Ok None else
  media0 <- py_subscript media_entities (Idx 0) ;;
  mtype <- py_get media0 "type" JNull ;;
  murl <- (if py_eq mtype (JStr "video")
           then media0' <- py_subscript media_entities (Idx 0) ;;
                select_media_url media0'
           else Ok JNull) ;;
  legacy1 <- py_get result "legacy" empty_dict ;;
  created <- py_get legacy1 "created_at" JNull ;;
  legacy2 <- py_get result "legacy" empty_dict ;;
  full_text <- py_get legacy2 "full_text" JNull ;;
  Ok (Some {| id := full_counter; created_at := created; text := full_text;
              media_type := mtype; media_url := murl |}).

(** The [for entry in entries] loop, threading [final_data] and
    [full_counter]. *)
Fixpoint entries_loop (entries : list json) (final_data : list MediaRecord)
    (full_counter : Z) : outcome (list MediaRecord) :=
  match entries with
  | [] => Ok final_data
  | entry :: rest =>
      r <- process_entry full_counter entry ;;
      match r with
      | None => entries_loop rest final_data full_counter
      | Some rec => entries_loop rest (final_data ++ [rec]) (full_counter + 1)
      end
  end.

(** [data['result']['timeline']['instructions'][1]['entries']] *)
Definition media_path : list pykey :=
  [Key "result"; Key "timeline"; Key "instructions"; Idx 1; Key "entries"].

(** [data['result']['data']['user']['result']['rest_id']] *)
Definition user_path : list pykey :=
  [Key "result"; Key "data"; Key "user"; Key "result"; Key "rest_id"].

Fixpoint subscripts (obj : json) (path : list pykey) : outcome json :=
  match path with
  | [] => Ok obj
  | k :: rest => v <- py_subscript obj k ;; subscripts v rest
  end.

(** ** The process: state, environment and effects *)

(** What the program logs, one constructor per [logging] call of the
    source, with the values the message is formatted from. *)
Inductive log_entry : Type :=
| RequestFailed (e : exn)                        (* error, line 38 *)
| DownloadFailed (url : json) (e : exn)          (* error, line 57 *)
| VideoDownloaded (file_name : string)           (* info, line 71 *)
| VideoFailed (e : exn)                          (* error, line 73 *)
| MediaError (response_text : option string)     (* error, line 90 *)
| UnexpectedFormat (e : exn)                     (* error, lines 99 and 154 *)
| UserIdError (response_text : option string)    (* error, line 149 *)
| CountNotInteger.                               (* error, line 175 *)

(** What a file holds: raw bytes, or the text [json.dump(v, f, indent=4)]
    writes for the value [v]. *)
Inductive file_content : Type :=
| Bytes (b : string)
| JsonDump (v : json).

(** The calls the program makes to the outside, in the order made.  A
    query parameter [str(x)] is recorded as [x]. *)
Inductive call : Type :=
| ApiCall (endpoint : string) (params : list (string * json))
| Makedirs (path : string)
| DownloadMedia (url : json) (file_name : string) (kind : string)
| WriteFile (path : string).

Record state : Type := {
  log : list log_entry;
  stdout : list string;
  dirs : gset string;
  files : gmap string file_content;
  calls : list call
}.

(** What [response.json()] makes of the body.  A body that is no JSON
    raises [requests.exceptions.JSONDecodeError], a [RequestException]
    (requests 2.27 and later); the two other failures come from the
    decoder itself and are no [RequestException]. *)
Inductive decoding : Type :=
| Body (data : json)                (* the parsed document *)
| JSONDecodeError (msg : string)    (* the body is no JSON *)
| TooManyDigits                     (* ValueError: an integer literal of
                                       more than 4300 digits *)
| TooDeep.                          (* RecursionError: arrays or objects
                                       nested beyond the recursion limit *)

(** An HTTP response as [requests] presents it. *)
Record response : Type := {
  status_code : Z;
  content : string;                 (* response.content *)
  decoded : decoding;               (* response.json() *)
  error_text : string               (* str of the HTTPError that
                                       raise_for_status builds *)
}.

Inductive http_reply : Type :=
| NoResponse (err : string)         (* requests.get raised: no connection,
                                       timeout, unusable URL, ... *)
| Got (r : response).

(** The environment: the vendor API behind [API_HOST] and [API_KEY], the
    media hosts, the video extractor and the operating system.  Each
    answers as a function of what it is asked: [api] of the endpoint and
    the query (a parameter [str(x)] is given as [x]), [fetch] of the URL,
    [ytdlp] of the URL and the output template, [makedirs_ok] and
    [open_ok] of the path.  [main] asks each question once, so nothing is
    lost by leaving time out.

    [url_error] is the text of the exception that [requests.get] raises
    for a URL that is no string.

    The extractor is taken to do what [ydl.download] is called for: it
    leaves the video in the file named by [outtmpl], or it fails and
    leaves nothing.  The fields that a [%] in [outtmpl] would expand
    and the partial files of an interrupted download are outside the
    model. *)
Record world : Type := {
  api : string -> list (string * json) -> http_reply;
  fetch : string -> http_reply;
  url_error : json -> string;
  ytdlp : json -> string -> option string;   (* bytes left at [outtmpl] *)
  makedirs_ok : string -> bool;
  open_ok : string -> bool
}.

Definition M (A : Type) : Type := state -> outcome A * state.

Definition io_ret {A} (a : A) : M A := fun s => (Ok a, s).

Definition io_bind {A B} (m : M A) (f : A -> M B) : M B :=
  fun s => match m s with
           | (Ok a, s') => f a s'
           | (Raise e, s') => (Raise e, s')
           end.

Definition io_raise {A} (e : exn) : M A := fun s => (Raise e, s).

Definition lift {A} (o : outcome A) : M A := fun s => (o, s).

(** [try: body except <catches> as e: handler e] *)
Definition try_except {A} (body : M A) (catches : exn -> bool)
    (handler : exn -> M A) : M A :=
  fun s => match body s with
           | (Raise e, s') => if catches e then handler e s' else (Raise e, s')
           | r => r
           end.

Declare Scope io_scope.
Delimit Scope io_scope with io.
Notation "x <- m ;; k" := (io_bind m (fun x => k))
  (at level 100, m at next level, right associativity) : io_scope.
Notation "m ;;; k" := (io_bind m (fun _ => k))
  (at level 100, right associativity) : io_scope.

Definition logging (l : log_entry) : M unit :=
  fun s => (Ok tt, {| log := log s ++ [l]; stdout := stdout s; dirs := dirs s;
                      files := files s; calls := calls s |}).

Definition print (line : string) : M unit :=
  fun s => (Ok tt, {| log := log s; stdout := stdout s ++ [line]; dirs := dirs s;
                      files := files s; calls := calls s |}).

Definition record_call (c : call) : M unit :=
  fun s => (Ok tt, {| log := log s; stdout := stdout s; dirs := dirs s;
                      files := files s; calls := calls s ++ [c] |}).

Definition sys_exit {A} (code : Z) : M A := io_raise (SystemExit code).

(** *** The operating system *)

(** The directories [os.makedirs(path)] creates: every prefix of [path]
    that ends before a [/], and [path] itself. *)
Fixpoint path_prefixes (done todo : string) : list string :=
  match todo with
  | EmptyString => [done]
  | String c rest =>
      if Ascii.eqb c "/"
      then done :: path_prefixes (done +:+ "/") rest
      else path_prefixes (done +:+ String c EmptyString) rest
  end.

(** [os.makedirs(path, exist_ok=True)]: the environment decides whether
    the call succeeds; a call that fails is taken to leave the tree as it
    was, and raises [OSError]. *)
Definition os_makedirs (w : world) (path : string) : M unit :=
  (record_call (Makedirs path) ;;;
   fun s =>
     if makedirs_ok w path
     then (Ok tt, {| log := log s; stdout := stdout s;
                     dirs := dirs s ∪ list_to_set (path_prefixes "" path);
                     files := files s; calls := calls s |})
     else (Raise (OSError path), s))%io.

(** [with open(path, mode) as f: f.write(data)]: the environment decides
    whether the file can be opened; if not, [OSError]. *)
Definition write_file (w : world) (path : string) (data : file_content) : M unit :=
  (record_call (WriteFile path) ;;;
   fun s =>
     if open_ok w path
     then (Ok tt, {| log := log s; stdout := stdout s; dirs := dirs s;
                     files := <[path := data]> (files s); calls := calls s |})
     else (Raise (OSError path), s))%io.

(** *** [requests] *)

(** [requests.get] *)
Definition requests_get (reply : http_reply) : outcome response :=
  match reply with
  | NoResponse err => Raise (RequestException err)
  | Got r => Ok r
  end.

(** [response.ok], which is also [bool(response)] *)
Definition response_ok (r : response) : bool :=
  negb ((400 <=? status_code r) && (status_code r <? 600)).

(** [response.raise_for_status()] *)
Definition raise_for_status (r : response) : outcome unit :=
  if response_ok r then Ok tt else Raise (RequestException (error_text r)).

(** [response.json()] *)
Definition response_json (r : response) : outcome json :=
  match decoded r with
  | Body data => Ok data
  | JSONDecodeError msg => Raise (RequestException msg)
  | TooManyDigits => Raise ValueError
  | TooDeep => Raise RecursionError
  end.

(** [make_request]: the tuple (body or [None], status, error or [None]). *)
Definition make_request (w : world) (endpoint : string)
    (params : list (string * json)) : M (json * Z * option string) :=
  (record_call (ApiCall endpoint params) ;;;
   match requests_get (api w endpoint params) with
   | Raise e =>
       (* [response] was never assigned when the handler runs *)
       if is_RequestException e
       then logging (RequestFailed e) ;;; io_raise (UnboundLocalError "response")
       else io_raise e
   | Ok response =>
       try_except
         (lift (_ <- raise_for_status response ;;
                body <- response_json response ;;
                Ok (body, status_code response, None))%py)
         is_RequestException
         (fun e =>
            logging (RequestFailed e) ;;;
            io_ret (JNull,
                    if response_ok response then status_code response else 500,
                    Some (str_of_exn e)))
   end)%io.

(** ** The functions of [main.py] *)

Definition is_lookup_error (e : exn) : bool :=     (* (KeyError, IndexError) *)
  match e with
  | KeyError _ | IndexError _ => true
  | _ => false
  end.

Definition is_KeyError (e : exn) : bool :=
  match e with
  | KeyError _ => true
  | _ => false
  end.

(** Lines 93-134: what [get_user_media] does with a body of status 200. *)
Definition list_media (data : json) : M (option (list MediaRecord)) :=
  (found <- try_except
              (entries <- lift (subscripts data media_path) ;; io_ret (Some entries))
              is_lookup_error
              (fun e => logging (UnexpectedFormat e) ;;; io_ret None) ;;
   match found with
   | None => io_ret None
   | Some entries =>
       items <- lift (py_iter entries) ;;
       final_data <- lift (entries_loop items [] 1) ;;
       io_ret (Some final_data)
   end)%io.

Definition media_query (user_id : json) (count : Z) : list (string * json) :=
  [("user", user_id); ("count", JInt count)].

Definition get_user_media (w : world) (user_id : json) (count : Z)
    : M (option (list MediaRecord)) :=
  (r <- make_request w "user-media" (media_query user_id count) ;;
   let '(data, status, response_text) := r in
   if negb (status =? 200)
   then logging (MediaError response_text) ;;; io_ret None
   else list_media data)%io.

(** Lines 151-155: what [get_user_id] does with a body of status 200.
    The result is the [rest_id] as found, or [None]. *)
Definition find_user_id (data : json) : M json :=
  try_except
    (lift (subscripts data user_path))
    is_KeyError
    (fun e => logging (UnexpectedFormat e) ;;; io_ret JNull)%io.

Definition get_user_id (w : world) (username : string) : M json :=
  (r <- make_request w "user" [("username", JStr username)] ;;
   let '(data, status, response_text) := r in
   if negb (status =? 200)
   then logging (UserIdError response_text) ;;; io_ret JNull
   else find_user_id data)%io.

(** [requests.get(url)] for a media file: anything that is not a string
    is turned into text that is no URL ([None] becomes "None"), and the
    call raises [MissingSchema] or another [RequestException]. *)
Definition media_reply (w : world) (url : json) : http_reply :=
  match url with
  | JStr u => fetch w u
  | _ => NoResponse (url_error w url)
  end.

Definition download_media (w : world) (url : json) (file_name : string)
    (kind : string) : M unit :=
  (record_call (DownloadMedia url file_name kind) ;;;
   if String.eqb kind "photo" then
     try_except
       (response <- lift (requests_get (media_reply w url)) ;;
        lift (raise_for_status response) ;;;
        write_file w file_name (Bytes (content response)))
       is_RequestException
       (fun e => logging (DownloadFailed url e))
   else if String.eqb kind "video" then
     try_except
       (match ytdlp w url file_name with
        | Some bytes =>
            (fun s => (Ok tt, {| log := log s; stdout := stdout s; dirs := dirs s;
                                 files := <[file_name := Bytes bytes]> (files s);
                                 calls := calls s |})) ;;;
            logging (VideoDownloaded file_name)
        | None => io_raise (OtherError "yt_dlp")
        end)
       is_Exception
       (fun e => logging (VideoFailed e))
   else io_ret tt)%io.

(** *** [int(s)] on a command-line argument *)

(** [int] of a [str] reads the characters, so the bytes of the argument
    are decoded first.  One code point from its UTF-8 bytes: the
    shortest form only, no surrogate, nothing above U+10FFFF.  Bytes that
    are no UTF-8 reach the program as characters that are neither digits
    nor blanks. *)
Definition code_point (p : string) : option N :=
  (let cont (b : N) : bool := (128 <=? b) && (b <? 192) in
   match map N_of_ascii (list_ascii_of_string p) with
   | [a] => if a <? 128 then Some a else None
   | [a; b] =>
       if (0xc2 <=? a) && (a <=? 0xdf) && cont b
       then Some ((a - 0xc0) * 64 + (b - 128))
       else None
   | [a; b; c] =>
       let n := (a - 0xe0) * 4096 + (b - 128) * 64 + (c - 128) in
       if (0xe0 <=? a) && (a <=? 0xef) && cont b && cont c
          && (0x800 <=? n) && negb ((0xd800 <=? n) && (n <=? 0xdfff))
       then Some n
       else None
   | [a; b; c; d] =>
       let n := (a - 0xf0) * 262144 + (b - 128) * 4096 + (c - 128) * 64
                + (d - 128) in
       if (0xf0 <=? a) && (a <=? 0xf4) && cont b && cont c && cont d
          && (0x10000 <=? n) && (n <=? 0x10ffff)
       then Some n
       else None
   | _ => None
   end)%N.

(** The blanks above U+007F. *)
Definition unicode_space (n : N) : bool :=
  (existsb (N.eqb n) [0x85; 0xa0; 0x1680; 0x2028; 0x2029; 0x202f; 0x205f; 0x3000]
   || (0x2000 <=? n) && (n <=? 0x200a))%N.

(** The decimal digits above U+007F: the digit zero of every script
    that has decimal digits (Unicode 14, the tables of CPython 3.11); the
    digits one to nine follow their zero. *)
Definition decimal_zeros : list N :=
  [0x660; 0x6f0; 0x7c0; 0x966; 0x9e6; 0xa66; 0xae6; 0xb66;
   0xbe6; 0xc66; 0xce6; 0xd66; 0xde6; 0xe50; 0xed0; 0xf20;
   0x1040; 0x1090; 0x17e0; 0x1810; 0x1946; 0x19d0; 0x1a80; 0x1a90;
   0x1b50; 0x1bb0; 0x1c40; 0x1c50; 0xa620; 0xa8d0; 0xa900; 0xa9d0;
   0xa9f0; 0xaa50; 0xabf0; 0xff10; 0x104a0; 0x10d30; 0x11066; 0x110f0;
   0x11136; 0x111d0; 0x112f0; 0x11450; 0x114d0; 0x11650; 0x116c0; 0x11730;
   0x118e0; 0x11950; 0x11c50; 0x11d50; 0x11da0; 0x16a60; 0x16ac0; 0x16b50;
   0x1d7ce; 0x1d7d8; 0x1d7e2; 0x1d7ec; 0x1d7f6; 0x1e140; 0x1e2f0; 0x1e950;
   0x1fbf0]%N.

Definition unicode_decimal (n : N) : option N :=
  match List.find (fun z => (z <=? n) && (n <? z + 10))%N decimal_zeros with
  | Some z => Some (n - z)%N
  | None => None
  end.

(** What [int] reads a character as: an ASCII character is itself, a
    blank is a space and a decimal digit is its ASCII digit; any other
    character makes the whole text invalid. *)
Definition int_char (p : string) : option ascii :=
  match code_point p with
  | Some n =>
      if (n <? 128)%N then Some (ascii_of_N n)
      else if unicode_space n then Some " "%char
      else match unicode_decimal n with
           | Some d => Some (ascii_of_N (48 + d))
           | None => None
           end
  | None => None
  end.

Fixpoint int_text (ps : list string) : option string :=
  match ps with
  | [] => Some EmptyString
  | p :: rest =>
      match int_char p, int_text rest with
      | Some c, Some t => Some (String c t)
      | _, _ => None
      end
  end.

(** The blanks of the parser: tab, line feed, vertical tab, form feed,
    carriage return and space. *)
Definition is_space (c : ascii) : bool :=
  let n := nat_of_ascii c in
  ((9 <=? n) && (n <=? 13) || (n =? 32))%nat.

Definition digit_of (c : ascii) : option Z :=
  let n := nat_of_ascii c in
  if ((48 <=? n) && (n <=? 57))%nat then Some (Z.of_nat n - 48) else None.

Fixpoint lstrip (s : string) : string :=
  match s with
  | String c rest => if is_space c then lstrip rest else s
  | EmptyString => s
  end.

(** Digits with single underscores between them; [after_digit] tells
    whether the previous character was a digit, [acc] is the value so
    far.  Trailing blanks are allowed. *)
Fixpoint digits (s : string) (after_digit : bool) (acc : Z) : option Z :=
  match s with
  | EmptyString => if after_digit then Some acc else None
  | String c rest =>
      match digit_of c with
      | Some d => digits rest true (10 * acc + d)
      | None =>
          if Ascii.eqb c "_" then
            (if after_digit
             then match rest with
                  | String c' _ =>
                      match digit_of c' with
                      | Some _ => digits rest false acc
                      | None => None
                      end
                  | EmptyString => None
                  end
             else None)
          else if after_digit && String.eqb (lstrip s) "" then Some acc
          else None
      end
  end.

(** The number of digits, which [int] limits (since CPython 3.11) to
    [sys.int_info.default_max_str_digits]. *)
Fixpoint count_digits (s : string) : N :=
  match s with
  | EmptyString => 0
  | String c rest =>
      match digit_of c with
      | Some _ => N.succ (count_digits rest)
      | None => count_digits rest
      end
  end%N.

Definition max_str_digits : N := 4300.

(** Blanks, a sign, digits, blanks. *)
Definition signed_digits (t : string) : option Z :=
  let body := lstrip t in
  match body with
  | String "-" rest => option_map Z.opp (digits rest false 0)
  | String "+" rest => digits rest false 0
  | _ => digits body false 0
  end.

(** [int(s)]: [ValueError] for a text that is no integer, and for one of
    more than [max_str_digits] digits. *)
Definition py_int (s : string) : outcome Z :=
  match int_text (code_points s) with
  | None => Raise ValueError
  | Some t =>
      match signed_digits t with
      | Some z =>
          if (max_str_digits <? count_digits t)%N then Raise ValueError else Ok z
      | None => Raise ValueError
      end
  end.

(** [sys.argv[i]] *)
Definition argv_at (argv : list string) (i : nat) : outcome string :=
  match nth_error argv i with
  | Some a => Ok a
  | None => Raise (IndexError "list index out of range")
  end.

Definition among (s : string) (options : list string) : bool :=
  existsb (String.eqb s) options.

(** *** [main] *)

Definition usage : list string :=
  ["Usage: python main.py --username <username> [--count <count>]";
   "       python main.py -u <username> [-c <count>]";
   "Options:";
   "  --username, -u <username>  Specify the Twitter username to scrape media from.";
   "  --count, -c <count>        Specify the number of media items to download (default is 5)."].

Fixpoint print_all (lines : list string) : M unit :=
  match lines with
  | [] => io_ret tt
  | l :: rest => (print l ;;; print_all rest)%io
  end.

(** A record as the dictionary that is appended to [final_data]. *)
Definition record_json (r : MediaRecord) : json :=
  JDict [("id", JInt (id r)); ("created_at", created_at r); ("text", text r);
         ("media_type", media_type r); ("media_url", media_url r)].

(** Lines 194-198, one iteration. *)
Definition download_one (w : world) (photo_folder video_folder : string)
    (data : MediaRecord) : M unit :=
  if py_eq (media_type data) (JStr "photo") then
    download_media w (media_url data)
      (photo_folder +:+ "/" +:+ str_of_Z (id data) +:+ ".jpg") "photo"
  else if py_eq (media_type data) (JStr "video") then
    download_media w (media_url data)
      (video_folder +:+ "/video_" +:+ str_of_Z (id data) +:+ ".mp4") "video"
  else io_ret tt.

Fixpoint download_all (w : world) (photo_folder video_folder : string)
    (datas : list MediaRecord) : M unit :=
  match datas with
  | [] => io_ret tt
  | data :: rest =>
      (download_one w photo_folder video_folder data ;;;
       download_all w photo_folder video_folder rest)%io
  end.

(** Lines 186-201: what [main] does once the records are listed. *)
Definition save_media (w : world) (username : string)
    (datas : list MediaRecord) : M unit :=
  (let media_folder := "medias/" +:+ username in
   os_makedirs w media_folder ;;;
   let photo_folder := media_folder +:+ "/photos" in
   let video_folder := media_folder +:+ "/videos" in
   os_makedirs w photo_folder ;;;
   os_makedirs w video_folder ;;;
   download_all w photo_folder video_folder datas ;;;
   write_file w (media_folder +:+ "/data.json")
     (JsonDump (JList (map record_json datas))))%io.

(** Lines 170-176: the count, 5 unless a count flag follows. *)
Definition parse_count (argv : list string) : M Z :=
  if (3 <? length argv)%nat
     && match nth_error argv 3 with
        | Some flag => among flag ["--count"; "-c"]
        | None => false
        end
  then
    try_except
      (lift (a <- argv_at argv 4 ;; py_int a)%py)
      (fun e => match e with ValueError | IndexError _ => true | _ => false end)
      (fun _ => logging CountNotInteger ;;; sys_exit 1)%io
  else io_ret 5.

Definition main (w : world) (argv : list string) : M unit :=
  (if (length argv <? 3)%nat
      || negb match nth_error argv 1 with
              | Some flag => among flag ["--username"; "-u"]
              | None => false
              end
   then print_all usage ;;; sys_exit 1
   else
     username <- lift (argv_at argv 2) ;;
     count <- parse_count argv ;;
     user_id <- get_user_id w username ;;
     match user_id with
     | JNull => sys_exit 1
     | _ =>
         datas <- get_user_media w user_id count ;;
         match datas with
         | None => sys_exit 1
         | Some datas => save_media w username datas
         end
     end)%io.

(** The exit status of the process: 0 at the end of [main], the code
    given to [sys.exit], and 1 after an uncaught exception. *)
Definition exit_code {A} (r : outcome A) : Z :=
  match r with
  | Ok _ => 0
  | Raise (SystemExit code) => code
  | Raise _ => 1
  end.

Definition initial : state :=
  {| log := []; stdout := []; dirs := ∅; files := ∅; calls := [] |}.

(** ** The documented shape of a response *)

(** Reading a document the way the specification describes it: a field
    of an object, an element of an array, nothing otherwise. *)
Definition field (k : string) (j : json) : option json :=
  match j with
  | JDict kv => dict_lookup k kv
  | _ => None
  end.

Definition step (k : pykey) (j : json) : option json :=
  match k, j with
  | Key s, JDict kv => dict_lookup s kv
  | Idx i, JList l => nth_error l i
  | _, _ => None
  end.

Fixpoint lookup_path (path : list pykey) (j : json) : option json :=
  match path with
  | [] => Some j
  | k :: rest =>
      match step k j with
      | Some v => lookup_path rest v
      | None => None
      end
  end.

(** The path is absent at some segment: the objects and arrays before it
    are there, and the next key or index is missing from the one reached. *)
Fixpoint absent_at (path : list pykey) (j : json) : bool :=
  match path with
  | [] => false
  | k :: rest =>
      match k, j with
      | Key s, JDict kv =>
          match dict_lookup s kv with
          | Some v => absent_at rest v
          | None => true
          end
      | Idx i, JList l =>
          match nth_error l i with
          | Some v => absent_at rest v
          | None => true
          end
      | _, _ => false
      end
  end.

Definition keys (names : list string) : list pykey := map Key names.

Definition is_dict (j : json) : bool :=
  match j with
  | JDict _ => true
  | _ => false
  end.

(** Absent, or an object. *)
Definition opt_dict (o : option json) : bool :=
  match o with
  | None => true
  | Some j => is_dict j
  end.

Definition or_else (d : json) (o : option json) : json :=
  match o with
  | Some j => j
  | None => d
  end.

Definition or_null : option json -> json := or_else JNull.

(** The object the chained [.get(k, {})] calls reach. *)
Fixpoint descend (names : list string) (j : json) : json :=
  match names with
  | [] => j
  | k :: rest => descend rest (or_else empty_dict (field k j))
  end.

Definition is_str (s : string) (o : option json) : bool :=
  match o with
  | Some (JStr t) => String.eqb t s
  | _ => false
  end.

(** The per-entry fields. *)
Definition entry_type (entry : json) : option json :=
  lookup_path (keys ["content"; "entryType"]) entry.

Definition result_path : list string :=
  ["content"; "itemContent"; "tweet_results"; "result"].

Definition tweet_legacy (entry : json) (k : string) : option json :=
  lookup_path (keys (result_path ++ ["legacy"; k])) entry.

Definition media_list (entry : json) : list json :=
  match lookup_path (keys (result_path ++ ["legacy"; "extended_entities"; "media"])) entry with
  | Some (JList l) => l
  | _ => []
  end.

Definition first_media (entry : json) : option json := hd_error (media_list entry).

(** A qualifying entry: the entry-type tag is "TimelineTimelineItem" and
    the tweet result has a non-empty extended-entities media list. *)
Definition qualifying (entry : json) : bool :=
  is_str "TimelineTimelineItem" (entry_type entry)
  && match media_list entry with [] => false | _ => true end.

(** The variants of a media entity, and what a variant declares. *)
Definition variants_of (media0 : json) : list json :=
  match lookup_path (keys ["video_info"; "variants"]) media0 with
  | Some (JList vs) => vs
  | _ => []
  end.

Definition is_mp4 (v : json) : bool := is_str "video/mp4" (field "content_type" v).

(** The bitrate of a variant, an absent one counting as 0. *)
Definition bitrate_of (v : json) : Z :=
  match field "bitrate" v with
  | Some (JInt z) => z
  | _ => 0
  end.

Definition int_or_absent (o : option json) : bool :=
  match o with
  | None | Some (JInt _) => true
  | _ => false
  end.

(** A variant as documented: an object that declares its content type
    and, when that is mp4, has a URL and an integer bitrate or none. *)
Definition variant_ok (v : json) : bool :=
  match field "content_type" v with
  | None => false
  | Some _ =>
      negb (is_mp4 v)
      || (match field "url" v with Some _ => true | None => false end
          && int_or_absent (field "bitrate" v))
  end.

Definition variants_ok (o : option json) : bool :=
  match o with
  | None => true
  | Some (JList vs) => forallb variant_ok vs
  | Some _ => false
  end.

Definition media0_ok (media0 : json) : bool :=
  is_dict media0
  && (negb (is_str "video" (field "type" media0))
      || opt_dict (field "video_info" media0)
         && variants_ok (lookup_path (keys ["video_info"; "variants"]) media0)).

Definition media_ok (o : option json) : bool :=
  match o with
  | None => true
  | Some (JList []) => true
  | Some (JList (media0 :: _)) => media0_ok media0
  | Some _ => false
  end.

Definition prefix_ok (names : list string) (entry : json) : bool :=
  opt_dict (lookup_path (keys names) entry).

(** An entry of the documented shape: every object on the way to the
    media list is an object when it is there, the media list is a list,
    and the first media entity of a video has variants as above. *)
Definition conforms (entry : json) : bool :=
  is_dict entry
  && prefix_ok ["content"] entry
  && (negb (is_str "TimelineTimelineItem" (entry_type entry))
      || prefix_ok ["content"; "itemContent"] entry
         && prefix_ok ["content"; "itemContent"; "tweet_results"] entry
         && prefix_ok result_path entry
         && prefix_ok (result_path ++ ["legacy"]) entry
         && prefix_ok (result_path ++ ["legacy"; "extended_entities"]) entry
         && media_ok (lookup_path
                        (keys (result_path ++ ["legacy"; "extended_entities"; "media"]))
                        entry)).

(** The download calls the loop of [main] makes for one record. *)
Definition attempt_of (photo_folder video_folder : string) (r : MediaRecord)
    : list call :=
  if is_str "photo" (Some (media_type r)) then
    [DownloadMedia (media_url r)
       (photo_folder +:+ "/" +:+ str_of_Z (id r) +:+ ".jpg") "photo"]
  else if is_str "video" (Some (media_type r)) then
    [DownloadMedia (media_url r)
       (video_folder +:+ "/video_" +:+ str_of_Z (id r) +:+ ".mp4") "video"]
  else [].

(** The command line that [main] accepts: a username flag, the username
    and a count that parses. *)
Definition parsed (argv : list string) (username : string) (count : Z) : Prop :=
  (exists flag, nth_error argv 1 = Some flag
                /\ among flag ["--username"; "-u"] = true)
  /\ nth_error argv 2 = Some username
  /\ forall st, parse_count argv st = (Ok count, st).

(** A reply of status 200 whose body decodes to [data]. *)
Definition replies_200 (reply : http_reply) (data : json) : Prop :=
  exists r, reply = Got r /\ status_code r = 200 /\ decoded r = Body data.

(** The URL chosen among [variants]: none when no variant is mp4,
    otherwise the URL of the first mp4 variant of maximum bitrate. *)
Definition chosen_url (variants : list json) (url : json) : Prop :=
  match List.filter is_mp4 variants with
  | [] => url = JNull
  | mp4 =>
      exists v l1 l2,
        mp4 = (l1 ++ v :: l2)%list
        /\ field "url" v = Some url
        /\ Forall (fun x => bitrate_of x < bitrate_of v) l1
        /\ Forall (fun x => bitrate_of x <= bitrate_of v) l2
  end.

(** A record that was made from an entry: its timestamp, text and media
    type are the entry's. *)
Definition record_of_entry (entry : json) (r : MediaRecord) : Prop :=
  created_at r = or_null (tweet_legacy entry "created_at")
  /\ text r = or_null (tweet_legacy entry "full_text")
  /\ exists media0, first_media entry = Some media0
                    /\ media_type r = or_null (field "type" media0).

(** The state after one more call was recorded, one more line logged. *)
Definition called (c : call) (s : state) : state := snd (record_call c s).
Definition logged (l : log_entry) (s : state) : state := snd (logging l s).

(** The seven fields on the way from an entry to its media list. *)
Definition media_path_names : list string :=
  result_path ++ ["legacy"; "extended_entities"; "media"].

(** An mp4 variant the selection can read: an object with a URL and an
    integer bitrate or none. *)
Definition mp4_ok (v : json) : bool :=
  is_dict v
  && match field "url" v with Some _ => true | None => false end
  && int_or_absent (field "bitrate" v).


(** The body reaches the entries, and one of them lacks a field on the
    way to its media list. *)
Definition entry_field_absent (data : json) : Prop :=
  exists entries entry,
    lookup_path media_path data = Some (JList entries)
    /\ In entry entries
    /\ absent_at (keys media_path_names) entry = true.

(** Every record of every manifest in the file system has a
    [download_media] call for its URL among the calls made. *)
Definition manifest_records_attempted (st : state) : Prop :=
  forall path recs r,
    files st !! path = Some (JsonDump (JList (map record_json recs))) ->
    In r recs ->
    exists file_name kind, In (DownloadMedia (media_url r) file_name kind) (calls st).

(** A computation that only adds to the record of calls. *)
Definition appends_calls {A} (m : M A) : Prop :=
  forall st, exists cs, calls (snd (m st)) = (calls st ++ cs)%list.

(** ** Concrete documents and environments *)

Module Scenario.

Definition variant (content_type : string) (bitrate : Z) (url : string) : json :=
  JDict [("bitrate", JInt bitrate); ("content_type", JStr content_type);
         ("url", JStr url)].

(** The variant list of the specification's example. *)
Definition spec_variants : list json :=
  [variant "video/mp4" 500 "https://video.example/500.mp4";
   variant "video/mp4" 1200 "https://video.example/1200.mp4";
   variant "video/webm" 2000 "https://video.example/2000.webm"].

Definition tweet (created text : string) (media0 : json) : json :=
  JDict [("entryId", JStr "tweet");
         ("content",
          JDict [("entryType", JStr "TimelineTimelineItem");
                 ("itemContent",
                  JDict [("tweet_results",
                          JDict [("result",
                                  JDict [("legacy",
                                          JDict [("created_at", JStr created);
                                                 ("full_text", JStr text);
                                                 ("extended_entities",
                                                  JDict [("media", JList [media0])])])])])])])].

Definition photo_media : json :=
  JDict [("type", JStr "photo");
         ("media_url_https", JStr "https://photo.example/a.jpg")].

Definition video_media : json :=
  JDict [("type", JStr "video");
         ("video_info", JDict [("variants", JList spec_variants)])].


Definition gif_media : json :=
  JDict [("type", JStr "animated_gif");
         ("video_info",
          JDict [("variants",
                  JList [variant "video/mp4" 0 "https://video.example/g.mp4"])])].

Definition photo_entry : json := tweet "Mon Jan 01" "a photo" photo_media.
Definition video_entry : json := tweet "Tue Jan 02" "a video" video_media.
Definition gif_entry : json := tweet "Wed Jan 03" "a gif" gif_media.

(** A timeline entry that is no post. *)
Definition cursor_entry : json :=
  JDict [("entryId", JStr "cursor-top");
         ("content", JDict [("entryType", JStr "TimelineTimelineCursor")])].

(** An entry without any of the per-entry fields. *)
Definition bare_entry : json := JDict [("entryId", JStr "bare")].

Definition timeline (entries : list json) : json :=
  JDict [("result",
          JDict [("timeline",
                  JDict [("instructions",
                          JList [JDict [("type", JStr "TimelineClearCache")];
                                 JDict [("type", JStr "TimelineAddEntries");
                                        ("entries", JList entries)]])])])].

Definition user_body : json :=
  JDict [("result",
          JDict [("data",
                  JDict [("user", JDict [("result", JDict [("rest_id", JStr "42")])])])])].

(** A body with [result] but nothing below it. *)
Definition stub_body : json := JDict [("result", JDict [])].

Definition ok_response (body : json) : response :=
  {| status_code := 200; content := "";
     decoded := Body body; error_text := "" |}.

Definition not_found : response :=
  {| status_code := 404; content := "Not Found";
     decoded := JSONDecodeError "Expecting value: line 1 column 1 (char 0)";
     error_text := "404 Client Error: Not Found for url" |}.

(** What [requests] says of the URL [None]. *)
Definition no_scheme : string :=
  "Invalid URL 'None': No scheme supplied. Perhaps you meant https://None?".

(** A mocked API that answers both endpoints, media hosts that serve
    every URL, a working extractor and a writable disk. *)
Definition mock (user media : json) : world :=
  {| api := fun endpoint _ =>
              if String.eqb endpoint "user"
              then Got (ok_response user)
              else Got (ok_response media);
     fetch := fun _ => Got {| status_code := 200; content := "JPEG";
                              decoded := JSONDecodeError "not JSON";
                              error_text := "" |};
     url_error := fun _ => no_scheme;
     ytdlp := fun url _ => match url with JStr _ => Some "MP4" | _ => None end;
     makedirs_ok := fun _ => true;
     open_ok := fun _ => true |}.

(** The same, with a vendor that answers 404 to everything. *)
Definition vendor_404 : world :=
  {| api := fun _ _ => Got not_found;
     fetch := fetch (mock user_body (timeline []));
     url_error := fun _ => no_scheme;
     ytdlp := ytdlp (mock user_body (timeline []));
     makedirs_ok := fun _ => true;
     open_ok := fun _ => true |}.

(** A vendor that does not know the user [name]. *)
Definition without_user (name : string) (w : world) : world :=
  {| api := fun endpoint params =>
              match params with
              | [(_, JStr u)] =>
                  if String.eqb endpoint "user" && String.eqb u name
                  then Got not_found
                  else api w endpoint params
              | _ => api w endpoint params
              end;
     fetch := fetch w;
     url_error := url_error w;
     ytdlp := ytdlp w;
     makedirs_ok := makedirs_ok w;
     open_ok := open_ok w |}.

(** The same, with a vendor that cannot be reached. *)
Definition vendor_down : world :=
  {| api := fun _ _ => NoResponse "Connection refused";
     fetch := fetch (mock user_body (timeline []));
     url_error := fun _ => no_scheme;
     ytdlp := ytdlp (mock user_body (timeline []));
     makedirs_ok := fun _ => true;
     open_ok := fun _ => true |}.

(** The count 12 written with the fullwidth digits U+FF11 and U+FF12,
    and the digit 5 after the control character U+001C. *)
Definition fullwidth_12 : string :=
  String "239" (String "188" (String "145"
    (String "239" (String "188" (String "146" EmptyString))))).

Definition separator_5 : string := String "028" "5".

Definition argv_alice (count : string) : list string :=
  ["main.py"; "-u"; "alice"; "-c"; count].

Definition photo_record (n : Z) : MediaRecord :=
  {| id := n; created_at := JStr "Mon Jan 01"; text := JStr "a photo";
     media_type := JStr "photo"; media_url := JNull |}.

Definition video_record (n : Z) : MediaRecord :=
  {| id := n; created_at := JStr "Tue Jan 02"; text := JStr "a video";
     media_type := JStr "video";
     media_url := JStr "https://video.example/1200.mp4" |}.

Definition gif_record (n : Z) : MediaRecord :=
  {| id := n; created_at := JStr "Wed Jan 03"; text := JStr "a gif";
     media_type := JStr "animated_gif"; media_url := JNull |}.

End Scenario.

(** ** Further notions for the properties of the whole program *)

(** The state with more standard output. *)
Definition printed (lines : list string) (s : state) : state :=
  {| log := log s; stdout := (stdout s ++ lines)%list; dirs := dirs s;
     files := files s; calls := calls s |}.

(** The username flag is there and is followed by a username. *)
Definition username_given (argv : list string) (username : string) : Prop :=
  (exists flag, nth_error argv 1 = Some flag
                /\ among flag ["--username"; "-u"] = true)
  /\ nth_error argv 2 = Some username.

(** A count flag follows the username. *)
Definition count_flag_given (argv : list string) : bool :=
  match nth_error argv 3 with
  | Some flag => among flag ["--count"; "-c"]
  | None => false
  end.

(** The decoder itself fails on the body of the response. *)
Definition decoder_fails (r : response) : bool :=
  match decoded r with
  | TooManyDigits | TooDeep => true
  | _ => false
  end.

(** A variant that declares a content type. *)
Definition declares_type (v : json) : bool :=
  match field "content_type" v with
  | Some _ => true
  | None => false
  end.

(** A computation whose every step keeps a relation between the state
    before and the state after. *)
Definition respects (R : state -> state -> Prop) {A} (m : M A) : Prop :=
  forall st, R st (snd (m st)).

(** The file system is as it was. *)
Definition same_fs (st st' : state) : Prop :=
  dirs st' = dirs st /\ files st' = files st.

(** Only the files in [W] may differ. *)
Definition touches_only (W : string -> Prop) (st st' : state) : Prop :=
  forall path, ~ W path -> files st' !! path = files st !! path.

(** A computation that ends the process only with exit status 1: what it
    raises is [SystemExit(1)] or an ordinary exception. *)
Definition exits_with_1 {A} (m : M A) : Prop :=
  forall st e, fst (m st) = Raise e -> e = SystemExit 1 \/ is_Exception e = true.

(** The effects [s] of a run that started from nothing, added to [st]. *)
Definition merge (st s : state) : state :=
  {| log := (log st ++ log s)%list; stdout := (stdout st ++ stdout s)%list;
     dirs := dirs st ∪ dirs s; files := files s ∪ files st;
     calls := (calls st ++ calls s)%list |}.

(** A computation that never looks at the state: from any state it gives
    the result it gives from the initial state, and adds the same
    effects. *)
Definition framed {A} (m : M A) : Prop :=
  forall st, m st = (fst (m initial), merge st (snd (m initial))).

(** The state with more directories, with one more file. *)
Definition made_dirs (ds : gset string) (s : state) : state :=
  {| log := log s; stdout := stdout s; dirs := dirs s ∪ ds;
     files := files s; calls := calls s |}.

Definition written (path : string) (data : file_content) (s : state) : state :=
  {| log := log s; stdout := stdout s; dirs := dirs s;
     files := <[path := data]> (files s); calls := calls s |}.

(** A result that is no [SystemExit]. *)
Definition ordinary {A} (o : outcome A) : Prop :=
  forall e, o = Raise e -> is_Exception e = true.

(** The records the lister can return: only a video has a URL. *)
Definition url_only_for_video (r : MediaRecord) : Prop :=
  media_type r <> JStr "video" -> media_url r = JNull.

(** The path of the video file of the record with id [n]. *)
Definition video_path (username : string) (n : Z) : string :=
  (("medias/" +:+ username) +:+ "/videos") +:+ "/video_" +:+ str_of_Z n +:+ ".mp4".

Definition manifest_path (username : string) : string :=
  ("medias/" +:+ username) +:+ "/data.json".

(** The files of [username] that [main] may write: the manifest and the
    videos. *)
Definition output_path (username path : string) : Prop :=
  path = manifest_path username \/ exists n : Z, path = video_path username n.

(** The files named by the download calls among [cs]. *)
Definition download_files (cs : list call) : list string :=
  flat_map (fun c => match c with
                     | DownloadMedia _ file_name _ => [file_name]
                     | _ => []
                     end) cs.

(** ** Proof steps *)

(** One step through a chain of [.get] calls: [H] says that the chain
    returned, so its first call did, and [inv] tells what it returned. *)
Ltac step_get inv H :=
  match type of H with
  | obind (py_get ?j ?k ?d) _ = _ =>
      let E := fresh "E" in
      let D := fresh "D" in
      destruct (py_get j k d) eqn:E;
      [apply inv in E as [D ->]; cbn [obind] in H | discriminate H]
  end.

Create HintDb appends.

Local Open Scope list_scope.
Import Scenario.

(** ** Facts about the Python operations *)

Lemma py_eq_str (a : json) (s : string) : py_eq a (JStr s) = is_str s (Some a).
Proof.
  destruct a as [| b | z | f | t | xs | kv]; reflexivity.
Qed.

Lemma is_str_eq (s : string) (o : option json) :
  is_str s o = true <-> o = Some (JStr s).
Proof.
  unfold is_str. split.
  - destruct o as [[| | | | t | |] |]; try discriminate.
    intros H. apply String.eqb_eq in H. now subst.
  - intros ->. apply String.eqb_refl.
Qed.

Lemma py_get_dict (j : json) (k : string) (d : json) :
  is_dict j = true -> py_get j k d = Ok (or_else d (field k j)).
Proof.
  destruct j; try discriminate. intros _. simpl.
  now destruct (dict_lookup k fields).
Qed.

Lemma py_get_Ok (j : json) (k : string) (d v : json) :
  py_get j k d = Ok v -> is_dict j = true /\ v = or_else d (field k j).
Proof.
  destruct j; try discriminate. simpl.
  destruct (dict_lookup k fields); intros [= <-]; auto.
Qed.

Lemma step_key (k : string) (j : json) : step (Key k) j = field k j.
Proof. now destruct j. Qed.

Lemma descend_empty (names : list string) : descend names empty_dict = empty_dict.
Proof. induction names as [| k rest IH]; simpl; auto. Qed.

Lemma lookup_path_empty (names : list string) (k : string) :
  lookup_path (keys (names ++ [k])) empty_dict = None.
Proof. destruct names; reflexivity. Qed.

Lemma lookup_path_key (n : string) (p : list pykey) (j : json) :
  lookup_path (Key n :: p) j
  = match field n j with Some v => lookup_path p v | None => None end.
Proof. now destruct j. Qed.

Lemma field_descend (names : list string) (k : string) (j : json) :
  field k (descend names j) = lookup_path (keys (names ++ [k])) j.
Proof.
  revert j. induction names as [| n rest IH]; intros j.
  - cbn [descend app keys map]. rewrite lookup_path_key.
    now destruct (field k j).
  - cbn [descend app keys map]. rewrite lookup_path_key.
    destruct (field n j) as [v |]; cbn [or_else].
    + apply IH.
    + rewrite descend_empty. reflexivity.
Qed.

Lemma descend_snoc (names : list string) (k : string) (j : json) :
  descend (names ++ [k]) j = or_else empty_dict (field k (descend names j)).
Proof.
  revert j. induction names as [| n rest IH]; intros j; simpl; auto.
Qed.

Lemma is_dict_descend (names : list string) (k : string) (j : json) :
  prefix_ok (names ++ [k]) j = true -> is_dict (descend (names ++ [k]) j) = true.
Proof.
  unfold prefix_ok. rewrite descend_snoc, <- field_descend.
  now destruct (field k (descend names j)).
Qed.

(** One [.get(k, {})] of the chain. *)
Lemma py_get_descend (names : list string) (k : string) (j : json) :
  is_dict (descend names j) = true ->
  py_get (descend names j) k empty_dict = Ok (descend (names ++ [k]) j).
Proof.
  intros H. rewrite descend_snoc. now apply py_get_dict.
Qed.

Lemma py_get_first (k : string) (j : json) :
  is_dict j = true -> py_get j k empty_dict = Ok (descend [k] j).
Proof. exact (py_get_descend [] k j). Qed.

Lemma is_dict_first (k : string) (j : json) :
  opt_dict (field k j) = true -> is_dict (descend [k] j) = true.
Proof. cbn [descend]. now destruct (field k j). Qed.

(** ** The choice of a video URL *)

Lemma Qcompare_inject_Z (a b : Z) : (inject_Z a ?= inject_Z b)%Q = (a ?= b).
Proof. unfold Qcompare. simpl. now rewrite !Z.mul_1_r. Qed.

Lemma py_gt_int (a b : Z) : py_gt (JInt a) (JInt b) = Ok (b <? a).
Proof.
  simpl. rewrite Qcompare_inject_Z. f_equal.
  rewrite Z.ltb_compare, (Z.compare_antisym b a).
  now destruct (b ?= a).
Qed.

Lemma bitrate_key_int (v : json) :
  is_dict v = true ->
  int_or_absent (field "bitrate" v) = true ->
  bitrate_key v = Ok (JInt (bitrate_of v)).
Proof.
  unfold bitrate_key, bitrate_of. intros Hd Hb.
  rewrite py_get_dict by assumption.
  destruct (field "bitrate" v) as [[] |]; try discriminate; reflexivity.
Qed.

Lemma bitrate_key_ok (v : json) :
  mp4_ok v = true -> bitrate_key v = Ok (JInt (bitrate_of v)).
Proof.
  unfold mp4_ok. intros H.
  apply andb_prop in H as [H Hb]. apply andb_prop in H as [Hd _].
  now apply bitrate_key_int.
Qed.

Lemma max_from_first (rest before after : list json) (best : json) :
  Forall (fun x => bitrate_key x = Ok (JInt (bitrate_of x))) rest ->
  Forall (fun x => bitrate_of x < bitrate_of best) before ->
  Forall (fun x => bitrate_of x <= bitrate_of best) after ->
  exists v l1 l2,
    max_from bitrate_key best (JInt (bitrate_of best)) rest = Ok v
    /\ before ++ best :: after ++ rest = l1 ++ v :: l2
    /\ Forall (fun x => bitrate_of x < bitrate_of v) l1
    /\ Forall (fun x => bitrate_of x <= bitrate_of v) l2.
Proof.
  revert before after best.
  induction rest as [| y rest IH]; intros before after best Hok Hb Ha.
  - exists best, before, after. rewrite app_nil_r. simpl. auto.
  - apply List.Forall_cons_iff in Hok as [Hy Hok].
    cbn [max_from]. rewrite Hy. cbn [obind].
    rewrite py_gt_int. cbn [obind].
    destruct (Z.ltb_spec (bitrate_of best) (bitrate_of y)) as [Hlt | Hge].
    + destruct (IH (before ++ best :: after) [] y Hok) as (v & l1 & l2 & Hm & Hs & H1 & H2).
      * apply Forall_app. split.
        -- eapply List.Forall_impl; [| exact Hb]. simpl. intros; lia.
        -- constructor; [lia |]. eapply List.Forall_impl; [| exact Ha]. simpl. intros; lia.
      * constructor.
      * exists v, l1, l2. repeat split; auto.
        rewrite <- Hs. simpl. rewrite <- !app_assoc. reflexivity.
    + destruct (IH before (after ++ [y]) best Hok Hb) as (v & l1 & l2 & Hm & Hs & H1 & H2).
      * apply Forall_app. split; auto.
      * exists v, l1, l2. repeat split; auto.
        rewrite <- Hs. rewrite <- !app_assoc. reflexivity.
Qed.

Lemma py_max_first (items : list json) :
  items <> [] ->
  Forall (fun x => bitrate_key x = Ok (JInt (bitrate_of x))) items ->
  exists v l1 l2,
    py_max bitrate_key items = Ok v
    /\ items = l1 ++ v :: l2
    /\ Forall (fun x => bitrate_of x < bitrate_of v) l1
    /\ Forall (fun x => bitrate_of x <= bitrate_of v) l2.
Proof.
  destruct items as [| x rest]; [congruence |]. intros _ Hok.
  apply List.Forall_cons_iff in Hok as [Hx Hok].
  cbn [py_max]. rewrite Hx. cbn [obind].
  apply (max_from_first rest [] [] x Hok); constructor.
Qed.

Lemma mp4_ok_bitrates (items : list json) :
  forallb mp4_ok items = true ->
  Forall (fun x => bitrate_key x = Ok (JInt (bitrate_of x))) items.
Proof.
  intros H. apply List.Forall_forall. intros x Hx.
  apply bitrate_key_ok. now apply (forallb_forall mp4_ok items).
Qed.

Lemma filter_mp4_ok (vs : list json) :
  forallb variant_ok vs = true ->
  filter_mp4 vs = Ok (List.filter is_mp4 vs).
Proof.
  induction vs as [| v rest IH]; simpl; [reflexivity |].
  intros H. apply andb_prop in H as [Hv Hrest]. rewrite (IH Hrest). simpl.
  unfold variant_ok in Hv. unfold is_mp4.
  destruct v; simpl in *; try discriminate.
  destruct (dict_lookup "content_type" fields) as [ct |]; [| discriminate].
  simpl. now rewrite py_eq_str.
Qed.

Lemma filter_mp4_all_ok (vs : list json) :
  forallb variant_ok vs = true -> forallb mp4_ok (List.filter is_mp4 vs) = true.
Proof.
  induction vs as [| v rest IH]; simpl; [reflexivity |].
  intros H. apply andb_prop in H as [Hv Hrest].
  destruct (is_mp4 v) eqn:Hm; simpl; auto.
  rewrite (IH Hrest), andb_true_r.
  unfold variant_ok in Hv. rewrite Hm in Hv. unfold mp4_ok.
  destruct v; simpl in *; try discriminate.
  destruct (dict_lookup "content_type" fields); [| discriminate].
  exact Hv.
Qed.

Lemma mp4_ok_url (v : json) :
  mp4_ok v = true -> exists url, field "url" v = Some url
                                 /\ py_subscript v (Key "url") = Ok url.
Proof.
  unfold mp4_ok. intros H.
  apply andb_prop in H as [H _]. apply andb_prop in H as [Hd Hu].
  destruct v; try discriminate. simpl in *.
  destruct (dict_lookup "url" fields) as [u |]; [| discriminate].
  now exists u.
Qed.

Lemma forallb_In {A} (f : A -> bool) (l : list A) (x : A) :
  forallb f l = true -> In x l -> f x = true.
Proof. intros H. now apply forallb_forall. Qed.

Lemma select_media_url_ok (media0 : json) :
  is_dict media0 = true ->
  opt_dict (field "video_info" media0) = true ->
  variants_ok (lookup_path (keys ["video_info"; "variants"]) media0) = true ->
  exists url, select_media_url media0 = Ok url
              /\ chosen_url (variants_of media0) url.
Proof.
  intros Hd Hvi Hvs. unfold select_media_url, chosen_url, variants_of.
  rewrite (py_get_first "video_info" media0 Hd). cbn [obind app].
  rewrite py_get_dict by (apply is_dict_first; exact Hvi).
  rewrite (field_descend ["video_info"] "variants" media0). cbn [obind app].
  destruct (lookup_path (keys ["video_info"; "variants"]) media0)
    as [[| | | | | vs |] |]; try discriminate.
  - cbn [or_else mp4_variants py_iter obind].
    cbn [variants_ok] in Hvs.
    rewrite (filter_mp4_ok vs Hvs). cbn [obind].
    pose proof (filter_mp4_all_ok vs Hvs) as Hall.
    destruct (List.filter is_mp4 vs) as [| x mp4] eqn:Hf.
    + exists JNull. split; reflexivity.
    + cbn [truthy].
      destruct (py_max_first (x :: mp4)) as (v & l1 & l2 & Hm & Hs & H1 & H2);
        [discriminate | now apply mp4_ok_bitrates |].
      rewrite Hm. cbn [obind].
      assert (Hv : mp4_ok v = true).
      { apply (forallb_In mp4_ok (x :: mp4)); [exact Hall |].
        rewrite Hs. apply in_elt. }
      destruct (mp4_ok_url v Hv) as (url & Hu & Hsub).
      exists url. split; [exact Hsub |].
      exists v, l1, l2. auto.
  - exists JNull. split; reflexivity.
Qed.

(** ** One entry of the documented shape *)

Lemma is_str_or_else (s : string) (o : option json) :
  is_str s (Some (or_else JNull o)) = is_str s o.
Proof. now destruct o. Qed.

Lemma prefix_first (k : string) (j : json) :
  prefix_ok [k] j = opt_dict (field k j).
Proof.
  unfold prefix_ok. cbn [keys map]. rewrite lookup_path_key.
  now destruct (field k j).
Qed.

Lemma process_entry_conforms (n : Z) (entry : json) :
  conforms entry = true ->
  if qualifying entry
  then exists media0 url,
      first_media entry = Some media0
      /\ process_entry n entry
         = Ok (Some {| id := n;
                       created_at := or_null (tweet_legacy entry "created_at");
                       text := or_null (tweet_legacy entry "full_text");
                       media_type := or_null (field "type" media0);
                       media_url := url |})
      /\ (if is_str "video" (field "type" media0)
          then chosen_url (variants_of media0) url
          else url = JNull)
  else process_entry n entry = Ok None.
Proof.
  unfold conforms. intros H.
  apply andb_prop in H as [H Hrest]. apply andb_prop in H as [Hd Hc].
  unfold qualifying, process_entry.
  rewrite (py_get_first "content" entry Hd). cbn [obind].
  rewrite prefix_first in Hc.
  rewrite py_get_dict by (apply is_dict_first; exact Hc).
  rewrite (field_descend ["content"] "entryType" entry). cbn [obind app].
  rewrite py_eq_str. fold (entry_type entry). unfold or_null.
  rewrite is_str_or_else.
  destruct (is_str "TimelineTimelineItem" (entry_type entry)); [| reflexivity].
  cbn [negb andb orb] in *.
  repeat (apply andb_prop in Hrest as [Hrest ?]).
  rewrite (py_get_descend ["content"] "itemContent")
    by (apply is_dict_first; exact Hc).
  cbn [obind app].
  rewrite (py_get_descend ["content"; "itemContent"] "tweet_results")
    by (apply (is_dict_descend ["content"]); assumption).
  cbn [obind app].
  rewrite (py_get_descend ["content"; "itemContent"; "tweet_results"] "result")
    by (apply (is_dict_descend ["content"; "itemContent"]); assumption).
  cbn [obind app].
  assert (Hres : is_dict (descend result_path entry) = true)
    by (apply (is_dict_descend ["content"; "itemContent"; "tweet_results"]); assumption).
  change ["content"; "itemContent"; "tweet_results"; "result"] with result_path.
  rewrite (py_get_descend result_path "legacy") by exact Hres.
  cbn [obind].
  assert (Hleg : is_dict (descend (result_path ++ ["legacy"]) entry) = true)
    by (apply is_dict_descend; assumption).
  rewrite (py_get_descend (result_path ++ ["legacy"]) "extended_entities")
    by exact Hleg.
  cbn [obind].
  rewrite py_get_dict
    by (apply (is_dict_descend (result_path ++ ["legacy"])); assumption).
  rewrite (field_descend ((result_path ++ ["legacy"]) ++ ["extended_entities"])
             "media" entry).
  cbn [obind].
  unfold first_media, media_list.
  change (((result_path ++ ["legacy"]) ++ ["extended_entities"]) ++ ["media"])
    with (result_path ++ ["legacy"; "extended_entities"; "media"]).
  destruct (lookup_path
              (keys (result_path ++ ["legacy"; "extended_entities"; "media"]))
              entry) as [[| | | | | [| media0 more] |] |];
    try discriminate; try reflexivity.
  cbn [or_else truthy negb py_subscript nth_error obind hd_error].
  match goal with Hm : media_ok _ = true |- _ =>
    cbn [media_ok] in Hm; unfold media0_ok in Hm;
    apply andb_prop in Hm as [Hm0 Hvid] end.
  rewrite (py_get_dict media0 "type" JNull Hm0). cbn [obind].
  rewrite py_eq_str, is_str_or_else.
  rewrite !py_get_dict by exact Hleg.
  rewrite !field_descend. cbn [obind].
  destruct (is_str "video" (field "type" media0)) eqn:Hv.
  - cbn [negb orb] in Hvid. apply andb_prop in Hvid as [Hvi Hvs].
    destruct (select_media_url_ok media0 Hm0 Hvi Hvs) as (url & Hsel & Hch).
    rewrite Hsel. cbn [obind].
    exists media0, url. rewrite Hv. repeat split; auto.
  - cbn [obind]. exists media0, JNull. rewrite Hv. repeat split; auto.
Qed.

(** ** The loop over the entries *)

Lemma entries_loop_conforms (entries : list json) :
  Forall (fun e => conforms e = true) entries ->
  forall (acc : list MediaRecord) (n : Z),
  exists recs,
    entries_loop entries acc n = Ok (acc ++ recs)
    /\ length recs = length (List.filter qualifying entries)
    /\ map id recs = map (fun i => n + Z.of_nat i) (seq 0 (length recs))
    /\ Forall2 record_of_entry (List.filter qualifying entries) recs.
Proof.
  induction 1 as [| e entries He _ IH]; intros acc n.
  - exists []. rewrite app_nil_r. repeat split; constructor.
  - pose proof (process_entry_conforms n e He) as Hp.
    cbn [entries_loop List.filter].
    destruct (qualifying e).
    + destruct Hp as (media0 & url & Hm & Hp & _).
      match type of Hp with _ = Ok (Some ?r) => set (rec := r) in * end.
      rewrite Hp. cbn [obind].
      destruct (IH (acc ++ [rec]) (n + 1)) as (recs & Hl & Hlen & Hid & Hrec).
      exists (rec :: recs). rewrite Hl, <- app_assoc. split; [reflexivity |].
      split; [simpl; congruence |]. split.
      * cbn [map length seq]. f_equal; [subst rec; cbn [id]; lia |].
        rewrite Hid, <- seq_shift, map_map.
        apply map_ext. intros i. lia.
      * constructor; [| exact Hrec].
        repeat split. exists media0. split; [exact Hm | reflexivity].
    + rewrite Hp. cbn [obind]. apply IH.
Qed.

(** ** Requests *)

Lemma make_request_200 (w : world) (endpoint : string)
    (params : list (string * json)) (data : json) (st : state) :
  replies_200 (api w endpoint params) data ->
  make_request w endpoint params st
  = (Ok (data, 200, None), called (ApiCall endpoint params) st).
Proof.
  intros (r & Hr & Hs & Hd).
  unfold make_request, io_bind, called. cbn [record_call snd].
  rewrite Hr. cbn [requests_get].
  unfold try_except, lift, raise_for_status, response_ok, response_json.
  rewrite Hs, Hd. reflexivity.
Qed.

Lemma subscripts_lookup (path : list pykey) (j v : json) :
  lookup_path path j = Some v -> subscripts j path = Ok v.
Proof.
  revert j. induction path as [| k rest IH]; intros j; cbn [lookup_path subscripts].
  - now intros [= ->].
  - destruct k as [s | i], j; try discriminate; cbn [step py_subscript].
    + destruct (dict_lookup s fields); [| discriminate].
      intros H. cbn [obind]. now apply IH.
    + destruct (nth_error items i); [| discriminate].
      intros H. cbn [obind]. now apply IH.
Qed.

Lemma subscripts_absent (path : list pykey) (j : json) :
  absent_at path j = true ->
  exists e, subscripts j path = Raise e /\ is_lookup_error e = true
            /\ (Forall (fun k => exists s, k = Key s) path -> is_KeyError e = true).
Proof.
  revert j. induction path as [| k rest IH]; intros j; cbn [absent_at subscripts].
  - discriminate.
  - destruct k as [s | i], j; try discriminate; cbn [py_subscript].
    + destruct (dict_lookup s fields) as [v |].
      * intros H. destruct (IH v H) as (e & He & Hl & Hk).
        exists e. cbn [obind]. repeat split; auto.
        intros Hall. apply Hk. now inversion Hall.
      * intros _. eexists. repeat split.
    + destruct (nth_error items i) as [v |].
      * intros H. destruct (IH v H) as (e & He & Hl & Hk).
        exists e. cbn [obind]. repeat split; auto.
        intros Hall. apply Hk. now inversion Hall.
      * intros _. eexists. repeat split.
        intros Hall. inversion Hall as [| ? ? [s Hs] _]. discriminate.
Qed.

Lemma list_media_found (data : json) (entries : list json) (st : state) :
  lookup_path media_path data = Some (JList entries) ->
  list_media data st
  = (match entries_loop entries [] 1 with
     | Ok final_data => Ok (Some final_data)
     | Raise e => Raise e
     end, st).
Proof.
  intros H. unfold list_media, io_bind, try_except, lift, io_ret.
  rewrite (subscripts_lookup _ _ _ H). cbn [py_iter].
  now destruct (entries_loop entries [] 1).
Qed.

Lemma get_user_media_200 (w : world) (user_id : json) (count : Z)
    (data : json) (st : state) :
  replies_200 (api w "user-media" (media_query user_id count)) data ->
  get_user_media w user_id count st
  = list_media data (called (ApiCall "user-media" (media_query user_id count)) st).
Proof.
  intros H. unfold get_user_media, io_bind.
  now rewrite (make_request_200 _ _ _ _ _ H).
Qed.

(** ** What an emitted record says about its entry *)

Lemma filter_mp4_Ok (vs mp4 : list json) :
  filter_mp4 vs = Ok mp4 -> mp4 = List.filter is_mp4 vs.
Proof.
  revert mp4. induction vs as [| v rest IH]; intros mp4; cbn [filter_mp4 List.filter].
  - now intros [= <-].
  - destruct v; try discriminate. cbn [py_subscript]. unfold is_mp4. cbn [field].
    destruct (dict_lookup "content_type" fields) as [ct |]; [| discriminate].
    cbn [obind]. destruct (filter_mp4 rest) as [tl |]; [| discriminate].
    cbn [obind]. rewrite py_eq_str, (IH tl eq_refl). now intros [= <-].
Qed.

Lemma filter_mp4_chars (s : string) (mp4 : list json) :
  filter_mp4 (chars_of s) = Ok mp4 -> mp4 = [].
Proof.
  unfold chars_of. destruct (code_points s); [now intros [= <-] | discriminate].
Qed.

Lemma filter_mp4_keys (kv : list (string * json)) (mp4 : list json) :
  filter_mp4 (map (fun p => JStr (fst p)) kv) = Ok mp4 -> mp4 = [].
Proof. destruct kv; [now intros [= <-] | discriminate]. Qed.

Lemma py_subscript_key (obj : json) (k : string) (v : json) :
  py_subscript obj (Key k) = Ok v -> is_dict obj = true /\ field k obj = Some v.
Proof.
  destruct obj; try discriminate. cbn [py_subscript field].
  destruct (dict_lookup k fields); [intros [= ->]; auto | discriminate].
Qed.

Lemma max_from_In (key : json -> outcome json) (rest : list json) :
  forall best bestk v,
  max_from key best bestk rest = Ok v -> v = best \/ In v rest.
Proof.
  induction rest as [| y rest IH]; intros best bestk v; cbn [max_from].
  - intros [= ->]. now left.
  - destruct (key y) as [ky |]; [| discriminate]. cbn [obind].
    destruct (py_gt ky bestk) as [[] |]; [| | discriminate]; cbn [obind];
      intros H; apply IH in H as [-> | H]; auto; right; now (left + right).
Qed.

Lemma py_max_In (key : json -> outcome json) (items : list json) (v : json) :
  py_max key items = Ok v -> In v items.
Proof.
  destruct items as [| x rest]; [discriminate |]. cbn [py_max].
  destruct (key x) as [kx |]; [| discriminate]. cbn [obind].
  intros H. apply max_from_In in H as [-> | H]; [now left | now right].
Qed.

(** What [select_media_url] returned: nothing when no variant is mp4,
    otherwise the URL of the variant that [max] picked among them. *)
Lemma select_media_url_Ok (media0 url : json) :
  select_media_url media0 = Ok url ->
  match List.filter is_mp4 (variants_of media0) with
  | [] => url = JNull
  | mp4 => exists best, py_max bitrate_key mp4 = Ok best
                        /\ field "url" best = Some url
  end.
Proof.
  unfold select_media_url. intros H.
  step_get py_get_Ok H. step_get py_get_Ok H.
  change (or_else empty_dict (field "video_info" media0))
    with (descend ["video_info"] media0) in H.
  rewrite (field_descend ["video_info"] "variants" media0) in H. cbn [app] in H.
  unfold variants_of.
  destruct (mp4_variants _) as [mp4 |] eqn:Hmp4; [| discriminate].
  cbn [obind] in H. unfold mp4_variants in Hmp4.
  assert (Hlist : mp4 = List.filter is_mp4
                          match lookup_path (keys ["video_info"; "variants"]) media0 with
                          | Some (JList vs) => vs
                          | _ => []
                          end).
  { destruct (lookup_path (keys ["video_info"; "variants"]) media0)
      as [[| | | | s | vs | kv] |]; cbn [or_else py_iter obind] in Hmp4;
      try discriminate.
    - now apply filter_mp4_chars in Hmp4.
    - now apply filter_mp4_Ok in Hmp4.
    - now apply filter_mp4_keys in Hmp4.
    - cbn in Hmp4. now injection Hmp4 as <-. }
  rewrite <- Hlist.
  destruct mp4 as [| x mp4]; cbn [truthy] in H.
  - now injection H as <-.
  - destruct (py_max bitrate_key (x :: mp4)) as [best |]; [| discriminate].
    cbn [obind] in H. apply py_subscript_key in H as [_ H]. now exists best.
Qed.

(** A URL that is not [None] is the URL of an mp4 variant of the media
    entity. *)
Lemma select_media_url_source (media0 url : json) :
  select_media_url media0 = Ok url ->
  url <> JNull ->
  exists v, In v (variants_of media0) /\ is_mp4 v = true
            /\ field "url" v = Some url.
Proof.
  intros H Hurl. apply select_media_url_Ok in H.
  destruct (List.filter is_mp4 (variants_of media0)) as [| x mp4] eqn:Hf;
    [contradiction |].
  destruct H as (best & Hmax & Hbest).
  apply py_max_In in Hmax. rewrite <- Hf in Hmax.
  apply filter_In in Hmax as [Hin Hmp4]. now exists best.
Qed.



Lemma process_entry_Ok (n : Z) (entry : json) (o : option MediaRecord) :
  process_entry n entry = Ok o ->
  match o with
  | None => qualifying entry = false
  | Some r =>
      qualifying entry = true
      /\ id r = n
      /\ record_of_entry entry r
      /\ exists media0,
          first_media entry = Some media0
          /\ media_type r = or_null (field "type" media0)
          /\ (if is_str "video" (field "type" media0)
              then select_media_url media0 = Ok (media_url r)
              else media_url r = JNull)
  end.
Proof.
  unfold process_entry, qualifying. intros H.
  step_get py_get_Ok H. step_get py_get_Ok H.
  change (or_else empty_dict (field "content" entry))
    with (descend ["content"] entry) in *.
  rewrite (field_descend ["content"] "entryType" entry) in H. cbn [app] in H.
  rewrite py_eq_str, is_str_or_else in H. fold (entry_type entry) in H.
  destruct (is_str "TimelineTimelineItem" (entry_type entry));
    cbn [negb andb] in *; [| now injection H as <-].
  do 6 step_get py_get_Ok H.
  change (or_else empty_dict (field "extended_entities" _))
    with (descend (result_path ++ ["legacy"; "extended_entities"]) entry) in *.
  rewrite (field_descend (result_path ++ ["legacy"; "extended_entities"])
             "media" entry) in H.
  unfold record_of_entry, first_media, media_list, tweet_legacy.
  change ((result_path ++ ["legacy"; "extended_entities"]) ++ ["media"])
    with (result_path ++ ["legacy"; "extended_entities"; "media"]) in H.
  destruct (lookup_path
              (keys (result_path ++ ["legacy"; "extended_entities"; "media"]))
              entry) as [media |]; cbn [or_else] in H;
    [| cbn in H; now injection H as <-].
  destruct (truthy media) eqn:Ht; cbn [negb] in H.
  2:{ injection H as <-. destruct media as [| | | | | [| ] |]; auto; discriminate. }
  destruct (py_subscript media (Idx 0)) as [media0 |] eqn:Hsub; [| discriminate].
  cbn [obind] in H. step_get py_get_Ok H.
  assert (Hm : exists more, media = JList (media0 :: more)).
  { destruct media as [| | | | s | [| m more] | kv]; try discriminate.
    - cbn [py_subscript] in Hsub.
      destruct (str_index s 0); [injection Hsub as <- |]; discriminate.
    - cbn in Hsub. injection Hsub as <-. now exists more. }
  destruct Hm as [more ->].
  rewrite py_eq_str, is_str_or_else in H.
  cbn [hd_error id created_at text media_type media_url].
  destruct (is_str "video" (field "type" media0)) eqn:Hv.
  - cbn [py_subscript nth_error obind] in H.
    destruct (select_media_url media0) as [murl |] eqn:Hsel; [| discriminate].
    cbn [obind] in H. repeat step_get py_get_Ok H. injection H as <-.
    cbn [id created_at text media_type media_url].
    change (or_else empty_dict (field "legacy" _))
      with (descend (result_path ++ ["legacy"]) entry).
    rewrite !field_descend.
    repeat split; eauto.
    exists media0. rewrite Hv. auto.
  - cbn [obind] in H. repeat step_get py_get_Ok H. injection H as <-.
    cbn [id created_at text media_type media_url].
    change (or_else empty_dict (field "legacy" _))
      with (descend (result_path ++ ["legacy"]) entry).
    rewrite !field_descend.
    repeat split; eauto.
    exists media0. rewrite Hv. auto.
Qed.

Lemma entries_loop_records (entries : list json) :
  forall (acc : list MediaRecord) (n : Z) (out : list MediaRecord),
  entries_loop entries acc n = Ok out ->
  exists recs,
    out = acc ++ recs
    /\ Forall (fun r => exists e k, In e entries
                                   /\ process_entry k e = Ok (Some r)) recs.
Proof.
  induction entries as [| e entries IH]; intros acc n out; cbn [entries_loop].
  - intros [= <-]. exists []. rewrite app_nil_r. split; [reflexivity | constructor].
  - destruct (process_entry n e) as [[r |] |] eqn:Hp; try discriminate;
      cbn [obind]; intros H; apply IH in H as (recs & -> & Hall).
    + exists (r :: recs). rewrite <- app_assoc. split; [reflexivity |].
      constructor.
      * exists e, n. split; [now left | exact Hp].
      * eapply List.Forall_impl; [| exact Hall].
        intros r' (e' & k & Hin & Hk). exists e', k. split; [now right | exact Hk].
    + exists recs. split; [reflexivity |].
      eapply List.Forall_impl; [| exact Hall].
      intros r' (e' & k & Hin & Hk). exists e', k. split; [now right | exact Hk].
Qed.

Lemma list_media_Some (data : json) (st st' : state) (recs : list MediaRecord) :
  list_media data st = (Ok (Some recs), st') ->
  st' = st
  /\ exists found items,
      subscripts data media_path = Ok found
      /\ py_iter found = Ok items
      /\ entries_loop items [] 1 = Ok recs.
Proof.
  unfold list_media, io_bind, try_except, lift, io_ret.
  destruct (subscripts data media_path) as [found | e] eqn:Hf; cbn.
  - destruct (py_iter found) as [items | e] eqn:Hi; cbn; [| discriminate].
    destruct (entries_loop items [] 1) as [out | e] eqn:Hl; cbn; [| discriminate].
    intros [= <- <-]. split; [reflexivity |]. now exists found, items.
  - destruct (is_lookup_error e); cbn; discriminate.
Qed.

Lemma get_user_media_Some (w : world) (user_id : json) (count : Z)
    (st st' : state) (recs : list MediaRecord) :
  get_user_media w user_id count st = (Ok (Some recs), st') ->
  exists data,
    replies_200 (api w "user-media" (media_query user_id count)) data
    /\ st' = called (ApiCall "user-media" (media_query user_id count)) st
    /\ exists found items,
        subscripts data media_path = Ok found
        /\ py_iter found = Ok items
        /\ entries_loop items [] 1 = Ok recs.
Proof.
  unfold get_user_media, make_request, io_bind. cbn [record_call].
  destruct (api w "user-media" (media_query user_id count)) as [err | r] eqn:Hr;
    cbn [requests_get is_RequestException]; [discriminate |].
  unfold try_except, lift, raise_for_status, response_json, replies_200.
  destruct (response_ok r) eqn:Hok; cbn.
  - destruct (decoded r) as [data | msg | |] eqn:Hd; cbn; try discriminate.
    + destruct (Z.eqb_spec (status_code r) 200) as [Hs | Hs]; cbn; [| discriminate].
      intros H. apply list_media_Some in H as [-> H].
      exists data. split; [now exists r |]. split; [reflexivity | exact H].
    + destruct (status_code r =? 200); cbn; [| discriminate].
      unfold list_media, io_bind, try_except, lift. cbn. discriminate.
  - unfold list_media, io_bind, try_except, lift. cbn. discriminate.
Qed.

Lemma entries_loop_made (entries : list json) :
  forall (acc : list MediaRecord) (n : Z) (out : list MediaRecord),
  entries_loop entries acc n = Ok out ->
  exists recs,
    out = acc ++ recs
    /\ Forall2 (fun e r => process_entry (id r) e = Ok (Some r))
         (List.filter qualifying entries) recs.
Proof.
  induction entries as [| e entries IH]; intros acc n out;
    cbn [entries_loop List.filter].
  - intros [= <-]. exists []. rewrite app_nil_r. split; [reflexivity | constructor].
  - destruct (process_entry n e) as [o |] eqn:Hp; [| discriminate].
    pose proof (process_entry_Ok _ _ _ Hp) as Ho. cbn [obind].
    destruct o as [r |].
    + destruct Ho as (-> & Hid & _).
      intros H. apply IH in H as (recs & -> & Hall).
      exists (r :: recs). rewrite <- app_assoc. split; [reflexivity |].
      constructor; [now rewrite Hid | exact Hall].
    + rewrite Ho. apply IH.
Qed.

(** C9. The records the lister returns are, in order, those that the
    loop made from the qualifying entries of the response.  The
    [media_url] of a record is not [None] only if its [media_type] is
    "video" and the URL is the one of a variant of the first media entity
    of its own entry that declares "video/mp4"; a record of any other
    type has [media_url] [None]. *)
Theorem media_url_only_for_mp4_video (w : world) (user_id : json) (count : Z)
    (st st' : state) (recs : list MediaRecord) :
  get_user_media w user_id count st = (Ok (Some recs), st') ->
  exists data found items,
    replies_200 (api w "user-media" (media_query user_id count)) data
    /\ subscripts data media_path = Ok found
    /\ py_iter found = Ok items
    /\ Forall2 (fun entry r =>
         process_entry (id r) entry = Ok (Some r)
         /\ exists media0,
             first_media entry = Some media0
             /\ media_type r = or_null (field "type" media0)
             /\ (media_url r <> JNull ->
                 media_type r = JStr "video"
                 /\ exists v, In v (variants_of media0) /\ is_mp4 v = true
                              /\ field "url" v = Some (media_url r))
             /\ (media_type r <> JStr "video" -> media_url r = JNull))
         (List.filter qualifying items) recs.
Proof.
  intros H.
  apply get_user_media_Some in H
    as (data & Hreply & _ & found & items & Hf & Hi & Hloop).
  exists data, found, items.
  split; [exact Hreply |]. split; [exact Hf |]. split; [exact Hi |].
  apply entries_loop_made in Hloop as (recs' & Heq & Hall).
  cbn [app] in Heq. subst recs'.
  induction Hall as [| entry r es rs Hp _ IH]; constructor; [| exact IH].
  split; [exact Hp |].
  apply process_entry_Ok in Hp as (_ & _ & _ & media0 & Hm & Hty & Hurl).
  exists media0. split; [exact Hm |]. split; [exact Hty |].
  destruct (is_str "video" (field "type" media0)) eqn:Hv.
  - apply is_str_eq in Hv. split.
    + intros Hne. split; [now rewrite Hty, Hv |].
      now apply select_media_url_source.
    + intros Hne. rewrite Hty, Hv in Hne. now contradiction Hne.
  - split; [intros Hne; contradiction | intros _; exact Hurl].
Qed.

Lemma list_media_calls (data : json) (st : state) (cs : list call) :
  let st2 := {| log := log st; stdout := stdout st; dirs := dirs st;
                files := files st; calls := cs |} in
  fst (list_media data st2) = fst (list_media data st)
  /\ log (snd (list_media data st2)) = log (snd (list_media data st)).
Proof.
  unfold list_media, io_bind, try_except, lift, io_ret.
  destruct (subscripts data media_path) as [found | e]; cbn.
  - destruct (py_iter found) as [items | e]; cbn; [| auto].
    destruct (entries_loop items [] 1); cbn; auto.
  - destruct (is_lookup_error e); cbn; auto.
Qed.

(** C10. Two counts for which the API gives the same reply give the same
    result of the lister, and the same log: the count only goes into the
    query. *)
Theorem count_does_not_shape_records (w : world) (user_id : json)
    (count1 count2 : Z) (st : state) :
  api w "user-media" (media_query user_id count1)
  = api w "user-media" (media_query user_id count2) ->
  fst (get_user_media w user_id count1 st) = fst (get_user_media w user_id count2 st)
  /\ log (snd (get_user_media w user_id count1 st))
     = log (snd (get_user_media w user_id count2 st)).
Proof.
  intros H. unfold get_user_media, make_request, io_bind. cbn [record_call].
  rewrite H.
  destruct (api w "user-media" (media_query user_id count2)) as [err | r];
    cbn [requests_get is_RequestException]; [cbn; auto |].
  unfold try_except, lift, raise_for_status, response_json.
  destruct (response_ok r); cbn; [| auto].
  destruct (decoded r) as [data | msg | |]; cbn; auto.
  - destruct (status_code r =? 200); cbn; auto.
    pose proof (list_media_calls data
      {| log := log st; stdout := stdout st; dirs := dirs st; files := files st;
         calls := calls st ++ [ApiCall "user-media" (media_query user_id count2)] |}
      (calls st ++ [ApiCall "user-media" (media_query user_id count1)])) as [H1 H2].
    cbn in H1, H2. split; assumption.
  - destruct (status_code r =? 200); cbn; auto.
Qed.

(** ** A path that is absent at some segment *)

Lemma absent_lookup (path : list pykey) (j : json) :
  absent_at path j = true -> lookup_path path j = None.
Proof.
  revert j. induction path as [| k rest IH]; intros j; cbn [absent_at lookup_path].
  - discriminate.
  - destruct k as [s | i], j; try discriminate; cbn [step].
    + destruct (dict_lookup s fields); auto.
    + destruct (nth_error items i); auto.
Qed.

Lemma absent_prefix (p q : list string) (j : json) :
  absent_at (keys (p ++ q)) j = true -> opt_dict (lookup_path (keys p) j) = true.
Proof.
  revert j. induction p as [| n p IH]; intros j; cbn [app keys map].
  - destruct q; cbn [keys map absent_at]; [discriminate |].
    destruct j; try discriminate. reflexivity.
  - rewrite lookup_path_key. cbn [absent_at].
    destruct j; try discriminate. cbn [field].
    destruct (dict_lookup n fields) as [v |]; [apply IH | reflexivity].
Qed.

Lemma absent_is_dict (n : string) (p : list string) (j : json) :
  absent_at (keys (n :: p)) j = true -> is_dict j = true.
Proof. cbn [keys map absent_at]. now destruct j. Qed.

Lemma absent_entry_skipped (n : Z) (entry : json) :
  absent_at (keys media_path_names) entry = true
  \/ absent_at (keys ["content"; "entryType"]) entry = true ->
  process_entry n entry = Ok None.
Proof.
  intros H.
  assert (Hc : conforms entry = true /\ qualifying entry = false).
  { unfold conforms, qualifying, prefix_ok, entry_type.
    destruct H as [H | H].
    - rewrite (absent_is_dict _ _ _ H).
      rewrite (absent_prefix ["content"] _ entry H).
      rewrite (absent_prefix ["content"; "itemContent"] _ entry H).
      rewrite (absent_prefix ["content"; "itemContent"; "tweet_results"] _ entry H).
      rewrite (absent_prefix result_path _ entry H).
      rewrite (absent_prefix (result_path ++ ["legacy"]) ["extended_entities"; "media"] entry H).
      rewrite (absent_prefix (result_path ++ ["legacy"; "extended_entities"]) ["media"] entry H).
      unfold media_list. fold media_path_names.
      rewrite (absent_lookup _ _ H). cbn [media_ok andb].
      split; [apply orb_true_r | apply andb_false_r].
    - rewrite (absent_is_dict _ _ _ H).
      rewrite (absent_prefix ["content"] ["entryType"] entry H).
      rewrite (absent_lookup _ _ H). auto. }
  destruct Hc as [Hc Hq].
  pose proof (process_entry_conforms n entry Hc) as Hp.
  now rewrite Hq in Hp.
Qed.

Lemma find_user_id_absent (data : json) (st : state) :
  absent_at user_path data = true ->
  exists e, find_user_id data st = (Ok JNull, logged (UnexpectedFormat e) st).
Proof.
  intros H. destruct (subscripts_absent _ _ H) as (e & He & _ & Hk).
  exists e. unfold find_user_id, try_except, lift. rewrite He, Hk; [reflexivity |].
  repeat constructor; eexists; reflexivity.
Qed.

Lemma list_media_absent (data : json) (st : state) :
  absent_at media_path data = true ->
  exists e, list_media data st = (Ok None, logged (UnexpectedFormat e) st).
Proof.
  intros H. destruct (subscripts_absent _ _ H) as (e & He & Hl & _).
  exists e. unfold list_media, io_bind, try_except, lift. rewrite He, Hl.
  reflexivity.
Qed.

Lemma get_user_id_200 (w : world) (username : string) (data : json) (st : state) :
  replies_200 (api w "user" [("username", JStr username)]) data ->
  get_user_id w username st
  = find_user_id data (called (ApiCall "user" [("username", JStr username)]) st).
Proof.
  intros H. unfold get_user_id, io_bind.
  now rewrite (make_request_200 _ _ _ _ _ H).
Qed.

(** The loop passes over an entry that it skips: the accumulator and
    the counter are as if the entry were not there. *)
Lemma entries_loop_skips (before after : list json) (entry : json) :
  (forall n, process_entry n entry = Ok None) ->
  forall (acc : list MediaRecord) (n : Z),
  entries_loop (before ++ entry :: after) acc n
  = entries_loop (before ++ after) acc n.
Proof.
  intros He. induction before as [| b before IH]; intros acc n;
    cbn [app entries_loop].
  - now rewrite He.
  - destruct (process_entry n b) as [[r |] |]; cbn [obind]; auto.
Qed.

(** C4, as amended. When a key of [result.data.user.result.rest_id] is
    missing from the object reached, [get_user_id] returns [None] and
    logs the failure; when a key or the index of
    [result.timeline.instructions[1].entries] is missing,
    [get_user_media] returns [None] and logs the failure.  An entry that
    lacks a field on the way to its media list, or its entry type, does
    not make the lister return [None]: the listing goes on as if the
    entry were not there, with the records and the ids of the other
    entries, and nothing is logged. *)
Theorem missing_path_is_absent (w : world) (st : state) (data : json) :
  (forall username,
      replies_200 (api w "user" [("username", JStr username)]) data ->
      absent_at user_path data = true ->
      exists e,
        get_user_id w username st
        = (Ok JNull,
           logged (UnexpectedFormat e)
             (called (ApiCall "user" [("username", JStr username)]) st)))
  /\ (forall user_id count,
      replies_200 (api w "user-media" (media_query user_id count)) data ->
      absent_at media_path data = true ->
      exists e,
        get_user_media w user_id count st
        = (Ok None,
           logged (UnexpectedFormat e)
             (called (ApiCall "user-media" (media_query user_id count)) st)))
  /\ (forall user_id count before entry after,
      replies_200 (api w "user-media" (media_query user_id count)) data ->
      lookup_path media_path data = Some (JList (before ++ entry :: after)) ->
      absent_at (keys media_path_names) entry = true
      \/ absent_at (keys ["content"; "entryType"]) entry = true ->
      get_user_media w user_id count st
      = (match entries_loop (before ++ after) [] 1 with
         | Ok final_data => Ok (Some final_data)
         | Raise e => Raise e
         end,
         called (ApiCall "user-media" (media_query user_id count)) st)).
Proof.
  split; [| split].
  - intros username Hr Ha. rewrite (get_user_id_200 _ _ _ _ Hr).
    now apply find_user_id_absent.
  - intros user_id count Hr Ha. rewrite (get_user_media_200 _ _ _ _ _ Hr).
    now apply list_media_absent.
  - intros user_id count before entry after Hr Hp Ha.
    rewrite (get_user_media_200 _ _ _ _ _ Hr), (list_media_found _ _ _ Hp).
    rewrite entries_loop_skips; [reflexivity |].
    intros n. now apply absent_entry_skipped.
Qed.

(** ** The orchestrator *)

Lemma py_int_cases (s : string) :
  (exists z, py_int s = Ok z) \/ py_int s = Raise ValueError.
Proof.
  unfold py_int.
  destruct (int_text (code_points s)) as [t |]; [| now right].
  destruct (signed_digits t) as [z |]; [| now right].
  destruct (max_str_digits <? count_digits t)%N; [now right | left; now exists z].
Qed.

Lemma parse_count_cases (argv : list string) (st : state) :
  (exists count, parse_count argv st = (Ok count, st))
  \/ parse_count argv st = (Raise (SystemExit 1), logged CountNotInteger st).
Proof.
  unfold parse_count.
  destruct ((3 <? length argv)%nat && _); [| left; now exists 5].
  unfold try_except, lift.
  destruct (argv_at argv 4) as [a | e] eqn:Ha; cbn [obind].
  - destruct (py_int_cases a) as [[z Hz] | Hz]; rewrite Hz.
    + left. now exists z.
    + right. reflexivity.
  - right. unfold argv_at in Ha. destruct (nth_error argv 4); [discriminate |].
    injection Ha as <-. reflexivity.
Qed.

Lemma get_user_id_not_200 (w : world) (username : string) (r : response)
    (st : state) :
  api w "user" [("username", JStr username)] = Got r ->
  status_code r <> 200 ->
  let run := get_user_id w username st in
  (fst run = Ok JNull \/ exists e, fst run = Raise e /\ is_Exception e = true)
  /\ dirs (snd run) = dirs st
  /\ files (snd run) = files st
  /\ calls (snd run) = calls st ++ [ApiCall "user" [("username", JStr username)]].
Proof.
  intros Hr Hs. unfold get_user_id, make_request, io_bind. cbn [record_call].
  rewrite Hr. cbn [requests_get].
  unfold try_except, lift, raise_for_status, response_json.
  destruct (response_ok r) eqn:Hok; cbn.
  - destruct (decoded r) as [data | msg | |]; cbn;
      try (destruct (Z.eqb_spec (status_code r) 200); try contradiction; cbn);
      auto; (split; [right; eexists; split; reflexivity | auto]).
  - auto.
Qed.

Lemma print_all_state (lines : list string) (st : state) :
  let run := print_all lines st in
  fst run = Ok tt /\ dirs (snd run) = dirs st /\ files (snd run) = files st
  /\ calls (snd run) = calls st.
Proof.
  revert st. induction lines as [| l rest IH]; intros st; cbn.
  - auto.
  - unfold io_bind. cbn.
    specialize (IH {| log := log st; stdout := stdout st ++ [l]; dirs := dirs st;
                      files := files st; calls := calls st |}).
    cbn in IH. destruct (print_all rest _) as [o st']. cbn in *.
    destruct IH as (-> & ? & ? & ?). auto.
Qed.

Lemma exit_code_Exception {A} (e : exn) :
  is_Exception e = true -> exit_code (@Raise A e) = 1.
Proof. destruct e; try reflexivity. discriminate. Qed.

Lemma main_resolver_failure (w : world) (argv : list string)
    (username : string) (r : response) (st : state) :
  nth_error argv 2 = Some username ->
  api w "user" [("username", JStr username)] = Got r ->
  status_code r <> 200 ->
  exists o st',
    main w argv st = (o, st')
    /\ exit_code o = 1
    /\ dirs st' = dirs st
    /\ files st' = files st
    /\ forall c, In c (calls st') ->
                 In c (calls st) \/ c = ApiCall "user" [("username", JStr username)].
Proof.
  intros Hname Hr Hs. unfold main.
  destruct ((length argv <? 3)%nat || _) eqn:Hargs.
  - unfold io_bind, sys_exit, io_raise.
    pose proof (print_all_state usage st) as Hp. cbn zeta in Hp.
    destruct (print_all usage st) as [o st']. cbn [fst snd] in Hp.
    destruct Hp as (-> & Hd & Hf & Hc).
    eexists. exists st'. split; [reflexivity |]. rewrite Hc. auto.
  - unfold io_bind, lift, argv_at. rewrite Hname.
    destruct (parse_count_cases argv st) as [[count Hc] | Hc]; rewrite Hc.
    2:{ eexists. eexists. split; [reflexivity |]. cbn. auto. }
    destruct (get_user_id_not_200 w username r st Hr Hs) as (Hf & Hd & Hfi & Hca).
    destruct (get_user_id w username st) as [res st1]. cbn [fst snd] in *.
    assert (Hcalls : forall c, In c (calls st1) ->
              In c (calls st) \/ c = ApiCall "user" [("username", JStr username)]).
    { intros c Hin. rewrite Hca in Hin. apply in_app_or in Hin as [Hin | Hin]; auto.
      right. now destruct Hin as [<- | []]. }
    destruct Hf as [-> | (e & -> & He)].
    + eexists. exists st1. split; [reflexivity |]. auto.
    + eexists. exists st1. split; [reflexivity |].
      split; [now apply exit_code_Exception | auto].
Qed.

(** C7. When the API answers the resolver's call, the one for the
    username given on the command line, with a status other than 200,
    [main] ends with exit status 1, the directories and files are as
    before, and the only call it made is that call to the API. *)
Theorem resolver_failure_exits_before_output (w : world) (argv : list string)
    (username : string) (r : response) (st : state) :
  nth_error argv 2 = Some username ->
  api w "user" [("username", JStr username)] = Got r ->
  status_code r <> 200 ->
  let run := main w argv st in
  exit_code (fst run) = 1
  /\ dirs (snd run) = dirs st
  /\ files (snd run) = files st
  /\ forall c, In c (calls (snd run)) ->
               In c (calls st) \/ c = ApiCall "user" [("username", JStr username)].
Proof.
  intros Hname Hr Hs.
  destruct (main_resolver_failure w argv username r st Hname Hr Hs)
    as (o & st' & -> & H).
  exact H.
Qed.

Lemma main_reaches_save (w : world) (argv : list string) (username : string)
    (count : Z) (user_id : json) (datas : list MediaRecord) (st st1 st2 : state) :
  parsed argv username count ->
  get_user_id w username st = (Ok user_id, st1) ->
  user_id <> JNull ->
  get_user_media w user_id count st1 = (Ok (Some datas), st2) ->
  main w argv st = save_media w username datas st2.
Proof.
  intros ((flag & Hflag & Hamong) & Hname & Hcount) Hid Hnn Hmedia.
  unfold main. rewrite Hflag, Hamong.
  assert (Hlen : (length argv <? 3)%nat = false).
  { apply Nat.ltb_ge. apply (nth_error_Some argv 2). congruence. }
  rewrite Hlen. cbn [orb negb].
  unfold io_bind, lift, argv_at. rewrite Hname, Hcount, Hid.
  destruct user_id; try contradiction; now rewrite Hmedia.
Qed.

Lemma download_one_ok (w : world) (photos videos : string) (r : MediaRecord)
    (st : state) :
  (media_type r <> JStr "video" -> media_url r = JNull) ->
  exists st',
    download_one w photos videos r st = (Ok tt, st')
    /\ calls st' = calls st ++ attempt_of photos videos r.
Proof.
  intros Hnull. unfold download_one, attempt_of. rewrite !py_eq_str.
  destruct (is_str "photo" (Some (media_type r))) eqn:Hp.
  - apply is_str_eq in Hp. injection Hp as Hp.
    rewrite Hnull by (rewrite Hp; discriminate).
    unfold download_media, io_bind, try_except. cbn. eexists. split; reflexivity.
  - destruct (is_str "video" (Some (media_type r))) eqn:Hv.
    + unfold download_media, io_bind, try_except. cbn.
      destruct (ytdlp w (media_url r) _); cbn; eexists; split; reflexivity.
    + cbn. eexists. split; [reflexivity |]. now rewrite app_nil_r.
Qed.

Lemma download_all_ok (w : world) (photos videos : string)
    (datas : list MediaRecord) :
  Forall (fun r => media_type r <> JStr "video" -> media_url r = JNull) datas ->
  forall st, exists st',
    download_all w photos videos datas st = (Ok tt, st')
    /\ calls st' = calls st ++ flat_map (attempt_of photos videos) datas.
Proof.
  induction 1 as [| r datas Hr _ IH]; intros st; cbn [download_all flat_map].
  - exists st. split; [reflexivity |]. now rewrite app_nil_r.
  - destruct (download_one_ok w photos videos r st Hr) as (st1 & H1 & Hc1).
    destruct (IH st1) as (st2 & H2 & Hc2).
    exists st2. unfold io_bind. rewrite H1, H2. split; [reflexivity |].
    now rewrite Hc2, Hc1, <- app_assoc.
Qed.

Lemma listed_records_null (w : world) (user_id : json) (count : Z)
    (st st' : state) (datas : list MediaRecord) :
  get_user_media w user_id count st = (Ok (Some datas), st') ->
  Forall (fun r => media_type r <> JStr "video" -> media_url r = JNull) datas.
Proof.
  intros H.
  apply get_user_media_Some in H
    as (data & _ & _ & found & items & _ & _ & Hloop).
  apply entries_loop_records in Hloop as (recs' & Heq & Hall).
  cbn [app] in Heq. subst recs'.
  eapply List.Forall_impl; [| exact Hall].
  intros r (entry & k & _ & Hp).
  apply process_entry_Ok in Hp as (_ & _ & _ & media0 & _ & Hty & Hurl).
  intros Hne. destruct (is_str "video" (field "type" media0)) eqn:Hv; [| exact Hurl].
  apply is_str_eq in Hv. rewrite Hty, Hv in Hne. now contradiction Hne.
Qed.

Lemma save_media_ok (w : world) (username : string) (datas : list MediaRecord)
    (st : state) :
  Forall (fun r => media_type r <> JStr "video" -> media_url r = JNull) datas ->
  let media_folder := "medias/" +:+ username in
  makedirs_ok w media_folder = true ->
  makedirs_ok w (media_folder +:+ "/photos") = true ->
  makedirs_ok w (media_folder +:+ "/videos") = true ->
  open_ok w (media_folder +:+ "/data.json") = true ->
  exists st',
    save_media w username datas st = (Ok tt, st')
    /\ files st' !! (media_folder +:+ "/data.json")
       = Some (JsonDump (JList (map record_json datas)))
    /\ calls st'
       = calls st
         ++ [Makedirs media_folder; Makedirs (media_folder +:+ "/photos");
             Makedirs (media_folder +:+ "/videos")]
         ++ flat_map (attempt_of (media_folder +:+ "/photos")
                                 (media_folder +:+ "/videos")) datas
         ++ [WriteFile (media_folder +:+ "/data.json")].
Proof.
  intros Hall media_folder H1 H2 H3 H4.
  unfold save_media. fold media_folder.
  unfold os_makedirs, write_file, io_bind. cbn [record_call].
  rewrite H1, H2, H3.
  match goal with |- context [download_all _ _ _ _ ?s] =>
    destruct (download_all_ok w (media_folder +:+ "/photos")
                (media_folder +:+ "/videos") datas Hall s) as (st1 & Hd & Hc)
  end.
  rewrite Hd, H4. eexists. split; [reflexivity |]. cbn [files calls].
  split; [apply lookup_insert_eq |].
  rewrite Hc. cbn [calls]. rewrite <- !app_assoc. reflexivity.
Qed.

Lemma entries_loop_spec (entries : list json) :
  forall (acc : list MediaRecord) (n : Z) (out : list MediaRecord),
  entries_loop entries acc n = Ok out ->
  exists recs,
    out = acc ++ recs
    /\ length recs = length (List.filter qualifying entries)
    /\ map id recs = map (fun i => n + Z.of_nat i) (seq 0 (length recs))
    /\ Forall2 record_of_entry (List.filter qualifying entries) recs.
Proof.
  induction entries as [| e entries IH]; intros acc n out;
    cbn [entries_loop List.filter].
  - intros [= <-]. exists []. rewrite app_nil_r. repeat split; constructor.
  - destruct (process_entry n e) as [o |] eqn:Hp; [| discriminate].
    apply process_entry_Ok in Hp. cbn [obind].
    destruct o as [r |].
    + destruct Hp as (-> & Hid & Hrec & _).
      intros H. apply IH in H as (recs & -> & Hlen & Hids & Hall).
      exists (r :: recs). rewrite <- app_assoc. split; [reflexivity |].
      split; [simpl; congruence |]. split.
      * cbn [map length seq]. f_equal; [lia |].
        rewrite Hids, <- seq_shift, map_map.
        apply map_ext. intros i. lia.
      * now constructor.
    + rewrite Hp. apply IH.
Qed.



(** C6, as amended. Once the records are listed and the operating
    system lets the directories and [data.json] be written, [main] ends
    normally with the manifest holding every listed record, whatever the
    media hosts and the extractor answer; and the calls it made after the
    listing are the three [makedirs], then one [download_media] per photo
    or video record in order (none for a record of another type), then
    the write of the manifest. *)
Theorem manifest_written_after_attempts (w : world) (argv : list string)
    (username : string) (count : Z) (user_id : json) (st st1 st2 : state)
    (datas : list MediaRecord) :
  parsed argv username count ->
  get_user_id w username st = (Ok user_id, st1) ->
  user_id <> JNull ->
  get_user_media w user_id count st1 = (Ok (Some datas), st2) ->
  let media_folder := "medias/" +:+ username in
  makedirs_ok w media_folder = true ->
  makedirs_ok w (media_folder +:+ "/photos") = true ->
  makedirs_ok w (media_folder +:+ "/videos") = true ->
  open_ok w (media_folder +:+ "/data.json") = true ->
  exists st3,
    main w argv st = (Ok tt, st3)
    /\ files st3 !! (media_folder +:+ "/data.json")
       = Some (JsonDump (JList (map record_json datas)))
    /\ calls st3
       = calls st2
         ++ [Makedirs media_folder; Makedirs (media_folder +:+ "/photos");
             Makedirs (media_folder +:+ "/videos")]
         ++ flat_map (attempt_of (media_folder +:+ "/photos")
                                 (media_folder +:+ "/videos")) datas
         ++ [WriteFile (media_folder +:+ "/data.json")].
Proof.
  intros Hargs Hid Hnn Hlist.
  rewrite (main_reaches_save _ _ _ _ _ _ _ _ _ Hargs Hid Hnn Hlist).
  apply save_media_ok. exact (listed_records_null _ _ _ _ _ _ Hlist).
Qed.

(** *** The record of calls only grows *)

Lemma appends_bind {A B} (m : M A) (f : A -> M B) :
  appends_calls m -> (forall a, appends_calls (f a)) -> appends_calls (io_bind m f).
Proof.
  intros Hm Hf st. unfold io_bind.
  destruct (Hm st) as [cs Hcs]. destruct (m st) as [[a | e] st1]; cbn [snd] in *.
  - destruct (Hf a st1) as [cs' Hcs']. exists (cs ++ cs').
    now rewrite Hcs', Hcs, <- app_assoc.
  - now exists cs.
Qed.

Lemma appends_ret {A} (a : A) : appends_calls (io_ret a).
Proof. intros st. exists []. now rewrite app_nil_r. Qed.

Lemma appends_same {A} (m : M A) :
  (forall st, calls (snd (m st)) = calls st) -> appends_calls m.
Proof. intros H st. exists []. now rewrite app_nil_r. Qed.

Lemma appends_record_call (c : call) : appends_calls (record_call c).
Proof. intros st. now exists [c]. Qed.

Lemma appends_try {A} (body : M A) (catches : exn -> bool) (handler : exn -> M A) :
  appends_calls body -> (forall e, appends_calls (handler e)) ->
  appends_calls (try_except body catches handler).
Proof.
  intros Hb Hh st. unfold try_except.
  destruct (Hb st) as [cs Hcs]. destruct (body st) as [[a | e] st1]; cbn [snd] in *.
  - now exists cs.
  - destruct (catches e); [| now exists cs].
    destruct (Hh e st1) as [cs' Hcs']. exists (cs ++ cs').
    now rewrite Hcs', Hcs, <- app_assoc.
Qed.

Lemma appends_logging (l : log_entry) : appends_calls (logging l).
Proof. now apply appends_same. Qed.

Lemma appends_os_makedirs (w : world) (path : string) :
  appends_calls (os_makedirs w path).
Proof.
  apply appends_bind; [apply appends_record_call |]. intros _.
  apply appends_same. intros st. now destruct (makedirs_ok w path).
Qed.

Lemma appends_write_file (w : world) (path : string) (data : file_content) :
  appends_calls (write_file w path data).
Proof.
  apply appends_bind; [apply appends_record_call |]. intros _.
  apply appends_same. intros st. now destruct (open_ok w path).
Qed.

Lemma appends_download_media (w : world) (url : json) (file_name kind : string) :
  appends_calls (download_media w url file_name kind).
Proof.
  apply appends_bind; [apply appends_record_call |]. intros _.
  destruct (String.eqb kind "photo"); [| destruct (String.eqb kind "video")].
  - apply appends_try; [| intros e; apply appends_logging].
    apply appends_bind; [now apply appends_same |]. intros response.
    apply appends_bind; [now apply appends_same |]. intros _.
    apply appends_write_file.
  - apply appends_try; [| intros e; apply appends_logging].
    destruct (ytdlp w url file_name); [| now apply appends_same].
    apply appends_bind; [now apply appends_same |]. intros _.
    apply appends_logging.
  - apply appends_ret.
Qed.

#[local] Hint Resolve appends_ret appends_record_call appends_logging
  appends_os_makedirs appends_write_file appends_download_media : appends.

Lemma appends_download_all (w : world) (photos videos : string)
    (datas : list MediaRecord) :
  appends_calls (download_all w photos videos datas).
Proof.
  induction datas as [| r datas IH]; cbn [download_all]; [auto with appends |].
  apply appends_bind; [| intros _; exact IH].
  unfold download_one.
  destruct (py_eq (media_type r) (JStr "photo"));
    [| destruct (py_eq (media_type r) (JStr "video"))];
    auto with appends.
Qed.

#[local] Hint Resolve appends_download_all : appends.

Lemma io_bind_assoc {A B C} (m : M A) (f : A -> M B) (g : B -> M C) (st : state) :
  io_bind (io_bind m f) g st = io_bind m (fun a => io_bind (f a) g) st.
Proof. unfold io_bind. now destruct (m st) as [[a | e] st1]. Qed.

Lemma calls_after_record {A} (c : call) (k : M A) (st : state) :
  appends_calls k ->
  In c (calls (snd (io_bind (record_call c) (fun _ => k) st))).
Proof.
  intros H. unfold io_bind. cbn [record_call].
  match goal with |- context [k ?s] => destruct (H s) as [cs Hcs] end.
  rewrite Hcs. cbn [calls]. apply in_or_app. left. apply in_or_app. right. now left.
Qed.

Lemma save_media_calls_makedirs (w : world) (username : string)
    (datas : list MediaRecord) (st : state) :
  In (Makedirs ("medias/" +:+ username))
     (calls (snd (save_media w username datas st))).
Proof.
  unfold save_media, os_makedirs at 1.
  rewrite io_bind_assoc. apply calls_after_record.
  apply appends_bind.
  - apply appends_same. intros s. now destruct (makedirs_ok w _).
  - intros _.
    apply appends_bind; [auto with appends | intros _].
    apply appends_bind; [auto with appends | intros _].
    apply appends_bind; [auto with appends | intros _].
    auto with appends.
Qed.

(** C8, as amended. A response that reaches the entries, all of the
    documented shape and none qualifying (whatever the count, 0 included): the
    lister returns the empty list, [main] goes on to create the output
    directory, and when the operating system lets it, it ends with exit
    code 0 and an empty manifest. *)
Theorem empty_listing_is_not_failure (w : world) (argv : list string)
    (username : string) (count : Z) (user_id : json) (st st1 : state)
    (data : json) (entries : list json) :
  parsed argv username count ->
  get_user_id w username st = (Ok user_id, st1) ->
  user_id <> JNull ->
  replies_200 (api w "user-media" (media_query user_id count)) data ->
  lookup_path media_path data = Some (JList entries) ->
  Forall (fun e => conforms e = true /\ qualifying e = false) entries ->
  let media_folder := "medias/" +:+ username in
  fst (get_user_media w user_id count st1) = Ok (Some [])
  /\ In (Makedirs media_folder) (calls (snd (main w argv st)))
  /\ (makedirs_ok w media_folder = true ->
      makedirs_ok w (media_folder +:+ "/photos") = true ->
      makedirs_ok w (media_folder +:+ "/videos") = true ->
      open_ok w (media_folder +:+ "/data.json") = true ->
      exit_code (fst (main w argv st)) = 0
      /\ files (snd (main w argv st)) !! (media_folder +:+ "/data.json")
         = Some (JsonDump (JList []))).
Proof.
  intros Hargs Hid Hnn Hreply Hpath Hall media_folder.
  assert (Hconf : Forall (fun e => conforms e = true) entries)
    by (eapply List.Forall_impl; [| exact Hall]; now intros e [? _]).
  assert (Hnone : List.filter qualifying entries = []).
  { clear -Hall. induction Hall as [| e entries [_ Hq] _ IH]; [reflexivity |].
    cbn [List.filter]. now rewrite Hq. }
  destruct (entries_loop_conforms entries Hconf [] 1) as (recs & Hl & Hlen & _).
  rewrite Hnone in Hlen. destruct recs; [| discriminate]. clear Hlen.
  assert (Hrun : get_user_media w user_id count st1
                 = (Ok (Some []),
                    called (ApiCall "user-media" (media_query user_id count)) st1)).
  { rewrite (get_user_media_200 _ _ _ _ _ Hreply), (list_media_found _ _ _ Hpath).
    now rewrite Hl. }
  rewrite (main_reaches_save _ _ _ _ _ _ _ _ _ Hargs Hid Hnn Hrun), Hrun.
  split; [reflexivity |]. split; [apply save_media_calls_makedirs |].
  intros H1 H2 H3 H4.
  destruct (save_media_ok w username []
              (called (ApiCall "user-media" (media_query user_id count)) st1)
              (List.Forall_nil _) H1 H2 H3 H4)
    as (st3 & Hsave & Hfile & _).
  rewrite Hsave. split; [reflexivity | exact Hfile].
Qed.

Lemma make_request_error_status (w : world) (endpoint : string)
    (params : list (string * json)) (r : response) (st : state) :
  api w endpoint params = Got r ->
  response_ok r = false ->
  make_request w endpoint params st
  = (Ok (JNull, 500, Some (error_text r)),
     logged (RequestFailed (RequestException (error_text r)))
       (called (ApiCall endpoint params) st)).
Proof.
  intros Hr Hok. unfold make_request, io_bind. cbn [record_call].
  rewrite Hr. cbn [requests_get].
  unfold try_except, lift, raise_for_status. rewrite Hok. reflexivity.
Qed.

Lemma make_request_no_response (w : world) (endpoint : string)
    (params : list (string * json)) (err : string) (st : state) :
  api w endpoint params = NoResponse err ->
  make_request w endpoint params st
  = (Raise (UnboundLocalError "response"),
     logged (RequestFailed (RequestException err))
       (called (ApiCall endpoint params) st)).
Proof.
  intros Hr. unfold make_request, io_bind. cbn [record_call].
  rewrite Hr. reflexivity.
Qed.

(** C3. What [make_request] does on the two kinds of failure: a 404
    response comes back with status 500, because a response of failed
    status is false in [response.status_code if response else 500]; and
    a request that got no response at all raises [UnboundLocalError] from
    the handler, because [response] was never assigned. *)
Theorem make_request_misreports_failures :
  fst (make_request vendor_404 "user" [("username", JStr "alice")] initial)
  = Ok (JNull, 500, Some "404 Client Error: Not Found for url")
  /\ fst (make_request vendor_down "user" [("username", JStr "alice")] initial)
     = Raise (UnboundLocalError "response").
Proof.
  split.
  - now rewrite (make_request_error_status vendor_404 _ _ not_found).
  - now rewrite (make_request_no_response vendor_down _ _ "Connection refused").
Qed.

(** C5. The run [main.py -u alice -c 2] against a mocked API that lists
    one photo post and one video post, with media hosts that serve every
    URL: the video file and the two-element manifest are written, and no
    photo file is, because the photo record has no URL and its download
    fails. *)
Theorem alice_scenario_leaves_no_photo :
  let run := main (mock user_body (timeline [photo_entry; video_entry]))
                  (argv_alice "2") initial in
  fst run = Ok tt
  /\ size (files (snd run)) = 2%nat
  /\ files (snd run) !! "medias/alice/data.json"
     = Some (JsonDump (JList [record_json (photo_record 1);
                              record_json (video_record 2)]))
  /\ files (snd run) !! "medias/alice/videos/video_2.mp4" = Some (Bytes "MP4")
  /\ files (snd run) !! "medias/alice/photos/1.jpg" = None
  /\ log (snd run)
     = [DownloadFailed JNull (RequestException no_scheme);
        VideoDownloaded "medias/alice/videos/video_2.mp4"]
  /\ calls (snd run)
     = [ApiCall "user" [("username", JStr "alice")];
        ApiCall "user-media" [("user", JStr "42"); ("count", JInt 2)];
        Makedirs "medias/alice"; Makedirs "medias/alice/photos";
        Makedirs "medias/alice/videos";
        DownloadMedia JNull "medias/alice/photos/1.jpg" "photo";
        DownloadMedia (JStr "https://video.example/1200.mp4")
          "medias/alice/videos/video_2.mp4" "video";
        WriteFile "medias/alice/data.json"].
Proof.
  vm_compute. repeat split; reflexivity.
Qed.

(** ** Instances *)





(** C4, as amended, on a body that stops after [result], and on a
    timeline with an entry without fields between a photo and a video. *)
Lemma missing_path_is_absent_witness :
  let w := mock stub_body stub_body in
  let w' := mock user_body (timeline [photo_entry; bare_entry; video_entry]) in
  (exists e,
      get_user_id w "alice" initial
      = (Ok JNull,
         logged (UnexpectedFormat e)
           (called (ApiCall "user" [("username", JStr "alice")]) initial)))
  /\ (exists e,
      get_user_media w (JStr "42") 5 initial
      = (Ok None,
         logged (UnexpectedFormat e)
           (called (ApiCall "user-media" (media_query (JStr "42") 5)) initial)))
  /\ get_user_media w' (JStr "42") 5 initial
     = (Ok (Some [photo_record 1; video_record 2]),
        called (ApiCall "user-media" (media_query (JStr "42") 5)) initial).
Proof.
  intros w w'.
  destruct (missing_path_is_absent w initial stub_body) as (H1 & H2 & _).
  destruct (missing_path_is_absent w' initial
              (timeline [photo_entry; bare_entry; video_entry])) as (_ & _ & H3).
  split; [| split].
  - apply H1; [| reflexivity].
    exists (ok_response stub_body). repeat split; reflexivity.
  - apply H2; [| reflexivity].
    exists (ok_response stub_body). repeat split; reflexivity.
  - apply (H3 (JStr "42") 5 [photo_entry] bare_entry [video_entry]).
    + exists (ok_response (timeline [photo_entry; bare_entry; video_entry])).
      repeat split; reflexivity.
    + reflexivity.
    + left. reflexivity.
Defined.

(** C4, as stated, fails: an entry without [content] makes the lister
    return a list, not [None]. *)
Lemma skipped_entry_is_not_absence :
  ~ (forall data st, entry_field_absent data -> fst (list_media data st) = Ok None).
Proof.
  intros H. specialize (H (timeline [bare_entry]) initial).
  assert (Ha : entry_field_absent (timeline [bare_entry])).
  { exists [bare_entry], bare_entry.
    split; [reflexivity |]. split; [now left | reflexivity]. }
  apply H in Ha. vm_compute in Ha. discriminate Ha.
Qed.

Lemma parsed_alice (count : string) (n : Z) :
  py_int count = Ok n -> parsed (argv_alice count) "alice" n.
Proof.
  intros Hn. split; [| split].
  - exists "-u". split; reflexivity.
  - reflexivity.
  - intros st. unfold parse_count, try_except, lift. cbn. now rewrite Hn.
Qed.

(** C6, as amended, on a timeline of a gif, a photo and a video. *)
Lemma manifest_written_after_attempts_witness :
  let w := mock user_body (timeline [gif_entry; photo_entry; video_entry]) in
  exists st3,
    main w (argv_alice "3") initial = (Ok tt, st3)
    /\ files st3 !! "medias/alice/data.json"
       = Some (JsonDump (JList (map record_json
                 [gif_record 1; photo_record 2; video_record 3])))
    /\ calls st3
       = [ApiCall "user" [("username", JStr "alice")];
          ApiCall "user-media" (media_query (JStr "42") 3)]
         ++ [Makedirs "medias/alice"; Makedirs "medias/alice/photos";
             Makedirs "medias/alice/videos"]
         ++ flat_map (attempt_of "medias/alice/photos" "medias/alice/videos")
              [gif_record 1; photo_record 2; video_record 3]
         ++ [WriteFile "medias/alice/data.json"].
Proof.
  intros w.
  apply (manifest_written_after_attempts w (argv_alice "3") "alice" 3 (JStr "42")
           initial
           (called (ApiCall "user" [("username", JStr "alice")]) initial)
           (called (ApiCall "user-media" (media_query (JStr "42") 3))
              (called (ApiCall "user" [("username", JStr "alice")]) initial))
           [gif_record 1; photo_record 2; video_record 3]).
  - now apply parsed_alice.
  - reflexivity.
  - discriminate.
  - reflexivity.
  - reflexivity.
  - reflexivity.
  - reflexivity.
  - reflexivity.
Defined.

(** C6, as stated, fails: a record of type "animated_gif" is written to
    the manifest and no download was attempted for it. *)
Lemma gif_record_written_without_attempt :
  ~ manifest_records_attempted
      (snd (main (mock user_body (timeline [gif_entry])) (argv_alice "2") initial)).
Proof.
  intros H.
  destruct (H "medias/alice/data.json" [gif_record 1] (gif_record 1))
    as (file_name & kind & Hin).
  - vm_compute. reflexivity.
  - now left.
  - vm_compute in Hin.
    repeat (destruct Hin as [Hin | Hin]; [discriminate Hin |]).
    exact Hin.
Qed.

(** C7 on a vendor that answers 404 for alice and knows every other
    user. *)
Lemma resolver_failure_exits_before_output_witness :
  let w := without_user "alice" (mock user_body (timeline [photo_entry])) in
  let run := main w (argv_alice "2") initial in
  exit_code (fst run) = 1
  /\ dirs (snd run) = dirs initial
  /\ files (snd run) = files initial
  /\ forall c, In c (calls (snd run)) ->
               In c (calls initial)
               \/ c = ApiCall "user" [("username", JStr "alice")].
Proof.
  intros w.
  apply (resolver_failure_exits_before_output w (argv_alice "2") "alice"
           not_found initial).
  - reflexivity.
  - reflexivity.
  - discriminate.
Defined.

(** C8, as stated, fails: a response that reaches the entries and has no
    qualifying entry, but an entry whose [content] is null, makes the
    lister raise [AttributeError]; [main] ends with exit status 1 and
    never gets to create a directory. *)
Lemma null_content_ends_the_run :
  let entries := [JDict [("content", JNull)]] in
  let w := mock user_body (timeline entries) in
  let st1 := called (ApiCall "user" [("username", JStr "alice")]) initial in
  let run := main w (argv_alice "0") initial in
  lookup_path media_path (timeline entries) = Some (JList entries)
  /\ List.filter qualifying entries = []
  /\ fst (get_user_media w (JStr "42") 0 st1) = Raise AttributeError
  /\ exit_code (fst run) = 1
  /\ calls (snd run)
     = [ApiCall "user" [("username", JStr "alice")];
        ApiCall "user-media" (media_query (JStr "42") 0)]
  /\ dirs (snd run) = dirs initial.
Proof. repeat split. Qed.

(** C8, as amended, on a timeline of a cursor and a bare entry, with
    [-c 0]. *)
Lemma empty_listing_is_not_failure_witness :
  let w := mock user_body (timeline [cursor_entry; bare_entry]) in
  let st1 := called (ApiCall "user" [("username", JStr "alice")]) initial in
  fst (get_user_media w (JStr "42") 0 st1) = Ok (Some [])
  /\ In (Makedirs "medias/alice") (calls (snd (main w (argv_alice "0") initial)))
  /\ (makedirs_ok w "medias/alice" = true ->
      makedirs_ok w "medias/alice/photos" = true ->
      makedirs_ok w "medias/alice/videos" = true ->
      open_ok w "medias/alice/data.json" = true ->
      exit_code (fst (main w (argv_alice "0") initial)) = 0
      /\ files (snd (main w (argv_alice "0") initial)) !! "medias/alice/data.json"
         = Some (JsonDump (JList []))).
Proof.
  intros w st1.
  apply (empty_listing_is_not_failure w (argv_alice "0") "alice" 0 (JStr "42")
           initial st1 (timeline [cursor_entry; bare_entry])
           [cursor_entry; bare_entry]).
  - now apply parsed_alice.
  - reflexivity.
  - discriminate.
  - exists (ok_response (timeline [cursor_entry; bare_entry])).
    repeat split; reflexivity.
  - reflexivity.
  - repeat constructor.
Defined.

(** C9 on a timeline of a photo, a cursor, a gif and a video. *)
Lemma media_url_only_for_mp4_video_witness :
  let w := mock user_body
             (timeline [photo_entry; cursor_entry; gif_entry; video_entry]) in
  exists data found items,
    replies_200 (api w "user-media" (media_query (JStr "42") 5)) data
    /\ subscripts data media_path = Ok found
    /\ py_iter found = Ok items
    /\ Forall2 (fun entry r =>
         process_entry (id r) entry = Ok (Some r)
         /\ exists media0,
             first_media entry = Some media0
             /\ media_type r = or_null (field "type" media0)
             /\ (media_url r <> JNull ->
                 media_type r = JStr "video"
                 /\ exists v, In v (variants_of media0) /\ is_mp4 v = true
                              /\ field "url" v = Some (media_url r))
             /\ (media_type r <> JStr "video" -> media_url r = JNull))
         (List.filter qualifying items)
         [photo_record 1; gif_record 2; video_record 3].
Proof.
  intros w.
  apply (media_url_only_for_mp4_video w (JStr "42") 5 initial
           (called (ApiCall "user-media" (media_query (JStr "42") 5)) initial)).
  reflexivity.
Defined.

(** C10 on the counts 1 and 100. *)
Lemma count_does_not_shape_records_witness :
  let w := mock user_body (timeline [photo_entry; gif_entry; video_entry]) in
  fst (get_user_media w (JStr "42") 1 initial)
  = fst (get_user_media w (JStr "42") 100 initial)
  /\ log (snd (get_user_media w (JStr "42") 1 initial))
     = log (snd (get_user_media w (JStr "42") 100 initial)).
Proof.
  intros w.
  apply (count_does_not_shape_records w (JStr "42") 1 100 initial).
  reflexivity.
Defined.

(** * Further properties of the program *)

(** ** [make_request] *)

(** X1. When the API answers with a status that is no 4xx or 5xx and a JSON
    body, [make_request] returns the parsed body, the status of the
    response and no error, and logs nothing. *)
Theorem make_request_returns_body (w : world) (endpoint : string)
    (params : list (string * json)) (r : response) (data : json) (st : state) :
  api w endpoint params = Got r ->
  response_ok r = true ->
  decoded r = Body data ->
  make_request w endpoint params st
  = (Ok (data, status_code r, None), called (ApiCall endpoint params) st).
Proof.
  intros Hr Hok Hd. unfold make_request, io_bind, called. cbn [record_call snd].
  rewrite Hr. cbn [requests_get].
  unfold try_except, lift, raise_for_status, response_json.
  rewrite Hok, Hd. reflexivity.
Qed.

(** X1, an instance. *)
Lemma make_request_returns_body_witness :
  make_request (mock user_body (timeline [])) "user" [("username", JStr "alice")] initial
  = (Ok (user_body, 200, None),
     called (ApiCall "user" [("username", JStr "alice")]) initial).
Proof.
  apply (make_request_returns_body _ _ _ (ok_response user_body)); reflexivity.
Defined.

(** X2. When a response was received, [make_request] returns a triple and
    does not raise, but for one case: the status is fine and the decoder
    itself fails on the body, and then the [ValueError] or the
    [RecursionError] of the decoder reaches the caller with nothing
    logged.  In the triple the error is [None] exactly when the status
    is fine and the body decodes, and otherwise the body is [None] and
    the failure is logged once. *)
Theorem make_request_returns_when_answered (w : world) (endpoint : string)
    (params : list (string * json)) (r : response) (st : state) :
  api w endpoint params = Got r ->
  let run := make_request w endpoint params st in
  if response_ok r && decoder_fails r
  then (fst run = Raise ValueError \/ fst run = Raise RecursionError)
       /\ log (snd run) = log st
  else exists body status err,
      fst run = Ok (body, status, err)
      /\ (err = None <-> response_ok r = true /\ decoded r = Body body)
      /\ (err <> None ->
          body = JNull
          /\ log (snd run)
             = log st ++ [RequestFailed
                            (RequestException
                               match err with Some t => t | None => "" end)]).
Proof.
  intros Hr. unfold make_request, io_bind, decoder_fails. cbn [record_call].
  rewrite Hr. cbn [requests_get].
  unfold try_except, lift, raise_for_status, response_json.
  destruct (response_ok r) eqn:Hok; cbn.
  - destruct (decoded r) as [data | t | |] eqn:Hd; cbn; auto.
    + exists data, (status_code r), None.
      split; [reflexivity |]. split; [| intros H; now contradiction H]. tauto.
    + exists JNull, (status_code r), (Some t).
      split; [reflexivity |]. split; [| auto].
      split; [discriminate | intros [_ H]; discriminate H].
  - exists JNull, 500, (Some (error_text r)).
    split; [reflexivity |]. split; [| auto].
    split; [discriminate | intros [H _]; discriminate H].
Qed.

(** X2, an instance. *)
Lemma make_request_returns_when_answered_witness :
  let run := make_request vendor_404 "user" [("username", JStr "alice")] initial in
  exists body status err,
    fst run = Ok (body, status, err)
    /\ (err = None <-> response_ok not_found = true /\ decoded not_found = Body body)
    /\ (err <> None ->
        body = JNull
        /\ log (snd run)
           = log initial ++ [RequestFailed
                               (RequestException
                                  match err with Some t => t | None => "" end)]).
Proof.
  apply (make_request_returns_when_answered vendor_404 "user"
           [("username", JStr "alice")] not_found initial).
  reflexivity.
Defined.

(** ** [get_user_id] *)

(** X3. On a reply of status 200 whose body has the path
    [result.data.user.result.rest_id], [get_user_id] returns the value
    found there as it is, and logs nothing. *)
Theorem get_user_id_returns_rest_id (w : world) (username : string)
    (data v : json) (st : state) :
  replies_200 (api w "user" [("username", JStr username)]) data ->
  lookup_path user_path data = Some v ->
  get_user_id w username st
  = (Ok v, called (ApiCall "user" [("username", JStr username)]) st).
Proof.
  intros Hr Hv. rewrite (get_user_id_200 _ _ _ _ Hr).
  unfold find_user_id, try_except, lift.
  now rewrite (subscripts_lookup _ _ _ Hv).
Qed.

(** X3, an instance. *)
Lemma get_user_id_returns_rest_id_witness :
  get_user_id (mock user_body (timeline [])) "alice" initial
  = (Ok (JStr "42"), called (ApiCall "user" [("username", JStr "alice")]) initial).
Proof.
  apply (get_user_id_returns_rest_id _ _ user_body); [| reflexivity].
  exists (ok_response user_body). repeat split; reflexivity.
Defined.

Lemma subscripts_not_dict (names : list string) (k : string) (rest : list string)
    (data v : json) :
  lookup_path (keys names) data = Some v ->
  is_dict v = false ->
  subscripts data (keys (names ++ k :: rest)) = Raise TypeError.
Proof.
  revert data. induction names as [| n names IH]; intros data; cbn [app keys map].
  - cbn [lookup_path]. intros [= ->] Hv. cbn [subscripts].
    destruct v; try discriminate; reflexivity.
  - rewrite lookup_path_key. cbn [subscripts].
    destruct data; try discriminate. cbn [field py_subscript].
    destruct (dict_lookup n fields) as [d |]; [| discriminate].
    cbn [obind]. apply IH.
Qed.

(** X4. When a segment of the resolver path is there but holds something that
    is no object (null, a list, a string, a number), [get_user_id] raises
    [TypeError] to its caller: the handler is for [KeyError] only. *)
Theorem get_user_id_wrong_type_raises (w : world) (username : string)
    (data v : json) (before after : list string) (k : string) (st : state) :
  replies_200 (api w "user" [("username", JStr username)]) data ->
  ["result"; "data"; "user"; "result"; "rest_id"] = before ++ k :: after ->
  lookup_path (keys before) data = Some v ->
  is_dict v = false ->
  get_user_id w username st
  = (Raise TypeError, called (ApiCall "user" [("username", JStr username)]) st).
Proof.
  intros Hr Hsplit Hv Hd. rewrite (get_user_id_200 _ _ _ _ Hr).
  unfold find_user_id, try_except, lift, user_path.
  change [Key "result"; Key "data"; Key "user"; Key "result"; Key "rest_id"]
    with (keys ["result"; "data"; "user"; "result"; "rest_id"]).
  rewrite Hsplit, (subscripts_not_dict _ _ _ _ _ Hv Hd). reflexivity.
Qed.

(** X4, an instance. *)
Lemma get_user_id_wrong_type_raises_witness :
  let data := JDict [("result", JDict [("data", JNull)])] in
  get_user_id (mock data data) "alice" initial
  = (Raise TypeError, called (ApiCall "user" [("username", JStr "alice")]) initial).
Proof.
  intros data.
  apply (get_user_id_wrong_type_raises _ _ data JNull ["result"; "data"]
           ["result"; "rest_id"] "user").
  - exists (ok_response data). repeat split; reflexivity.
  - reflexivity.
  - reflexivity.
  - reflexivity.
Defined.

(** ** The command line *)

Lemma print_all_printed (lines : list string) (st : state) :
  print_all lines st = (Ok tt, printed lines st).
Proof.
  revert st. induction lines as [| l rest IH]; intros st; cbn [print_all].
  - unfold io_ret, printed. rewrite app_nil_r. now destruct st.
  - unfold io_bind. cbn [print]. rewrite IH. unfold printed. cbn.
    now rewrite <- app_assoc.
Qed.

(** X5. With fewer than three arguments, or a first argument that is no
    username flag, [main] prints the five lines of usage and exits with
    status 1; it calls nothing and logs nothing. *)
Theorem main_usage_error (w : world) (argv : list string) (st : state) :
  (length argv < 3)%nat
  \/ (forall flag, nth_error argv 1 = Some flag ->
                   among flag ["--username"; "-u"] = false) ->
  main w argv st = (Raise (SystemExit 1), printed usage st).
Proof.
  intros H. unfold main.
  assert (Hc : (length argv <? 3)%nat
               || negb match nth_error argv 1 with
                       | Some flag => among flag ["--username"; "-u"]
                       | None => false
                       end = true).
  { destruct H as [H | H].
    - apply Nat.ltb_lt in H. now rewrite H.
    - destruct (nth_error argv 1) as [flag |]; [| apply orb_true_r].
      rewrite (H flag eq_refl). apply orb_true_r. }
  rewrite Hc. unfold io_bind. now rewrite print_all_printed.
Qed.

(** X5, an instance. *)
Lemma main_usage_error_witness :
  main vendor_down ["main.py"; "alice"; "-u"] initial
  = (Raise (SystemExit 1), printed usage initial).
Proof.
  apply main_usage_error. right. intros flag [= <-]. reflexivity.
Defined.

Lemma username_given_args (argv : list string) (username : string) :
  username_given argv username ->
  (length argv <? 3)%nat
  || negb match nth_error argv 1 with
          | Some flag => among flag ["--username"; "-u"]
          | None => false
          end = false
  /\ argv_at argv 2 = Ok username.
Proof.
  intros ((flag & Hflag & Hamong) & Hname).
  rewrite Hflag, Hamong. unfold argv_at. rewrite Hname. split; [| reflexivity].
  rewrite orb_false_r. apply Nat.ltb_ge. apply (nth_error_Some argv 2). congruence.
Qed.

(** X6. With a count flag that is followed by nothing, or by something
    [int] rejects, [main] logs that the count must be an integer and
    exits with status 1 before any call to the API. *)
Theorem main_count_error (w : world) (argv : list string) (username : string)
    (st : state) :
  username_given argv username ->
  count_flag_given argv = true ->
  (forall a, nth_error argv 4 = Some a -> py_int a = Raise ValueError) ->
  main w argv st = (Raise (SystemExit 1), logged CountNotInteger st).
Proof.
  intros Hu Hflag Hbad. unfold main.
  destruct (username_given_args _ _ Hu) as [-> Hname].
  unfold io_bind at 1. unfold lift at 1. rewrite Hname.
  unfold io_bind at 1. unfold parse_count.
  unfold count_flag_given in Hflag.
  assert (Hlen : (3 <? length argv)%nat = true).
  { apply Nat.ltb_lt. apply (nth_error_Some argv 3).
    destruct (nth_error argv 3); [discriminate | discriminate Hflag]. }
  rewrite Hlen, Hflag. cbn [andb].
  unfold try_except, lift, argv_at.
  destruct (nth_error argv 4) as [a |] eqn:Ha; cbn [obind].
  - rewrite (Hbad a eq_refl). reflexivity.
  - reflexivity.
Qed.

(** X6, an instance: [int] does not take U+001C for a blank. *)
Lemma main_count_error_witness :
  main vendor_down (argv_alice separator_5) initial
  = (Raise (SystemExit 1), logged CountNotInteger initial).
Proof.
  apply (main_count_error vendor_down (argv_alice separator_5) "alice").
  - split; [exists "-u"; split; reflexivity | reflexivity].
  - reflexivity.
  - intros a [= <-]. reflexivity.
Defined.

Lemma parsed_default (argv : list string) (username : string) :
  username_given argv username ->
  count_flag_given argv = false ->
  parsed argv username 5.
Proof.
  intros Hu Hflag. destruct Hu as (Hf & Hname).
  split; [exact Hf |]. split; [exact Hname |].
  intros st. unfold parse_count. unfold count_flag_given in Hflag.
  rewrite Hflag, andb_false_r. reflexivity.
Qed.

Lemma parsed_count (argv : list string) (username a : string) (n : Z) :
  username_given argv username ->
  count_flag_given argv = true ->
  nth_error argv 4 = Some a ->
  py_int a = Ok n ->
  parsed argv username n.
Proof.
  intros Hu Hflag Ha Hn. destruct Hu as (Hf & Hname).
  split; [exact Hf |]. split; [exact Hname |].
  intros st. unfold parse_count. unfold count_flag_given in Hflag.
  assert (Hlen : (3 <? length argv)%nat = true).
  { apply Nat.ltb_lt. apply (nth_error_Some argv 3).
    destruct (nth_error argv 3); [discriminate | discriminate Hflag]. }
  rewrite Hlen, Hflag. cbn [andb].
  unfold try_except, lift, argv_at. rewrite Ha. cbn [obind]. now rewrite Hn.
Qed.

(** *** What the listing step asks the API *)

Lemma appends_lift {A} (o : outcome A) : appends_calls (lift o).
Proof. now apply appends_same. Qed.

Lemma appends_raise {A} (e : exn) : appends_calls (@io_raise A e).
Proof. now apply appends_same. Qed.

Lemma appends_list_media (data : json) : appends_calls (list_media data).
Proof.
  unfold list_media. apply appends_bind.
  - apply appends_try.
    + apply appends_bind; [apply appends_lift | intros; apply appends_ret].
    + intros e. apply appends_bind; [apply appends_logging | intros; apply appends_ret].
  - intros [entries |]; [| apply appends_ret].
    apply appends_bind; [apply appends_lift | intros items].
    apply appends_bind; [apply appends_lift | intros; apply appends_ret].
Qed.

Lemma appends_save_media (w : world) (username : string) (datas : list MediaRecord) :
  appends_calls (save_media w username datas).
Proof.
  unfold save_media. cbv zeta.
  apply appends_bind; [auto with appends | intros _].
  apply appends_bind; [auto with appends | intros _].
  apply appends_bind; [auto with appends | intros _].
  apply appends_bind; [auto with appends | intros _].
  auto with appends.
Qed.

Lemma get_user_media_first_call (w : world) (user_id : json) (count : Z)
    (st : state) :
  exists cs,
    calls (snd (get_user_media w user_id count st))
    = calls st ++ ApiCall "user-media" (media_query user_id count) :: cs.
Proof.
  assert (H : forall s, exists cs,
             calls (snd (get_user_media w user_id count s)) = calls s ++ cs
             /\ exists cs', cs = ApiCall "user-media" (media_query user_id count) :: cs').
  { intros s. unfold get_user_media, make_request.
    rewrite !io_bind_assoc. unfold io_bind at 1. cbn [record_call].
    match goal with |- context [snd (?k ?s0)] =>
      assert (Hk : appends_calls k); [| destruct (Hk s0) as [cs Hcs]] end.
    - apply appends_bind.
      + destruct (requests_get _) as [response | e].
        * apply appends_try; [apply appends_lift |].
          intros e. apply appends_bind; [apply appends_logging | intros; apply appends_ret].
        * destruct (is_RequestException e); [| apply appends_raise].
          apply appends_bind; [apply appends_logging | intros; apply appends_raise].
      + intros [[data status] text].
        destruct (negb (status =? 200)); [| apply appends_list_media].
        apply appends_bind; [apply appends_logging | intros; apply appends_ret].
    - eexists. split; [rewrite Hcs; cbn [calls]; rewrite <- app_assoc; reflexivity |].
      eexists. reflexivity. }
  destruct (H st) as (cs & Hcs & cs' & ->). now exists cs'.
Qed.

Lemma main_queries_count (w : world) (argv : list string) (username : string)
    (count : Z) (user_id : json) (st st1 : state) :
  parsed argv username count ->
  get_user_id w username st = (Ok user_id, st1) ->
  user_id <> JNull ->
  In (ApiCall "user-media" (media_query user_id count))
     (calls (snd (main w argv st))).
Proof.
  intros ((flag & Hflag & Hamong) & Hname & Hcount) Hid Hnn.
  unfold main. rewrite Hflag, Hamong.
  assert (Hlen : (length argv <? 3)%nat = false).
  { apply Nat.ltb_ge. apply (nth_error_Some argv 2). congruence. }
  rewrite Hlen. cbn [orb negb].
  unfold io_bind at 1 2 3. unfold lift, argv_at. rewrite Hname, Hcount, Hid.
  assert (Hgo : forall K : option (list MediaRecord) -> M unit,
             (forall o, appends_calls (K o)) ->
             In (ApiCall "user-media" (media_query user_id count))
                (calls (snd (io_bind (get_user_media w user_id count) K st1)))).
  { intros K HK. unfold io_bind.
    destruct (get_user_media_first_call w user_id count st1) as [cs Hcs].
    destruct (get_user_media w user_id count st1) as [[o | e] st2]; cbn [snd] in *.
    - destruct (HK o st2) as [cs' Hcs']. rewrite Hcs', Hcs.
      apply in_or_app. left. apply in_or_app. right. now left.
    - rewrite Hcs. apply in_or_app. right. now left. }
  destruct user_id; try contradiction; apply Hgo;
    (intros [datas |];
     [apply appends_save_media | apply (appends_raise (SystemExit 1))]).
Qed.

(** X7. Without a count flag in fourth place (a stray argument there is
    ignored), the media of the resolved user are asked for with count
    5. *)
Theorem default_count_is_five (w : world) (argv : list string)
    (username : string) (user_id : json) (st st1 : state) :
  username_given argv username ->
  count_flag_given argv = false ->
  get_user_id w username st = (Ok user_id, st1) ->
  user_id <> JNull ->
  In (ApiCall "user-media" [("user", user_id); ("count", JInt 5)])
     (calls (snd (main w argv st))).
Proof.
  intros Hu Hflag. apply main_queries_count. now apply parsed_default.
Qed.

(** X7, an instance. *)
Lemma default_count_is_five_witness :
  In (ApiCall "user-media" [("user", JStr "42"); ("count", JInt 5)])
     (calls (snd (main (mock user_body (timeline [])) ["main.py"; "-u"; "alice"; "7"]
                       initial))).
Proof.
  apply (default_count_is_five _ _ "alice" (JStr "42") initial
           (called (ApiCall "user" [("username", JStr "alice")]) initial)).
  - split; [exists "-u"; split; reflexivity | reflexivity].
  - reflexivity.
  - reflexivity.
  - discriminate.
Defined.

(** X8. The integer that [int] reads from the argument after the count flag
    is the count the media are asked for with. *)
Theorem count_argument_reaches_query (w : world) (argv : list string)
    (username a : string) (n : Z) (user_id : json) (st st1 : state) :
  username_given argv username ->
  count_flag_given argv = true ->
  nth_error argv 4 = Some a ->
  py_int a = Ok n ->
  get_user_id w username st = (Ok user_id, st1) ->
  user_id <> JNull ->
  In (ApiCall "user-media" [("user", user_id); ("count", JInt n)])
     (calls (snd (main w argv st))).
Proof.
  intros Hu Hflag Ha Hn. apply main_queries_count.
  now apply (parsed_count argv username a).
Qed.

(** X8, an instance: [int] reads the digits of every script. *)
Lemma count_argument_reaches_query_witness :
  In (ApiCall "user-media" [("user", JStr "42"); ("count", JInt 12)])
     (calls (snd (main (mock user_body (timeline [])) (argv_alice fullwidth_12)
                       initial))).
Proof.
  apply (count_argument_reaches_query _ _ "alice" fullwidth_12 12 (JStr "42") initial
           (called (ApiCall "user" [("username", JStr "alice")]) initial)).
  - split; [exists "-u"; split; reflexivity | reflexivity].
  - reflexivity.
  - reflexivity.
  - reflexivity.
  - reflexivity.
  - discriminate.
Defined.

(** ** [download_media] *)

(** X10. When the photo cannot be fetched (no response, or a 4xx or 5xx
    status), [download_media] returns normally, logs the failure and
    leaves the files as they were. *)
Theorem download_photo_failure_is_swallowed (w : world) (url : json)
    (file_name : string) (st : state) :
  (forall r, media_reply w url = Got r -> response_ok r = false) ->
  let run := download_media w url file_name "photo" st in
  fst run = Ok tt
  /\ files (snd run) = files st
  /\ (exists e, log (snd run) = log st ++ [DownloadFailed url e])
  /\ calls (snd run) = calls st ++ [DownloadMedia url file_name "photo"].
Proof.
  intros H. unfold download_media, io_bind, try_except, lift. cbn.
  destruct (media_reply w url) as [err | r]; cbn.
  - eauto 6.
  - unfold raise_for_status. rewrite (H r eq_refl). cbn. eauto 6.
Qed.

(** X10, an instance. *)
Lemma download_photo_failure_is_swallowed_witness :
  let run := download_media (mock user_body (timeline [])) JNull
               "medias/alice/photos/1.jpg" "photo" initial in
  fst run = Ok tt
  /\ files (snd run) = files initial
  /\ (exists e, log (snd run) = log initial ++ [DownloadFailed JNull e])
  /\ calls (snd run)
     = calls initial ++ [DownloadMedia JNull "medias/alice/photos/1.jpg" "photo"].
Proof.
  apply (download_photo_failure_is_swallowed (mock user_body (timeline [])) JNull).
  intros r H. discriminate H.
Defined.

(** X11. When the photo is fetched, [download_media] writes the body of the
    response to the file and logs nothing; if the file cannot be opened
    the [OSError] reaches the caller, since only request errors are
    caught. *)
Theorem download_photo_writes_content (w : world) (url : json)
    (file_name : string) (r : response) (st : state) :
  media_reply w url = Got r ->
  response_ok r = true ->
  let run := download_media w url file_name "photo" st in
  log (snd run) = log st
  /\ if open_ok w file_name
     then fst run = Ok tt
          /\ files (snd run) = <[file_name := Bytes (content r)]> (files st)
     else fst run = Raise (OSError file_name) /\ files (snd run) = files st.
Proof.
  intros Hr Hok. unfold download_media, io_bind, try_except, lift. cbn.
  rewrite Hr. cbn. unfold raise_for_status. rewrite Hok. cbn.
  unfold write_file, io_bind. cbn.
  destruct (open_ok w file_name); cbn; auto.
Qed.

(** X11, an instance. *)
Lemma download_photo_writes_content_witness :
  let w := mock user_body (timeline []) in
  let run := download_media w (JStr "https://photo.example/a.jpg")
               "medias/alice/photos/1.jpg" "photo" initial in
  log (snd run) = log initial
  /\ if open_ok w "medias/alice/photos/1.jpg"
     then fst run = Ok tt
          /\ files (snd run)
             = <["medias/alice/photos/1.jpg" := Bytes "JPEG"]> (files initial)
     else fst run = Raise (OSError "medias/alice/photos/1.jpg")
          /\ files (snd run) = files initial.
Proof.
  intros w.
  apply (download_photo_writes_content w (JStr "https://photo.example/a.jpg")
           "medias/alice/photos/1.jpg"
           {| status_code := 200; content := "JPEG";
              decoded := JSONDecodeError "not JSON"; error_text := "" |});
    reflexivity.
Defined.

(** ** The choice of a video URL, at its edges *)

Lemma declares_type_dict (v : json) : declares_type v = true -> is_dict v = true.
Proof. unfold declares_type. now destruct v. Qed.

Lemma filter_mp4_declared (vs : list json) :
  forallb declares_type vs = true ->
  filter_mp4 vs = Ok (List.filter is_mp4 vs).
Proof.
  induction vs as [| v rest IH]; cbn [forallb filter_mp4 List.filter]; [reflexivity |].
  intros H. apply andb_prop in H as [Hv Hrest]. rewrite (IH Hrest).
  unfold declares_type in Hv. unfold is_mp4.
  destruct v; try discriminate. cbn [field py_subscript] in *.
  destruct (dict_lookup "content_type" fields) as [ct |]; [| discriminate].
  cbn [obind]. now rewrite py_eq_str.
Qed.

Lemma select_media_url_variants (media0 : json) (vs : list json) :
  lookup_path (keys ["video_info"; "variants"]) media0 = Some (JList vs) ->
  select_media_url media0
  = (mp4 <- filter_mp4 vs ;;
     if truthy (JList mp4)
     then best <- py_max bitrate_key mp4 ;; py_subscript best (Key "url")
     else Ok JNull).
Proof.
  intros H. unfold select_media_url.
  assert (Hd : is_dict media0 = true).
  { cbn [keys map] in H. rewrite lookup_path_key in H.
    destruct media0; try discriminate. reflexivity. }
  rewrite (py_get_first "video_info" media0 Hd). cbn [obind].
  assert (Hvi : is_dict (descend ["video_info"] media0) = true).
  { cbn [keys map] in H. rewrite lookup_path_key in H. cbn [descend].
    destruct (field "video_info" media0) as [vi |]; [| discriminate].
    rewrite lookup_path_key in H. cbn [or_else].
    destruct vi; try discriminate. reflexivity. }
  rewrite (py_get_dict _ "variants" empty_list Hvi).
  rewrite (field_descend ["video_info"] "variants" media0). cbn [app].
  rewrite H. reflexivity.
Qed.

(** X12. When exactly one variant is mp4 its URL is chosen whatever its
    bitrate is, even null: [max] of one item compares nothing. *)
Theorem single_mp4_needs_no_bitrate (media0 : json) (vs : list json)
    (v url : json) :
  lookup_path (keys ["video_info"; "variants"]) media0 = Some (JList vs) ->
  forallb declares_type vs = true ->
  List.filter is_mp4 vs = [v] ->
  field "url" v = Some url ->
  select_media_url media0 = Ok url.
Proof.
  intros Hvs Hall Hone Hurl.
  rewrite (select_media_url_variants _ _ Hvs), (filter_mp4_declared _ Hall), Hone.
  cbn [obind truthy py_max].
  destruct v; try discriminate. cbn [field] in Hurl.
  unfold bitrate_key. cbn [py_get].
  destruct (dict_lookup "bitrate" fields); cbn [obind max_from py_subscript];
    now rewrite Hurl.
Qed.

(** X12, an instance. *)
Lemma single_mp4_needs_no_bitrate_witness :
  let v := JDict [("content_type", JStr "video/mp4"); ("bitrate", JNull);
                  ("url", JStr "https://video.example/only.mp4")] in
  let playlist := JDict [("content_type", JStr "application/x-mpegURL");
                         ("url", JStr "https://video.example/pl.m3u8")] in
  select_media_url
    (JDict [("type", JStr "video");
            ("video_info", JDict [("variants", JList [playlist; v])])])
  = Ok (JStr "https://video.example/only.mp4").
Proof.
  intros v playlist.
  apply (single_mp4_needs_no_bitrate _ [playlist; v] v); reflexivity.
Defined.

Lemma filter_mp4_undeclared (before after : list json) (v : json) :
  forallb declares_type before = true ->
  is_dict v = true ->
  field "content_type" v = None ->
  filter_mp4 (before ++ v :: after) = Raise (KeyError (Key "content_type")).
Proof.
  intros Hb Hd Hct.
  induction before as [| b before IH]; cbn [app filter_mp4].
  - destruct v; try discriminate. cbn [field] in Hct. cbn [py_subscript].
    now rewrite Hct.
  - cbn [forallb] in Hb. apply andb_prop in Hb as [Hb Hrest].
    unfold declares_type in Hb. destruct b; try discriminate.
    cbn [field py_subscript] in *.
    destruct (dict_lookup "content_type" fields); [| discriminate].
    cbn [obind]. now rewrite (IH Hrest).
Qed.

(** X13. A variant object without [content_type], after variants that declare
    theirs, makes the choice of the URL raise [KeyError]: the
    comprehension subscripts the key. *)
Theorem variant_without_content_type_raises (media0 : json)
    (before after : list json) (v : json) :
  lookup_path (keys ["video_info"; "variants"]) media0
  = Some (JList (before ++ v :: after)) ->
  forallb declares_type before = true ->
  is_dict v = true ->
  field "content_type" v = None ->
  select_media_url media0 = Raise (KeyError (Key "content_type")).
Proof.
  intros Hvs Hb Hd Hct.
  rewrite (select_media_url_variants _ _ Hvs).
  now rewrite (filter_mp4_undeclared _ _ _ Hb Hd Hct).
Qed.

(** X13, an instance. *)
Lemma variant_without_content_type_raises_witness :
  select_media_url
    (JDict [("type", JStr "video");
            ("video_info",
             JDict [("variants",
                     JList [variant "video/mp4" 500 "https://video.example/500.mp4";
                            JDict [("url", JStr "https://video.example/x.mp4")]])])])
  = Raise (KeyError (Key "content_type")).
Proof.
  apply (variant_without_content_type_raises _
           [variant "video/mp4" 500 "https://video.example/500.mp4"] []
           (JDict [("url", JStr "https://video.example/x.mp4")]));
    reflexivity.
Defined.

(** ** One entry that raises *)

Lemma entries_loop_raises (before after : list json) (entry : json) (e : exn) :
  Forall (fun x => conforms x = true) before ->
  (forall n, process_entry n entry = Raise e) ->
  forall acc n, entries_loop (before ++ entry :: after) acc n = Raise e.
Proof.
  intros Hb He. induction Hb as [| b before Hc _ IH]; intros acc n;
    cbn [app entries_loop].
  - now rewrite He.
  - pose proof (process_entry_conforms n b Hc) as Hp.
    destruct (qualifying b).
    + destruct Hp as (m0 & url & _ & Hp & _). rewrite Hp. cbn [obind]. apply IH.
    + rewrite Hp. cbn [obind]. apply IH.
Qed.

(** X14. If an entry raises, after entries of the documented shape,
    [get_user_media] raises the same exception: no record is returned,
    not even those of the entries before. *)
Theorem one_bad_entry_loses_the_listing (w : world) (user_id : json)
    (count : Z) (st : state) (data : json) (before after : list json)
    (entry : json) (e : exn) :
  replies_200 (api w "user-media" (media_query user_id count)) data ->
  lookup_path media_path data = Some (JList (before ++ entry :: after)) ->
  Forall (fun x => conforms x = true) before ->
  (forall n, process_entry n entry = Raise e) ->
  fst (get_user_media w user_id count st) = Raise e.
Proof.
  intros Hr Hp Hb He.
  rewrite (get_user_media_200 _ _ _ _ _ Hr), (list_media_found _ _ _ Hp).
  now rewrite (entries_loop_raises _ _ _ _ Hb He).
Qed.

(** X14, an instance. *)
Lemma one_bad_entry_loses_the_listing_witness :
  fst (get_user_media
         (mock user_body (timeline [photo_entry; JStr "promoted"; video_entry]))
         (JStr "42") 5 initial)
  = Raise AttributeError.
Proof.
  apply (one_bad_entry_loses_the_listing _ _ _ _
           (timeline [photo_entry; JStr "promoted"; video_entry])
           [photo_entry] [video_entry] (JStr "promoted")).
  - exists (ok_response (timeline [photo_entry; JStr "promoted"; video_entry])).
    repeat split; reflexivity.
  - reflexivity.
  - repeat constructor.
  - intros n. reflexivity.
Defined.

(** ** Relations that every step of the program keeps *)

Section Quiet.

(** The steps that leave the file system alone: the API calls, the
    parsing of the command line, the log and the standard output. *)
Variable R : state -> state -> Prop.
Hypothesis R_refl : forall st, R st st.
Hypothesis R_trans : forall a b c, R a b -> R b c -> R a c.
Hypothesis R_log : forall l st, R st (logged l st).
Hypothesis R_print : forall line st, R st (printed [line] st).
Hypothesis R_call : forall c st, R st (called c st).

Lemma respects_ret {A} (a : A) : respects R (io_ret a).
Proof using R_refl. intros st. apply R_refl. Qed.

Lemma respects_raise {A} (e : exn) : respects R (@io_raise A e).
Proof using R_refl. intros st. apply R_refl. Qed.

Lemma respects_lift {A} (o : outcome A) : respects R (lift o).
Proof using R_refl. intros st. apply R_refl. Qed.

Lemma respects_bind_val {A B} (m : M A) (f : A -> M B) :
  respects R m ->
  (forall a st st', m st = (Ok a, st') -> respects R (f a)) ->
  respects R (io_bind m f).
Proof using R_trans.
  intros Hm Hf st. unfold io_bind. specialize (Hm st).
  destruct (m st) as [[a | e] st1] eqn:Hrun; cbn [snd] in *; [| exact Hm].
  exact (R_trans _ _ _ Hm (Hf a st st1 Hrun st1)).
Qed.

Lemma respects_bind {A B} (m : M A) (f : A -> M B) :
  respects R m -> (forall a, respects R (f a)) -> respects R (io_bind m f).
Proof using R_trans. intros Hm Hf. apply respects_bind_val; auto. Qed.

Lemma respects_try {A} (body : M A) (catches : exn -> bool) (handler : exn -> M A) :
  respects R body -> (forall e, respects R (handler e)) ->
  respects R (try_except body catches handler).
Proof using R_trans.
  intros Hb Hh st. unfold try_except. specialize (Hb st).
  destruct (body st) as [[a | e] st1]; cbn [snd] in *; [exact Hb |].
  destruct (catches e); [| exact Hb].
  exact (R_trans _ _ _ Hb (Hh e st1)).
Qed.

Lemma respects_logging (l : log_entry) : respects R (logging l).
Proof using R_log. intros st. apply R_log. Qed.

Lemma respects_record_call (c : call) : respects R (record_call c).
Proof using R_call. intros st. apply R_call. Qed.

Lemma respects_print_all (lines : list string) : respects R (print_all lines).
Proof using R_refl R_trans R_print.
  induction lines as [| l rest IH]; cbn [print_all].
  - apply respects_ret.
  - apply respects_bind; [intros st; apply R_print | intros _; exact IH].
Qed.

Lemma respects_make_request (w : world) (endpoint : string)
    (params : list (string * json)) :
  respects R (make_request w endpoint params).
Proof using R_refl R_trans R_log R_call.
  unfold make_request.
  apply respects_bind; [apply respects_record_call | intros _].
  destruct (requests_get _) as [response | e].
  - apply respects_try; [apply respects_lift | intros e].
    apply respects_bind; [apply respects_logging | intros _; apply respects_ret].
  - destruct (is_RequestException e); [| apply respects_raise].
    apply respects_bind; [apply respects_logging | intros _; apply respects_raise].
Qed.

Lemma respects_list_media (data : json) : respects R (list_media data).
Proof using R_refl R_trans R_log.
  unfold list_media. apply respects_bind.
  - apply respects_try.
    + apply respects_bind; [apply respects_lift | intros; apply respects_ret].
    + intros e. apply respects_bind; [apply respects_logging | intros; apply respects_ret].
  - intros [entries |]; [| apply respects_ret].
    apply respects_bind; [apply respects_lift | intros items].
    apply respects_bind; [apply respects_lift | intros; apply respects_ret].
Qed.

Lemma respects_get_user_media (w : world) (user_id : json) (count : Z) :
  respects R (get_user_media w user_id count).
Proof using R_refl R_trans R_log R_call.
  unfold get_user_media.
  apply respects_bind; [apply respects_make_request | intros [[data status] text]].
  destruct (negb (status =? 200)); [| apply respects_list_media].
  apply respects_bind; [apply respects_logging | intros; apply respects_ret].
Qed.

Lemma respects_get_user_id (w : world) (username : string) :
  respects R (get_user_id w username).
Proof using R_refl R_trans R_log R_call.
  unfold get_user_id.
  apply respects_bind; [apply respects_make_request | intros [[data status] text]].
  destruct (negb (status =? 200)).
  - apply respects_bind; [apply respects_logging | intros; apply respects_ret].
  - unfold find_user_id. apply respects_try; [apply respects_lift | intros e].
    apply respects_bind; [apply respects_logging | intros; apply respects_ret].
Qed.

Lemma respects_parse_count (argv : list string) : respects R (parse_count argv).
Proof using R_refl R_trans R_log.
  unfold parse_count. destruct (_ && _); [| apply respects_ret].
  apply respects_try; [apply respects_lift | intros e].
  apply respects_bind; [apply respects_logging | intros; apply respects_raise].
Qed.

End Quiet.

Section Writing.

(** The downloads: they may write the files in [W]. *)
Variable R : state -> state -> Prop.
Variable W : string -> Prop.
Hypothesis R_refl : forall st, R st st.
Hypothesis R_trans : forall a b c, R a b -> R b c -> R a c.
Hypothesis R_log : forall l st, R st (logged l st).
Hypothesis R_call : forall c st, R st (called c st).
Hypothesis R_file : forall path data st, W path -> R st (written path data st).

Lemma respects_write_file (w : world) (path : string) (data : file_content) :
  W path -> respects R (write_file w path data).
Proof using All.
  intros HW. unfold write_file.
  apply (respects_bind R R_trans); [intros st; apply R_call | intros _].
  intros st. destruct (open_ok w path); [now apply R_file | apply R_refl].
Qed.

Lemma respects_download_video (w : world) (url : json) (file_name : string) :
  W file_name -> respects R (download_media w url file_name "video").
Proof using All.
  intros HW. unfold download_media.
  apply (respects_bind R R_trans); [intros st; apply R_call | intros _].
  cbn [String.eqb Ascii.eqb Bool.eqb andb].
  apply (respects_try R R_trans); [| intros e st; apply R_log].
  destruct (ytdlp w url file_name) as [bytes |]; [| apply (respects_raise R R_refl)].
  apply (respects_bind R R_trans); [intros st; now apply R_file | intros _].
  intros st. apply R_log.
Qed.

(** A photo without a URL is never written. *)
Lemma respects_download_photo_null (w : world) (file_name : string) :
  respects R (download_media w JNull file_name "photo").
Proof using R_refl R_trans R_log R_call.
  unfold download_media.
  apply (respects_bind R R_trans); [intros st; apply R_call | intros _].
  cbn [String.eqb Ascii.eqb Bool.eqb andb].
  apply (respects_try R R_trans); [| intros e st; apply R_log].
  cbn [media_reply requests_get]. intros st. apply R_refl.
Qed.

Lemma respects_download_all (w : world) (username : string)
    (datas : list MediaRecord) :
  Forall url_only_for_video datas ->
  (forall n, W (video_path username n)) ->
  respects R (download_all w (("medias/" +:+ username) +:+ "/photos")
                (("medias/" +:+ username) +:+ "/videos") datas).
Proof using All.
  intros Hall HW. induction Hall as [| r datas Hr _ IH]; cbn [download_all].
  - apply (respects_ret R R_refl).
  - apply (respects_bind R R_trans); [| intros _; exact IH].
    unfold download_one. rewrite !py_eq_str.
    destruct (is_str "photo" (Some (media_type r))) eqn:Hp.
    + apply is_str_eq in Hp. injection Hp as Hp.
      rewrite Hr by (rewrite Hp; discriminate).
      apply respects_download_photo_null.
    + destruct (is_str "video" (Some (media_type r))).
      * apply respects_download_video. apply HW.
      * apply (respects_ret R R_refl).
Qed.

End Writing.

Section Whole.

(** The whole of [main]: it also creates directories. *)
Variable R : state -> state -> Prop.
Variable W : string -> Prop.
Hypothesis R_refl : forall st, R st st.
Hypothesis R_trans : forall a b c, R a b -> R b c -> R a c.
Hypothesis R_log : forall l st, R st (logged l st).
Hypothesis R_print : forall line st, R st (printed [line] st).
Hypothesis R_call : forall c st, R st (called c st).
Hypothesis R_file : forall path data st, W path -> R st (written path data st).
Hypothesis R_dirs : forall ds st, R st (made_dirs ds st).

Lemma respects_os_makedirs (w : world) (path : string) :
  respects R (os_makedirs w path).
Proof using R_refl R_trans R_call R_dirs.
  unfold os_makedirs.
  apply (respects_bind R R_trans); [intros st; apply R_call | intros _].
  intros st. destruct (makedirs_ok w path); [apply R_dirs | apply R_refl].
Qed.

Lemma respects_save_media (w : world) (username : string)
    (datas : list MediaRecord) :
  Forall url_only_for_video datas ->
  (forall path, output_path username path -> W path) ->
  respects R (save_media w username datas).
Proof using R_refl R_trans R_log R_call R_file R_dirs.
  intros Hall HW. unfold save_media. cbv zeta.
  apply (respects_bind R R_trans); [apply respects_os_makedirs | intros _].
  apply (respects_bind R R_trans); [apply respects_os_makedirs | intros _].
  apply (respects_bind R R_trans); [apply respects_os_makedirs | intros _].
  apply (respects_bind R R_trans); [| intros _].
  - apply (respects_download_all R W); auto.
    intros n. apply HW. right. now exists n.
  - apply (respects_write_file R W); auto. apply HW. now left.
Qed.

Lemma respects_main (w : world) (argv : list string) :
  (forall username path,
      nth_error argv 2 = Some username -> output_path username path -> W path) ->
  respects R (main w argv).
Proof using All.
  intros HW. unfold main.
  destruct (_ || _).
  - apply (respects_bind R R_trans); [now apply respects_print_all | intros _].
    apply (respects_raise R R_refl).
  - apply (respects_bind_val R R_trans); [apply (respects_lift R R_refl) |].
    intros username st0 st0' Hname. unfold lift, argv_at in Hname.
    destruct (nth_error argv 2) as [u |] eqn:Hu; [| discriminate].
    injection Hname as -> _.
    apply (respects_bind R R_trans); [now apply respects_parse_count | intros count].
    apply (respects_bind R R_trans); [now apply respects_get_user_id | intros user_id].
    assert (Hrest : respects R
              (io_bind (get_user_media w user_id count)
                 (fun datas => match datas with
                               | Some datas => save_media w username datas
                               | None => sys_exit 1
                               end))).
    { apply (respects_bind_val R R_trans); [now apply respects_get_user_media |].
      intros [datas |] st1 st2 Hrun; [| apply (respects_raise R R_refl)].
      apply respects_save_media; [| intros path; exact (HW username path eq_refl)].
      exact (listed_records_null _ _ _ _ _ _ Hrun). }
    destruct user_id; try exact Hrest. apply (respects_raise R R_refl).
Qed.

End Whole.

(** ** No part of the data handling ends the process *)

Lemma ordinary_Ok {A} (a : A) : ordinary (Ok a).
Proof. intros e H. discriminate H. Qed.

Lemma ordinary_Raise {A} (e : exn) : is_Exception e = true -> ordinary (@Raise A e).
Proof. intros He e' [= <-]. exact He. Qed.

Lemma ordinary_bind {A B} (m : outcome A) (f : A -> outcome B) :
  ordinary m -> (forall a, ordinary (f a)) -> ordinary (obind m f).
Proof.
  intros Hm Hf. destruct m as [a | e]; cbn [obind]; [apply Hf |].
  intros e' [= <-]. now apply Hm.
Qed.

Lemma ordinary_py_get (obj : json) (k : string) (d : json) : ordinary (py_get obj k d).
Proof.
  destruct obj; cbn [py_get]; try (now apply ordinary_Raise).
  destruct (dict_lookup k fields); apply ordinary_Ok.
Qed.

Lemma ordinary_py_subscript (obj : json) (k : pykey) : ordinary (py_subscript obj k).
Proof.
  destruct obj, k; cbn [py_subscript]; try (now apply ordinary_Raise).
  - destruct (str_index s i); [apply ordinary_Ok | now apply ordinary_Raise].
  - destruct (nth_error items i); [apply ordinary_Ok | now apply ordinary_Raise].
  - destruct (dict_lookup k fields); [apply ordinary_Ok | now apply ordinary_Raise].
Qed.

Lemma ordinary_py_iter (obj : json) : ordinary (py_iter obj).
Proof. destruct obj; cbn [py_iter]; try apply ordinary_Ok; now apply ordinary_Raise. Qed.

Lemma ordinary_py_gt : forall a b : json, ordinary (py_gt a b).
Proof.
  fix IH 1. intros a b.
  destruct a as [| x | x | x | s | xs | kv], b as [| y | y | y | t | ys | kw];
    try (cbn; first [apply ordinary_Ok | now apply ordinary_Raise]).
  cbn [py_gt]. revert ys.
  induction xs as [| x xs IHxs]; intros ys.
  - apply ordinary_Ok.
  - destruct ys as [| y ys]; [apply ordinary_Ok |].
    destruct (py_eq x y); [apply IHxs | apply IH].
Qed.

Lemma ordinary_max_from (key : json -> outcome json) (rest : list json) :
  (forall x, ordinary (key x)) ->
  forall best bestk, ordinary (max_from key best bestk rest).
Proof.
  intros Hkey. induction rest as [| y rest IH]; intros best bestk; cbn [max_from].
  - apply ordinary_Ok.
  - apply ordinary_bind; [apply Hkey | intros ky].
    apply ordinary_bind; [apply ordinary_py_gt | intros c].
    destruct c; apply IH.
Qed.

Lemma ordinary_filter_mp4 (vs : list json) : ordinary (filter_mp4 vs).
Proof.
  induction vs as [| v rest IH]; cbn [filter_mp4]; [apply ordinary_Ok |].
  apply ordinary_bind; [apply ordinary_py_subscript | intros ct].
  apply ordinary_bind; [exact IH | intros tl; apply ordinary_Ok].
Qed.

Lemma ordinary_select_media_url (media0 : json) : ordinary (select_media_url media0).
Proof.
  unfold select_media_url.
  apply ordinary_bind; [apply ordinary_py_get | intros vi].
  apply ordinary_bind; [apply ordinary_py_get | intros variants].
  apply ordinary_bind.
  - unfold mp4_variants.
    apply ordinary_bind; [apply ordinary_py_iter | intros vs; apply ordinary_filter_mp4].
  - intros mp4. destruct (truthy (JList mp4)); [| apply ordinary_Ok].
    apply ordinary_bind; [| intros best; apply ordinary_py_subscript].
    destruct mp4 as [| x rest]; cbn [py_max]; [now apply ordinary_Raise |].
    apply ordinary_bind; [apply ordinary_py_get | intros kx].
    apply ordinary_max_from. intros y. apply ordinary_py_get.
Qed.

Lemma ordinary_process_entry (n : Z) (entry : json) : ordinary (process_entry n entry).
Proof.
  unfold process_entry.
  apply ordinary_bind; [apply ordinary_py_get | intros content].
  apply ordinary_bind; [apply ordinary_py_get | intros entry_type].
  destruct (negb _); [apply ordinary_Ok |].
  do 6 (apply ordinary_bind; [apply ordinary_py_get | intros ?]).
  destruct (negb _); [apply ordinary_Ok |].
  apply ordinary_bind; [apply ordinary_py_subscript | intros media0].
  apply ordinary_bind; [apply ordinary_py_get | intros mtype].
  apply ordinary_bind.
  - destruct (py_eq mtype (JStr "video")); [| apply ordinary_Ok].
    apply ordinary_bind; [apply ordinary_py_subscript | intros m].
    apply ordinary_select_media_url.
  - intros murl.
    do 4 (apply ordinary_bind; [apply ordinary_py_get | intros ?]).
    apply ordinary_Ok.
Qed.

Lemma ordinary_entries_loop (entries : list json) :
  forall acc n, ordinary (entries_loop entries acc n).
Proof.
  induction entries as [| e rest IH]; intros acc n; cbn [entries_loop].
  - apply ordinary_Ok.
  - apply ordinary_bind; [apply ordinary_process_entry | intros [r |]; apply IH].
Qed.

Lemma ordinary_subscripts (path : list pykey) : forall obj, ordinary (subscripts obj path).
Proof.
  induction path as [| k rest IH]; intros obj; cbn [subscripts].
  - apply ordinary_Ok.
  - apply ordinary_bind; [apply ordinary_py_subscript | intros v; apply IH].
Qed.

Lemma ordinary_py_int (s : string) : ordinary (py_int s).
Proof.
  destruct (py_int_cases s) as [[z ->] | ->];
    [apply ordinary_Ok | now apply ordinary_Raise].
Qed.

Lemma ordinary_argv_at (argv : list string) (i : nat) : ordinary (argv_at argv i).
Proof.
  unfold argv_at.
  destruct (nth_error argv i); [apply ordinary_Ok | now apply ordinary_Raise].
Qed.

(** ** The process ends with status 0 or 1 *)

Lemma exits_ret {A} (a : A) : exits_with_1 (io_ret a).
Proof. intros st e H. discriminate H. Qed.

Lemma exits_sys_exit {A} : exits_with_1 (@sys_exit A 1).
Proof. intros st e [= <-]. now left. Qed.

Lemma exits_raise {A} (e : exn) : is_Exception e = true -> exits_with_1 (@io_raise A e).
Proof. intros He st e' [= <-]. now right. Qed.

Lemma exits_lift {A} (o : outcome A) : ordinary o -> exits_with_1 (lift o).
Proof. intros Ho st e H. right. now apply Ho. Qed.

Lemma exits_total {A} (m : M A) :
  (forall st, exists a, fst (m st) = Ok a) -> exits_with_1 m.
Proof. intros H st e He. destruct (H st) as [a Ha]. congruence. Qed.

Lemma exits_bind {A B} (m : M A) (f : A -> M B) :
  exits_with_1 m -> (forall a, exits_with_1 (f a)) -> exits_with_1 (io_bind m f).
Proof.
  intros Hm Hf st e. unfold io_bind. specialize (Hm st).
  destruct (m st) as [[a | e'] st1]; cbn [fst] in *.
  - apply Hf.
  - intros [= <-]. now apply Hm.
Qed.

Lemma exits_try {A} (body : M A) (catches : exn -> bool) (handler : exn -> M A) :
  exits_with_1 body -> (forall e, exits_with_1 (handler e)) ->
  exits_with_1 (try_except body catches handler).
Proof.
  intros Hb Hh st e. unfold try_except. specialize (Hb st).
  destruct (body st) as [[a | e'] st1]; cbn [fst] in *; [discriminate |].
  destruct (catches e'); [apply Hh |].
  intros [= <-]. now apply Hb.
Qed.

Lemma exits_logging (l : log_entry) : exits_with_1 (logging l).
Proof. apply exits_total. intros st. now exists tt. Qed.

Lemma exits_record_call (c : call) : exits_with_1 (record_call c).
Proof. apply exits_total. intros st. now exists tt. Qed.

Lemma exits_print_all (lines : list string) : exits_with_1 (print_all lines).
Proof.
  apply exits_total. intros st. exists tt. now rewrite print_all_printed.
Qed.

Lemma exits_os_makedirs (w : world) (path : string) : exits_with_1 (os_makedirs w path).
Proof.
  unfold os_makedirs. apply exits_bind; [apply exits_record_call | intros _].
  intros st e. destruct (makedirs_ok w path); [discriminate |].
  intros [= <-]. now right.
Qed.

Lemma exits_write_file (w : world) (path : string) (data : file_content) :
  exits_with_1 (write_file w path data).
Proof.
  unfold write_file. apply exits_bind; [apply exits_record_call | intros _].
  intros st e. destruct (open_ok w path); [discriminate |].
  intros [= <-]. now right.
Qed.

Lemma exits_make_request (w : world) (endpoint : string)
    (params : list (string * json)) :
  exits_with_1 (make_request w endpoint params).
Proof.
  unfold make_request. apply exits_bind; [apply exits_record_call | intros _].
  destruct (api w endpoint params) as [err | r]; cbn [requests_get is_RequestException].
  - apply exits_bind; [apply exits_logging | intros _]. now apply exits_raise.
  - apply exits_try.
    + apply exits_lift.
      apply ordinary_bind.
      * unfold raise_for_status.
        destruct (response_ok r); [apply ordinary_Ok | now apply ordinary_Raise].
      * intros _. apply ordinary_bind; [| intros body; apply ordinary_Ok].
        unfold response_json.
        destruct (decoded r); first [apply ordinary_Ok | now apply ordinary_Raise].
    + intros e. apply exits_bind; [apply exits_logging | intros _; apply exits_ret].
Qed.

Lemma exits_list_media (data : json) : exits_with_1 (list_media data).
Proof.
  unfold list_media. apply exits_bind.
  - apply exits_try.
    + apply exits_bind; [| intros; apply exits_ret].
      apply exits_lift, ordinary_subscripts.
    + intros e. apply exits_bind; [apply exits_logging | intros; apply exits_ret].
  - intros [entries |]; [| apply exits_ret].
    apply exits_bind; [apply exits_lift, ordinary_py_iter | intros items].
    apply exits_bind; [apply exits_lift, ordinary_entries_loop | intros; apply exits_ret].
Qed.

Lemma exits_get_user_media (w : world) (user_id : json) (count : Z) :
  exits_with_1 (get_user_media w user_id count).
Proof.
  unfold get_user_media.
  apply exits_bind; [apply exits_make_request | intros [[data status] text]].
  destruct (negb (status =? 200)); [| apply exits_list_media].
  apply exits_bind; [apply exits_logging | intros; apply exits_ret].
Qed.

Lemma exits_get_user_id (w : world) (username : string) :
  exits_with_1 (get_user_id w username).
Proof.
  unfold get_user_id.
  apply exits_bind; [apply exits_make_request | intros [[data status] text]].
  destruct (negb (status =? 200)).
  - apply exits_bind; [apply exits_logging | intros; apply exits_ret].
  - unfold find_user_id. apply exits_try; [apply exits_lift, ordinary_subscripts |].
    intros e. apply exits_bind; [apply exits_logging | intros; apply exits_ret].
Qed.

Lemma exits_download_media (w : world) (url : json) (file_name kind : string) :
  exits_with_1 (download_media w url file_name kind).
Proof.
  unfold download_media. apply exits_bind; [apply exits_record_call | intros _].
  destruct (String.eqb kind "photo"); [| destruct (String.eqb kind "video")].
  - apply exits_try; [| intros e; apply exits_logging].
    apply exits_bind; [| intros response].
    + apply exits_lift. destruct (media_reply w url); cbn [requests_get];
        [now apply ordinary_Raise | apply ordinary_Ok].
    + apply exits_bind; [| intros _; apply exits_write_file].
      apply exits_lift. unfold raise_for_status.
      destruct (response_ok response); [apply ordinary_Ok | now apply ordinary_Raise].
  - apply exits_try; [| intros e; apply exits_logging].
    destruct (ytdlp w url file_name); [| now apply exits_raise].
    apply exits_bind; [| intros _; apply exits_logging].
    apply exits_total. intros st. now exists tt.
  - apply exits_ret.
Qed.

Lemma exits_download_all (w : world) (photos videos : string)
    (datas : list MediaRecord) :
  exits_with_1 (download_all w photos videos datas).
Proof.
  induction datas as [| r datas IH]; cbn [download_all]; [apply exits_ret |].
  apply exits_bind; [| intros _; exact IH].
  unfold download_one.
  destruct (py_eq (media_type r) (JStr "photo"));
    [| destruct (py_eq (media_type r) (JStr "video"))];
    auto using exits_download_media, exits_ret.
Qed.

Lemma exits_save_media (w : world) (username : string) (datas : list MediaRecord) :
  exits_with_1 (save_media w username datas).
Proof.
  unfold save_media. cbv zeta.
  do 3 (apply exits_bind; [apply exits_os_makedirs | intros _]).
  apply exits_bind; [apply exits_download_all | intros _].
  apply exits_write_file.
Qed.

Lemma exits_parse_count (argv : list string) : exits_with_1 (parse_count argv).
Proof.
  unfold parse_count. destruct (_ && _); [| apply exits_ret].
  apply exits_try.
  - apply exits_lift.
    apply ordinary_bind; [apply ordinary_argv_at | intros a; apply ordinary_py_int].
  - intros e. apply exits_bind; [apply exits_logging | intros _; apply exits_sys_exit].
Qed.

Lemma exits_main (w : world) (argv : list string) : exits_with_1 (main w argv).
Proof.
  unfold main. destruct (_ || _).
  - apply exits_bind; [apply exits_print_all | intros _; apply exits_sys_exit].
  - apply exits_bind; [apply exits_lift, ordinary_argv_at | intros username].
    apply exits_bind; [apply exits_parse_count | intros count].
    apply exits_bind; [apply exits_get_user_id | intros user_id].
    assert (Hrest : exits_with_1
              (io_bind (get_user_media w user_id count)
                 (fun datas => match datas with
                               | Some datas => save_media w username datas
                               | None => sys_exit 1
                               end))).
    { apply exits_bind; [apply exits_get_user_media |].
      intros [datas |]; [apply exits_save_media | apply exits_sys_exit]. }
    destruct user_id; try exact Hrest. apply exits_sys_exit.
Qed.


(** ** Failures before the output step *)

Lemma same_fs_refl (st : state) : same_fs st st.
Proof. now split. Qed.

Lemma same_fs_trans (a b c : state) : same_fs a b -> same_fs b c -> same_fs a c.
Proof. intros [H1 H2] [H3 H4]. split; congruence. Qed.

Lemma get_user_id_same_fs (w : world) (username : string) (st : state) :
  same_fs st (snd (get_user_id w username st)).
Proof.
  apply (respects_get_user_id same_fs same_fs_refl same_fs_trans);
    intros; now split.
Qed.

Lemma get_user_media_same_fs (w : world) (user_id : json) (count : Z) (st : state) :
  same_fs st (snd (get_user_media w user_id count st)).
Proof.
  apply (respects_get_user_media same_fs same_fs_refl same_fs_trans);
    intros; now split.
Qed.

Lemma main_after_args (w : world) (argv : list string) (username : string)
    (count : Z) (st : state) :
  parsed argv username count ->
  main w argv st
  = io_bind (get_user_id w username)
      (fun user_id =>
         match user_id with
         | JNull => sys_exit 1
         | _ =>
             io_bind (get_user_media w user_id count)
               (fun datas => match datas with
                             | Some datas => save_media w username datas
                             | None => sys_exit 1
                             end)
         end) st.
Proof.
  intros ((flag & Hflag & Hamong) & Hname & Hcount).
  unfold main. rewrite Hflag, Hamong.
  assert (Hlen : (length argv <? 3)%nat = false).
  { apply Nat.ltb_ge. apply (nth_error_Some argv 2). congruence. }
  rewrite Hlen. cbn [orb negb].
  unfold io_bind at 1 2. unfold lift, argv_at. now rewrite Hname, Hcount.
Qed.

Lemma exit_code_not_Ok {A} (m : M A) (st : state) :
  exits_with_1 m ->
  (forall a, fst (m st) <> Ok a) ->
  exit_code (fst (m st)) = 1.
Proof.
  intros Hm Hno. specialize (Hm st).
  destruct (fst (m st)) as [a | e]; [now contradiction (Hno a) |].
  destruct (Hm e eq_refl) as [-> | He]; [reflexivity |].
  destruct e; try reflexivity. discriminate He.
Qed.

(** X16. When the resolver gives no id (it returns [None], as for a null
    [rest_id], or raises), [main] ends with status 1 and the directories
    and files are as before. *)
Theorem resolver_without_id_exits (w : world) (argv : list string)
    (username : string) (count : Z) (st : state) :
  parsed argv username count ->
  (forall v, fst (get_user_id w username st) = Ok v -> v = JNull) ->
  exit_code (fst (main w argv st)) = 1
  /\ same_fs st (snd (main w argv st)).
Proof.
  intros Hargs Hnull.
  pose proof (get_user_id_same_fs w username st) as Hfs.
  split.
  - apply exit_code_not_Ok; [apply exits_main |].
    rewrite (main_after_args _ _ _ _ _ Hargs). unfold io_bind.
    destruct (get_user_id w username st) as [[v | e] st1]; cbn [fst] in *;
      [| discriminate].
    rewrite (Hnull v eq_refl). discriminate.
  - rewrite (main_after_args _ _ _ _ _ Hargs). unfold io_bind.
    destruct (get_user_id w username st) as [[v | e] st1]; cbn [fst snd] in *;
      [| exact Hfs].
    now rewrite (Hnull v eq_refl).
Qed.

(** X16, an instance. *)
Lemma resolver_without_id_exits_witness :
  let body := JDict [("result",
                JDict [("data",
                  JDict [("user", JDict [("result", JDict [("rest_id", JNull)])])])])] in
  let w := mock body (timeline [video_entry]) in
  exit_code (fst (main w (argv_alice "2") initial)) = 1
  /\ same_fs initial (snd (main w (argv_alice "2") initial)).
Proof.
  intros body w.
  apply (resolver_without_id_exits w (argv_alice "2") "alice" 2 initial).
  - now apply parsed_alice.
  - intros v H. vm_compute in H. now injection H as <-.
Defined.

(** X17. When the listing gives no list (it returns [None] or raises), [main]
    ends with status 1 and the directories and files are as before. *)
Theorem listing_failure_exits_before_output (w : world) (argv : list string)
    (username : string) (count : Z) (user_id : json) (st st1 : state) :
  parsed argv username count ->
  get_user_id w username st = (Ok user_id, st1) ->
  user_id <> JNull ->
  (forall datas, fst (get_user_media w user_id count st1) <> Ok (Some datas)) ->
  exit_code (fst (main w argv st)) = 1
  /\ same_fs st (snd (main w argv st)).
Proof.
  intros Hargs Hid Hnn Hfail.
  assert (Hmain : main w argv st
                  = io_bind (get_user_media w user_id count)
                      (fun datas => match datas with
                                    | Some datas => save_media w username datas
                                    | None => sys_exit 1
                                    end) st1).
  { rewrite (main_after_args _ _ _ _ _ Hargs). unfold io_bind at 1. rewrite Hid.
    destruct user_id; try reflexivity. now contradiction Hnn. }
  pose proof (get_user_id_same_fs w username st) as Hfs1.
  rewrite Hid in Hfs1. cbn [snd] in Hfs1.
  pose proof (get_user_media_same_fs w user_id count st1) as Hfs2.
  split.
  - apply exit_code_not_Ok; [apply exits_main |].
    rewrite Hmain. unfold io_bind.
    destruct (get_user_media w user_id count st1) as [[[datas |] | e] st2];
      cbn [fst] in *; try discriminate.
    now contradiction (Hfail datas).
  - rewrite Hmain. unfold io_bind.
    destruct (get_user_media w user_id count st1) as [[[datas |] | e] st2];
      cbn [fst snd] in *; try exact (same_fs_trans _ _ _ Hfs1 Hfs2).
    now contradiction (Hfail datas).
Qed.

(** X17, an instance. *)
Lemma listing_failure_exits_before_output_witness :
  let w := mock user_body (JList []) in
  exit_code (fst (main w (argv_alice "2") initial)) = 1
  /\ same_fs initial (snd (main w (argv_alice "2") initial)).
Proof.
  intros w.
  apply (listing_failure_exits_before_output w (argv_alice "2") "alice" 2
           (JStr "42") initial
           (called (ApiCall "user" [("username", JStr "alice")]) initial)).
  - now apply parsed_alice.
  - reflexivity.
  - discriminate.
  - intros datas H. vm_compute in H. discriminate H.
Defined.

(** ** What [main] writes *)

Lemma touches_only_refl (W : string -> Prop) (st : state) : touches_only W st st.
Proof. now intros path _. Qed.

Lemma touches_only_trans (W : string -> Prop) (a b c : state) :
  touches_only W a b -> touches_only W b c -> touches_only W a c.
Proof. intros H1 H2 path Hp. now rewrite (H2 path Hp), (H1 path Hp). Qed.

Lemma touches_only_written (W : string -> Prop) (path : string)
    (data : file_content) (st : state) :
  W path -> touches_only W st (written path data st).
Proof.
  intros HW other Hother. cbn [written files].
  apply lookup_insert_ne. now intros ->.
Qed.

Lemma string_app_assoc (a b c : string) : (a +:+ b) +:+ c = a +:+ (b +:+ c).
Proof.
  induction a as [| x a IH]; [reflexivity |].
  change (String x ((a +:+ b) +:+ c) = String x (a +:+ (b +:+ c))). now rewrite IH.
Qed.

Lemma string_app_inv_head (a b c : string) : a +:+ b = a +:+ c -> b = c.
Proof.
  induction a as [| x a IH]; [auto |].
  change (String x (a +:+ b) = String x (a +:+ c) -> b = c).
  intros [= H]. auto.
Qed.

Lemma photo_is_no_output_path (username : string) (n : Z) :
  ~ output_path username
      ((("medias/" +:+ username) +:+ "/photos") +:+ "/" +:+ str_of_Z n +:+ ".jpg").
Proof.
  unfold output_path, manifest_path, video_path.
  intros [H | [k H]]; rewrite !string_app_assoc in H;
    apply string_app_inv_head in H; apply string_app_inv_head in H;
    discriminate H.
Qed.

(** X19. No file [photos/<id>.jpg] of the user is ever written by [main],
    whatever the API, the media hosts and the operating system answer:
    the records of the lister carry a URL for videos only. *)
Theorem main_never_writes_a_photo (w : world) (argv : list string)
    (username : string) (n : Z) (st : state) :
  nth_error argv 2 = Some username ->
  let photo := (("medias/" +:+ username) +:+ "/photos")
               +:+ "/" +:+ str_of_Z n +:+ ".jpg" in
  files (snd (main w argv st)) !! photo = files st !! photo.
Proof.
  intros Hu photo.
  assert (H : respects (touches_only (output_path username)) (main w argv)).
  { apply (respects_main (touches_only (output_path username)) (output_path username)).
    - apply touches_only_refl.
    - apply touches_only_trans.
    - now intros l s p _.
    - now intros l s p _.
    - now intros c s p _.
    - apply touches_only_written.
    - now intros ds s p _.
    - intros u p Hu' Hp. now replace username with u by congruence. }
  apply (H st). apply photo_is_no_output_path.
Qed.

(** X19, an instance. *)
Lemma main_never_writes_a_photo_witness :
  let w := mock user_body (timeline [photo_entry; video_entry]) in
  files (snd (main w (argv_alice "2") initial)) !! "medias/alice/photos/1.jpg"
  = files initial !! "medias/alice/photos/1.jpg".
Proof.
  intros w. apply (main_never_writes_a_photo w (argv_alice "2") "alice" 1 initial).
  reflexivity.
Defined.

(** ** A run that ends with status 0 *)

Lemma string_app_nil_r (a : string) : a +:+ "" = a.
Proof.
  induction a as [| x a IH]; [reflexivity |].
  change (String x (a +:+ "") = String x a). now rewrite IH.
Qed.

Lemma path_in_prefixes (todo done : string) :
  In (done +:+ todo) (path_prefixes done todo).
Proof.
  revert done. induction todo as [| c rest IH]; intros done; cbn [path_prefixes].
  - rewrite string_app_nil_r. now left.
  - destruct (Ascii.eqb_spec c "/") as [-> | _].
    + right. specialize (IH (done +:+ "/")).
      now rewrite string_app_assoc in IH.
    + specialize (IH (done +:+ String c EmptyString)).
      now rewrite string_app_assoc in IH.
Qed.

Lemma makedirs_has_path (path : string) :
  path ∈ (list_to_set (path_prefixes "" path) : gset string).
Proof.
  apply elem_of_list_to_set, list_elem_of_In.
  exact (path_in_prefixes path "").
Qed.

Lemma download_all_same_dirs (w : world) (username : string)
    (datas : list MediaRecord) (st : state) :
  Forall url_only_for_video datas ->
  dirs (snd (download_all w (("medias/" +:+ username) +:+ "/photos")
               (("medias/" +:+ username) +:+ "/videos") datas st))
  = dirs st.
Proof.
  intros Hall.
  apply (respects_download_all (fun a b => dirs b = dirs a) (fun _ => True));
    auto; intros; congruence.
Qed.

Lemma save_media_Ok (w : world) (username : string) (datas : list MediaRecord)
    (st st' : state) :
  Forall url_only_for_video datas ->
  save_media w username datas st = (Ok tt, st') ->
  files st' !! manifest_path username
  = Some (JsonDump (JList (map record_json datas)))
  /\ "medias/" +:+ username ∈ dirs st'
  /\ ("medias/" +:+ username) +:+ "/photos" ∈ dirs st'
  /\ ("medias/" +:+ username) +:+ "/videos" ∈ dirs st'.
Proof.
  intros Hall. unfold save_media, os_makedirs, write_file, io_bind, manifest_path.
  cbn [record_call].
  destruct (makedirs_ok w ("medias/" +:+ username)); [| discriminate].
  destruct (makedirs_ok w (("medias/" +:+ username) +:+ "/photos")); [| discriminate].
  destruct (makedirs_ok w (("medias/" +:+ username) +:+ "/videos")); [| discriminate].
  match goal with |- context [download_all _ _ _ _ ?s] =>
    pose proof (download_all_same_dirs w username datas s Hall) as Hd;
    destruct (download_all w (("medias/" +:+ username) +:+ "/photos")
                (("medias/" +:+ username) +:+ "/videos") datas s)
      as [[[] | e] st3]; [| discriminate]
  end.
  cbn [snd dirs] in Hd.
  destruct (open_ok w (("medias/" +:+ username) +:+ "/data.json")); [| discriminate].
  intros [= <-]. cbn [files dirs]. rewrite Hd.
  split; [apply lookup_insert_eq |].
  pose proof (makedirs_has_path ("medias/" +:+ username)) as H1.
  pose proof (makedirs_has_path (("medias/" +:+ username) +:+ "/photos")) as H2.
  pose proof (makedirs_has_path (("medias/" +:+ username) +:+ "/videos")) as H3.
  rewrite !elem_of_union. auto 6.
Qed.

Lemma main_Ok (w : world) (argv : list string) (st st' : state) :
  main w argv st = (Ok tt, st') ->
  exists username count user_id st1 datas st2,
    nth_error argv 2 = Some username
    /\ get_user_id w username st = (Ok user_id, st1)
    /\ get_user_media w user_id count st1 = (Ok (Some datas), st2)
    /\ save_media w username datas st2 = (Ok tt, st').
Proof.
  assert (Hgo : forall username count user_id st1,
             io_bind (get_user_media w user_id count)
               (fun datas => match datas with
                             | Some datas => save_media w username datas
                             | None => sys_exit 1
                             end) st1 = (Ok tt, st') ->
             exists datas st2,
               get_user_media w user_id count st1 = (Ok (Some datas), st2)
               /\ save_media w username datas st2 = (Ok tt, st')).
  { intros username count user_id st1. unfold io_bind.
    destruct (get_user_media w user_id count st1) as [[[datas |] | e] st2];
      try discriminate.
    intros H. now exists datas, st2. }
  unfold main. destruct (_ || _).
  - unfold io_bind. rewrite print_all_printed. discriminate.
  - unfold io_bind at 1. unfold lift, argv_at.
    destruct (nth_error argv 2) as [username |] eqn:Hu; [| discriminate].
    unfold io_bind at 1.
    destruct (parse_count_cases argv st) as [[count Hc] | Hc]; rewrite Hc;
      [| discriminate].
    unfold io_bind at 1.
    destruct (get_user_id w username st) as [[user_id | e] st1] eqn:Hid;
      [| discriminate].
    destruct user_id; try discriminate; intros H;
      apply Hgo in H as (datas & st2 & Hm & Hs);
      (exists username, count; eexists; exists st1, datas, st2;
       repeat split; eassumption).
Qed.

(** X21. If [main] reaches its end, the manifest of the user holds the records
    the lister returned, and the three output directories exist. *)
Theorem exit_0_means_manifest_written (w : world) (argv : list string)
    (st : state) :
  fst (main w argv st) = Ok tt ->
  exists username datas,
    nth_error argv 2 = Some username
    /\ (exists user_id count st1 st2,
           get_user_media w user_id count st1 = (Ok (Some datas), st2))
    /\ files (snd (main w argv st)) !! manifest_path username
       = Some (JsonDump (JList (map record_json datas)))
    /\ "medias/" +:+ username ∈ dirs (snd (main w argv st))
    /\ ("medias/" +:+ username) +:+ "/photos" ∈ dirs (snd (main w argv st))
    /\ ("medias/" +:+ username) +:+ "/videos" ∈ dirs (snd (main w argv st)).
Proof.
  destruct (main w argv st) as [o st'] eqn:Hrun. cbn [fst snd]. intros ->.
  apply main_Ok in Hrun
    as (username & count & user_id & st1 & datas & st2 & Hu & _ & Hm & Hs).
  exists username, datas. split; [exact Hu |].
  split; [now exists user_id, count, st1, st2 |].
  apply (save_media_Ok w username datas st2 st'); [| exact Hs].
  exact (listed_records_null _ _ _ _ _ _ Hm).
Qed.

(** X21, an instance. *)
Lemma exit_0_means_manifest_written_witness :
  let w := mock user_body (timeline [photo_entry; video_entry]) in
  exists username datas,
    nth_error (argv_alice "2") 2 = Some username
    /\ (exists user_id count st1 st2,
           get_user_media w user_id count st1 = (Ok (Some datas), st2))
    /\ files (snd (main w (argv_alice "2") initial)) !! manifest_path username
       = Some (JsonDump (JList (map record_json datas)))
    /\ "medias/" +:+ username ∈ dirs (snd (main w (argv_alice "2") initial))
    /\ ("medias/" +:+ username) +:+ "/photos"
       ∈ dirs (snd (main w (argv_alice "2") initial))
    /\ ("medias/" +:+ username) +:+ "/videos"
       ∈ dirs (snd (main w (argv_alice "2") initial)).
Proof.
  intros w. apply (exit_0_means_manifest_written w (argv_alice "2") initial).
  reflexivity.
Defined.

(** ** Running the program again *)

Lemma merge_initial_r (st : state) : merge st initial = st.
Proof.
  destruct st. unfold merge, initial. cbn.
  rewrite !app_nil_r, (right_id_L ∅ (∪)), (left_id_L ∅ (∪)). reflexivity.
Qed.

Lemma merge_initial_l (s : state) : merge initial s = s.
Proof.
  destruct s. unfold merge, initial. cbn.
  rewrite (left_id_L ∅ (∪)), (right_id_L ∅ (∪)). reflexivity.
Qed.

Lemma merge_assoc (st a b : state) : merge (merge st a) b = merge st (merge a b).
Proof.
  unfold merge. cbn.
  rewrite !app_assoc, (assoc_L (∪) (dirs st)), (assoc_L (∪) (files b)). reflexivity.
Qed.

Lemma framed_state {A} (m : M A) (o : outcome A) (s : state) :
  (forall st, m st = (o, merge st s)) -> framed m.
Proof.
  intros H st. rewrite (H initial), (H st). cbn [fst snd].
  now rewrite merge_initial_l.
Qed.

Lemma framed_ret {A} (a : A) : framed (io_ret a).
Proof.
  apply (framed_state _ (Ok a) initial). intros st. now rewrite merge_initial_r.
Qed.

Lemma framed_raise {A} (e : exn) : framed (@io_raise A e).
Proof.
  apply (framed_state _ (Raise e) initial). intros st. now rewrite merge_initial_r.
Qed.

Lemma framed_lift {A} (o : outcome A) : framed (lift o).
Proof.
  apply (framed_state _ o initial). intros st. now rewrite merge_initial_r.
Qed.

Lemma framed_bind {A B} (m : M A) (f : A -> M B) :
  framed m -> (forall a, framed (f a)) -> framed (io_bind m f).
Proof.
  intros Hm Hf st. unfold io_bind. rewrite (Hm st).
  destruct (m initial) as [[a | e] s0]; cbn [fst snd]; [| reflexivity].
  rewrite (Hf a (merge st s0)), (Hf a s0). cbn [fst snd].
  now rewrite merge_assoc.
Qed.

Lemma framed_try {A} (body : M A) (catches : exn -> bool) (handler : exn -> M A) :
  framed body -> (forall e, framed (handler e)) ->
  framed (try_except body catches handler).
Proof.
  intros Hb Hh st. unfold try_except. rewrite (Hb st).
  destruct (body initial) as [[a | e] s0]; cbn [fst snd]; [reflexivity |].
  destruct (catches e); [| reflexivity].
  rewrite (Hh e (merge st s0)), (Hh e s0). cbn [fst snd].
  now rewrite merge_assoc.
Qed.

Lemma framed_logging (l : log_entry) : framed (logging l).
Proof.
  apply (framed_state _ (Ok tt) (logged l initial)). intros st.
  unfold logging, merge. cbn.
  now rewrite !app_nil_r, (right_id_L ∅ (∪)), (left_id_L ∅ (∪)).
Qed.

Lemma framed_print (line : string) : framed (print line).
Proof.
  apply (framed_state _ (Ok tt) (printed [line] initial)). intros st.
  unfold print, merge. cbn.
  now rewrite !app_nil_r, (right_id_L ∅ (∪)), (left_id_L ∅ (∪)).
Qed.

Lemma framed_record_call (c : call) : framed (record_call c).
Proof.
  apply (framed_state _ (Ok tt) (called c initial)). intros st.
  unfold record_call, merge. cbn.
  now rewrite !app_nil_r, (right_id_L ∅ (∪)), (left_id_L ∅ (∪)).
Qed.

Lemma framed_made_dirs (ds : gset string) :
  framed (fun s => (Ok tt, made_dirs ds s)).
Proof.
  apply (framed_state _ (Ok tt) (made_dirs ds initial)). intros st.
  unfold made_dirs, merge. cbn.
  now rewrite !app_nil_r, (left_id_L ∅ (∪)), (left_id_L ∅ (∪)).
Qed.

Lemma framed_written (path : string) (data : file_content) :
  framed (fun s => (Ok tt, written path data s)).
Proof.
  apply (framed_state _ (Ok tt) (written path data initial)). intros st.
  unfold written, merge. cbn.
  rewrite !app_nil_r, (right_id_L ∅ (∪)), <- insert_union_l, (left_id_L ∅ (∪)).
  reflexivity.
Qed.

Lemma framed_os_makedirs (w : world) (path : string) : framed (os_makedirs w path).
Proof.
  unfold os_makedirs. apply framed_bind; [apply framed_record_call | intros _].
  destruct (makedirs_ok w path);
    [apply framed_made_dirs | apply (framed_raise (OSError path))].
Qed.

Lemma framed_write_file (w : world) (path : string) (data : file_content) :
  framed (write_file w path data).
Proof.
  unfold write_file. apply framed_bind; [apply framed_record_call | intros _].
  destruct (open_ok w path);
    [apply framed_written | apply (framed_raise (OSError path))].
Qed.

Lemma framed_print_all (lines : list string) : framed (print_all lines).
Proof.
  induction lines as [| l rest IH]; cbn [print_all]; [apply framed_ret |].
  apply framed_bind; [apply framed_print | intros _; exact IH].
Qed.

Lemma framed_make_request (w : world) (endpoint : string)
    (params : list (string * json)) :
  framed (make_request w endpoint params).
Proof.
  unfold make_request. apply framed_bind; [apply framed_record_call | intros _].
  destruct (requests_get _) as [response | e].
  - apply framed_try; [apply framed_lift | intros e].
    apply framed_bind; [apply framed_logging | intros _; apply framed_ret].
  - destruct (is_RequestException e); [| apply framed_raise].
    apply framed_bind; [apply framed_logging | intros _; apply framed_raise].
Qed.

Lemma framed_list_media (data : json) : framed (list_media data).
Proof.
  unfold list_media. apply framed_bind.
  - apply framed_try.
    + apply framed_bind; [apply framed_lift | intros; apply framed_ret].
    + intros e. apply framed_bind; [apply framed_logging | intros; apply framed_ret].
  - intros [entries |]; [| apply framed_ret].
    apply framed_bind; [apply framed_lift | intros items].
    apply framed_bind; [apply framed_lift | intros; apply framed_ret].
Qed.

Lemma framed_get_user_media (w : world) (user_id : json) (count : Z) :
  framed (get_user_media w user_id count).
Proof.
  unfold get_user_media.
  apply framed_bind; [apply framed_make_request | intros [[data status] text]].
  destruct (negb (status =? 200)); [| apply framed_list_media].
  apply framed_bind; [apply framed_logging | intros; apply framed_ret].
Qed.

Lemma framed_get_user_id (w : world) (username : string) :
  framed (get_user_id w username).
Proof.
  unfold get_user_id.
  apply framed_bind; [apply framed_make_request | intros [[data status] text]].
  destruct (negb (status =? 200)).
  - apply framed_bind; [apply framed_logging | intros; apply framed_ret].
  - unfold find_user_id. apply framed_try; [apply framed_lift | intros e].
    apply framed_bind; [apply framed_logging | intros; apply framed_ret].
Qed.

Lemma framed_download_media (w : world) (url : json) (file_name kind : string) :
  framed (download_media w url file_name kind).
Proof.
  unfold download_media. apply framed_bind; [apply framed_record_call | intros _].
  destruct (String.eqb kind "photo"); [| destruct (String.eqb kind "video")].
  - apply framed_try; [| intros e; apply framed_logging].
    apply framed_bind; [apply framed_lift | intros response].
    apply framed_bind; [apply framed_lift | intros _; apply framed_write_file].
  - apply framed_try; [| intros e; apply framed_logging].
    destruct (ytdlp w url file_name) as [bytes |]; [| apply framed_raise].
    apply framed_bind; [| intros _; apply framed_logging].
    apply (framed_written file_name (Bytes bytes)).
  - apply framed_ret.
Qed.

Lemma framed_download_all (w : world) (photos videos : string)
    (datas : list MediaRecord) :
  framed (download_all w photos videos datas).
Proof.
  induction datas as [| r datas IH]; cbn [download_all]; [apply framed_ret |].
  apply framed_bind; [| intros _; exact IH].
  unfold download_one.
  destruct (py_eq (media_type r) (JStr "photo"));
    [| destruct (py_eq (media_type r) (JStr "video"))];
    auto using framed_download_media, framed_ret.
Qed.

Lemma framed_save_media (w : world) (username : string) (datas : list MediaRecord) :
  framed (save_media w username datas).
Proof.
  unfold save_media. cbv zeta.
  do 3 (apply framed_bind; [apply framed_os_makedirs | intros _]).
  apply framed_bind; [apply framed_download_all | intros _].
  apply framed_write_file.
Qed.

Lemma framed_parse_count (argv : list string) : framed (parse_count argv).
Proof.
  unfold parse_count. destruct (_ && _); [| apply framed_ret].
  apply framed_try; [apply framed_lift | intros e].
  apply framed_bind; [apply framed_logging | intros _; apply framed_raise].
Qed.

Lemma framed_main (w : world) (argv : list string) : framed (main w argv).
Proof.
  unfold main. destruct (_ || _).
  - apply framed_bind; [apply framed_print_all | intros _; apply framed_raise].
  - apply framed_bind; [apply framed_lift | intros username].
    apply framed_bind; [apply framed_parse_count | intros count].
    apply framed_bind; [apply framed_get_user_id | intros user_id].
    assert (Hrest : framed
              (io_bind (get_user_media w user_id count)
                 (fun datas => match datas with
                               | Some datas => save_media w username datas
                               | None => sys_exit 1
                               end))).
    { apply framed_bind; [apply framed_get_user_media |].
      intros [datas |]; [apply framed_save_media | apply framed_raise]. }
    destruct user_id; try exact Hrest. apply framed_raise.
Qed.

(** X22. Running [main] a second time, with the same answers from outside,
    ends the same way and leaves the files and directories as the first
    run left them. *)
Theorem rerun_leaves_the_files_as_they_are (w : world) (argv : list string)
    (st : state) :
  let first := main w argv st in
  let second := main w argv (snd first) in
  fst second = fst first
  /\ files (snd second) = files (snd first)
  /\ dirs (snd second) = dirs (snd first).
Proof.
  cbv zeta. rewrite (framed_main w argv st). cbn [fst snd].
  rewrite (framed_main w argv (merge st _)). cbn [fst snd].
  split; [reflexivity |]. unfold merge. cbn [files dirs]. split.
  - now rewrite (assoc_L (∪)), (idemp_L (∪)).
  - now rewrite <- (assoc_L (∪)), (idemp_L (∪)).
Qed.

(** ** File names *)

Lemma str_of_Z_inj (a b : Z) : str_of_Z a = str_of_Z b -> a = b.
Proof.
  unfold str_of_Z. intros H.
  assert (Hn : forall z, Z.to_int z <> Decimal.Pos Decimal.Nil
                         /\ Z.to_int z <> Decimal.Neg Decimal.Nil).
  { intros [| p | p]; cbn; split; try discriminate;
      intros [= Hp]; now apply (Unsigned.to_uint_nonnil p). }
  apply (f_equal NilZero.int_of_string) in H.
  rewrite !NilZero.isi in H by apply Hn.
  injection H as H. now apply DecimalZ.to_int_inj.
Qed.

Lemma string_length_app (a b : string) :
  String.length (a +:+ b) = (String.length a + String.length b)%nat.
Proof.
  induction a as [| x a IH]; [reflexivity |].
  change (S (String.length (a +:+ b)) = S (String.length a + String.length b)).
  now rewrite IH.
Qed.

Lemma string_app_inv_tail (a b c : string) : a +:+ c = b +:+ c -> a = b.
Proof.
  revert b. induction a as [| x a IH]; intros [| y b] H.
  - reflexivity.
  - exfalso. change ("" +:+ c) with c in H. apply (f_equal String.length) in H.
    rewrite (string_length_app (String y b)) in H. cbn in H. lia.
  - exfalso. change ("" +:+ c) with c in H. apply (f_equal String.length) in H.
    rewrite (string_length_app (String x a)) in H. cbn in H. lia.
  - change (String x (a +:+ c) = String y (b +:+ c)) in H.
    injection H as -> H. f_equal. now apply IH.
Qed.

Lemma attempt_file_id (folder : string) (r r' : MediaRecord) (f : string) :
  In f (download_files (attempt_of (folder +:+ "/photos") (folder +:+ "/videos") r)) ->
  In f (download_files (attempt_of (folder +:+ "/photos") (folder +:+ "/videos") r')) ->
  id r = id r'.
Proof.
  unfold attempt_of.
  destruct (is_str "photo" (Some (media_type r)));
    [| destruct (is_str "video" (Some (media_type r)))];
    (destruct (is_str "photo" (Some (media_type r')));
     [| destruct (is_str "video" (Some (media_type r')))]);
    cbn [download_files flat_map app In];
    try tauto; intros [<- | []] [H | []];
    rewrite !string_app_assoc in H; apply string_app_inv_head in H;
    try discriminate H.
  - apply (string_app_inv_head "/photos"), (string_app_inv_head "/") in H.
    apply string_app_inv_tail in H. symmetry. now apply str_of_Z_inj.
  - apply (string_app_inv_head "/videos"), (string_app_inv_head "/video_") in H.
    apply string_app_inv_tail in H. symmetry. now apply str_of_Z_inj.
Qed.

Lemma download_files_app (a b : list call) :
  download_files (a ++ b) = download_files a ++ download_files b.
Proof. unfold download_files. apply flat_map_app. Qed.

Lemma download_files_of_some (photos videos : string) (datas : list MediaRecord)
    (f : string) :
  In f (download_files (flat_map (attempt_of photos videos) datas)) ->
  exists r, In r datas /\ In f (download_files (attempt_of photos videos r)).
Proof.
  induction datas as [| r datas IH]; cbn [flat_map]; [intros [] |].
  rewrite download_files_app. intros H. apply in_app_or in H as [H | H].
  - exists r. split; [now left | exact H].
  - destruct (IH H) as (r' & Hin & Hf). exists r'. split; [now right | exact Hf].
Qed.

Lemma distinct_ids_distinct_files (folder : string) (datas : list MediaRecord) :
  List.NoDup (map id datas) ->
  List.NoDup (download_files
           (flat_map (attempt_of (folder +:+ "/photos") (folder +:+ "/videos")) datas)).
Proof.
  induction datas as [| r datas IH]; cbn [map flat_map]; [constructor |].
  intros Hnd. apply List.NoDup_cons_iff in Hnd as [Hnew Hnd].
  rewrite download_files_app.
  assert (Hone : forall f,
             In f (download_files
                     (attempt_of (folder +:+ "/photos") (folder +:+ "/videos") r)) ->
             ~ In f (download_files
                       (flat_map (attempt_of (folder +:+ "/photos")
                                    (folder +:+ "/videos")) datas))).
  { intros f Hf Hin. apply download_files_of_some in Hin as (r' & Hr' & Hf').
    apply Hnew. rewrite (attempt_file_id folder r r' f Hf Hf').
    now apply in_map. }
  specialize (IH Hnd).
  unfold attempt_of in *.
  destruct (is_str "photo" (Some (media_type r)));
    [| destruct (is_str "video" (Some (media_type r)))];
    cbn [download_files flat_map app] in *; auto;
    (constructor; [apply Hone; now left | exact IH]).
Qed.

Lemma zseq_NoDup (n : Z) (len : nat) :
  List.NoDup (map (fun i => n + Z.of_nat i) (seq 0 len)).
Proof.
  apply Finite.Injective_map_NoDup; [| apply List.seq_NoDup].
  intros i j H. lia.
Qed.

(** X23. The downloads of one listing go to pairwise distinct files: the ids
    are distinct and the file name is made from the id and the type. *)
Theorem downloads_never_share_a_file (w : world) (user_id : json) (count : Z)
    (username : string) (st st' : state) (datas : list MediaRecord) :
  get_user_media w user_id count st = (Ok (Some datas), st') ->
  List.NoDup (download_files
           (flat_map (attempt_of (("medias/" +:+ username) +:+ "/photos")
                                 (("medias/" +:+ username) +:+ "/videos")) datas)).
Proof.
  intros H.
  apply get_user_media_Some in H
    as (data & _ & _ & found & items & _ & _ & Hloop).
  apply entries_loop_spec in Hloop as (recs & Heq & _ & Hid & _).
  cbn [app] in Heq. subst recs.
  apply distinct_ids_distinct_files. rewrite Hid. apply zseq_NoDup.
Qed.

(** X23, an instance. *)
Lemma downloads_never_share_a_file_witness :
  let w := mock user_body (timeline [photo_entry; video_entry; photo_entry]) in
  List.NoDup (download_files
           (flat_map (attempt_of (("medias/" +:+ "alice") +:+ "/photos")
                                 (("medias/" +:+ "alice") +:+ "/videos"))
              [photo_record 1; video_record 2; photo_record 3])).
Proof.
  intros w.
  apply (downloads_never_share_a_file w (JStr "42") 9 "alice" initial
           (called (ApiCall "user-media" (media_query (JStr "42") 9)) initial)).
  reflexivity.
Defined.
